(** * SETLyze, analysis "Spot Preference": a shallow embedding

    The development follows the two Python modules it verifies:

    - [Std]            : [setlyze/std.py] (spatial helpers, the plate
                         randomizer, the XML report generator and reader);
    - [SpotPreference] : [setlyze/analysis/spot_preference.py] (class
                         [Start]: observed and expected plate area totals,
                         the repeated Wilcoxon test, the user defined plate
                         areas, the analysis driver [run]).

    Python integers are [Z], Python floats are the binary64 numbers of
    [SpecFloat], Python dictionaries are stdpp [gmap]s, exceptions are an
    error monad, the SQLite tables are lists of rows in
    insertion order, and the XML DOM is a store of nodes addressed by
    identifiers, so that the aliasing between a parent and the children
    appended to it later is kept. *)

From Stdlib Require Import ZArith QArith String Ascii List Lia.
From Stdlib Require Import Floats.SpecFloat Numbers.DecimalString Numbers.DecimalZ.
From stdpp Require Import gmap strings list fin_maps sorting.

Local Open Scope Z_scope.

(** ** Exceptions *)

Inductive exn :=
| ValueError
| KeyError
| IndexError
| AttributeError
| ZeroDivisionError
| OverflowError
| NoReturn.   (* the evaluation ran out of fuel: a loop that has not ended *)

Inductive result (A : Type) :=
| Ok (a : A)
| Raise (e : exn).
Arguments Ok {A} a.
Arguments Raise {A} e.

Definition rbind {A B} (c : result A) (k : A → result B) : result B :=
  match c with
  | Ok a => k a
  | Raise e => Raise e
  end.

#[global] Instance result_bind : MBind result := λ A B k c, rbind c k.
#[global] Instance result_ret : MRet result := λ A a, Ok a.

(** [for x in xs: acc = body(acc, x)], where the body may raise. *)
Fixpoint for_each {A S} (body : S → A → result S) (xs : list A) (acc : S)
  : result S :=
  match xs with
  | [] => Ok acc
  | x :: rest => acc' ← body acc x ; for_each body rest acc'
  end.

(** Python's [enumerate(xs, start)]. *)
Fixpoint enumerate {A} (start : Z) (xs : list A) : list (Z * A) :=
  match xs with
  | [] => []
  | x :: rest => (start, x) :: enumerate (start + 1) rest
  end.

(** An integer read as a condition: zero is false. *)
Definition truthy (x : Z) : bool := negb (x =? 0).

(** [x in xs] for a tuple of integers. *)
Definition py_in (x : Z) (xs : list Z) : bool := bool_decide (x ∈ xs).

(** Case analysis on an integer known to lie in a small interval. *)
Ltac Z_cases n lo k :=
  lazymatch k with
  | O => exfalso; lia
  | S ?k' =>
      let H := fresh in
      destruct (Z.eq_dec n lo) as [->|H]; [| Z_cases n (Z.succ lo) k']
  end.

Module Std.

(** ** Spatial model: [get_spot_coordinate], [get_spot_position_difference] *)

Definition rows : list (list Z) :=
  [ [1;2;3;4;5];
    [6;7;8;9;10];
    [11;12;13;14;15];
    [16;17;18;19;20];
    [21;22;23;24;25] ].

Definition cols : list (list Z) :=
  [ [1;6;11;16;21];
    [2;7;12;17;22];
    [3;8;13;18;23];
    [4;9;14;19;24];
    [5;10;15;20;25] ].

(** [for num, line in enumerate(lines, start=1): if spot_num in line: ...
    break]: the number of the first line that holds the spot. *)
Fixpoint first_line (lines : list (Z * list Z)) (spot_num : Z) : option Z :=
  match lines with
  | [] => None
  | (num, line) :: rest =>
      if py_in spot_num line then Some num else first_line rest spot_num
  end.

(** In the source a loop that ends without [break] leaves [row] (or [col])
    bound to the last tuple.  Every spot of 1..25 is in both tables, so the
    case cannot occur behind the range check; it is an [IndexError] here and
    [get_spot_coordinate_total] shows that it is never produced. *)
Definition get_spot_coordinate (spot_num : Z) : result (Z * Z) :=
  if negb ((1 <=? spot_num) && (spot_num <=? 25)) then Raise ValueError
  else
    match first_line (enumerate 1 rows) spot_num,
          first_line (enumerate 1 cols) spot_num with
    | Some row, Some col => Ok (row, col)
    | _, _ => Raise IndexError
    end.

Definition get_spot_position_difference (s1 s2 : Z) : result (Z * Z) :=
  s1 ← get_spot_coordinate s1 ;
  s2 ← get_spot_coordinate s2 ;
  let v := Z.abs (s1.1 - s2.1) in
  let h := Z.abs (s1.2 - s2.2) in
  Ok (h, v).

(** [get_spots_from_record]: the spot numbers of the positive spots of a
    sequence of spot booleans. *)
Definition get_spots_from_record (record : list Z) : list Z :=
  foldl (λ spots '(i, spot), if truthy spot then spots ++ [i] else spots)
        [] (enumerate 1 record).

(** ** Floats

    A Python float is a binary64 number: a [spec_float] with 53 digits,
    whose operations round to the nearest float, ties to even. *)

Definition prec : Z := 53.
Definition emax : Z := 1024.
Definition float_of_Z (z : Z) : spec_float := binary_normalize prec emax z 0 false.
Definition float_mul := SFmul prec emax.

(** [float(z)], which is also how the integer operand of a float operation
    is converted: the nearest float, and an [OverflowError] where that is
    beyond the largest float. *)
Definition float_of_int (z : Z) : result spec_float :=
  match float_of_Z z with
  | S754_infinity _ => Raise OverflowError
  | x => Ok x
  end.

(** [int(x)]: the integer part of a float, toward zero. *)
Definition int_of_float (x : spec_float) : result Z :=
  match x with
  | S754_zero _ => Ok 0
  | S754_finite s m e =>
      let a := Z.shiftl (Z.pos m) e in Ok (if s then - a else a)
  | S754_infinity _ => Raise OverflowError
  | S754_nan => Raise ValueError
  end.

(** ** The randomization engine: [get_random_for_plate]

    [random.random()] of CPython 2 returns [m / 2^53] for a 53-bit integer
    [m] read from the Mersenne Twister.  The generator is an oracle here: a
    tape of integers and the position of the next draw.  [random] gives the
    integer [m] of the draw; the float that Python sees is [random_float m],
    which is [m / 2^53] without rounding, as [m] has at most 53 digits. *)

Record rng := { tape : nat → Z; pos : nat }.

Definition random (g : rng) : Z * rng :=
  (tape g (pos g) `mod` 2 ^ 53, {| tape := tape g; pos := S (pos g) |}).

Definition random_float (m : Z) : spec_float :=
  binary_normalize prec emax m (-53) false.

(** [_int(random() * n)]: the product of two floats, rounded to the nearest
    float, and then its integer part. *)
Definition int_random_times (n : Z) (g : rng) : result (Z * rng) :=
  let '(m, g') := random g in
  y ← float_of_int n ;
  j ← int_of_float (float_mul (random_float m) y) ;
  Ok (j, g').

(** Python indexing of a list: a negative index counts from the end. *)
Definition py_index (len i : Z) : result nat :=
  if (0 <=? i) && (i <? len) then Ok (Z.to_nat i)
  else if (- len <=? i) && (i <? 0) then Ok (Z.to_nat (len + i))
  else Raise IndexError.

Definition getitem {A} (l : list A) (i : Z) : result A :=
  k ← py_index (Z.of_nat (length l)) i ;
  match l !! k with
  | Some x => Ok x
  | None => Raise IndexError
  end.

Definition setitem {A} (l : list A) (i : Z) (x : A) : result (list A) :=
  k ← py_index (Z.of_nat (length l)) i ;
  Ok (<[k := x]> l).

(** [xrange(start, stop)] *)
Definition xrange (start stop : Z) : list Z := seqZ start (stop - start).

(** [_ceil(_log(x, 4))] for an integer [x >= 1].  The float logarithm can
    only be off at an exact power of 4; [sample] calls it on [k * 3], which
    is a power of 4 for no integer [k]. *)
Definition ceil_log4 (x : Z) : Z := (Z.log2_up x + 1) / 2.

(** First branch of [random.sample]: selection from a pool.
<<
    pool = list(population)
    for i in xrange(k):
        j = _int(random() * (n-i))
        result[i] = pool[j]
        pool[j] = pool[n-i-1]
>> *)
Fixpoint sample_pool (n : Z) (range_k : list Z) (pool : list Z) (g : rng)
  : result (list Z * rng) :=
  match range_k with
  | [] => Ok ([], g)
  | i :: rest =>
      '(j, g) ← int_random_times (n - i) g ;
      x ← getitem pool j ;
      y ← getitem pool (n - i - 1) ;
      pool ← setitem pool j y ;
      '(result, g) ← sample_pool n rest pool g ;
      Ok (x :: result, g)
  end.

(** The inner loop of the second branch,
<<
    j = _int(random() * n)
    while j in selected:
        j = _int(random() * n)
>>
    which ends when the generator yields an index not selected yet. *)
Fixpoint draw_unselected (fuel : nat) (n : Z) (selected : gset Z) (g : rng)
  : result (Z * rng) :=
  match fuel with
  | O => Raise NoReturn
  | S fuel =>
      '(j, g) ← int_random_times n g ;
      if bool_decide (j ∈ selected) then draw_unselected fuel n selected g
      else Ok (j, g)
  end.

(** Second branch of [random.sample]: selection with a set of the indices
    taken so far. *)
Fixpoint sample_set (fuel : nat) (n : Z) (range_k : list Z)
    (population : list Z) (selected : gset Z) (g : rng)
  : result (list Z * rng) :=
  match range_k with
  | [] => Ok ([], g)
  | _ :: rest =>
      '(j, g) ← draw_unselected fuel n selected g ;
      let selected := {[ j ]} ∪ selected in
      x ← getitem population j ;
      '(result, g) ← sample_set fuel n rest population selected g ;
      Ok (x :: result, g)
  end.

(** [random.sample(population, k)] of the Python 2 standard library, for a
    sequence [population]. *)
Definition sample (fuel : nat) (population : list Z) (k : Z) (g : rng)
  : result (list Z * rng) :=
  let n := Z.of_nat (length population) in
  if negb ((0 <=? k) && (k <=? n)) then Raise ValueError
  else
    let setsize := if 5 <? k then 21 + 4 ^ ceil_log4 (k * 3) else 21 in
    if n <=? setsize then sample_pool n (xrange 0 k) population g
    else sample_set fuel n (xrange 0 k) population ∅ g.

Definition get_random_for_plate (fuel : nat) (n : Z) (g : rng)
  : result (list Z * rng) :=
  sample fuel (xrange 1 26) n g.

(** ** Python values and their text *)

Inductive pyval :=
| PyInt (z : Z)
| PyStr (s : string)
| PyFloat (f : spec_float).

(** [str(z)] for an integer: the decimal numeral, with a minus sign for a
    negative number. *)
Definition str_int (z : Z) : string := NilZero.string_of_int (Z.to_int z).

(** [int(s)] for a plain decimal numeral [s]. *)
Definition int_of_str (s : string) : option Z :=
  Z.of_int <$> NilZero.int_of_string s.

Definition is_space (c : ascii) : bool :=
  (Ascii.eqb c " " || Ascii.eqb c "009" || Ascii.eqb c "010"
   || Ascii.eqb c "011" || Ascii.eqb c "012" || Ascii.eqb c "013")%char.

Fixpoint lstrip (s : string) : string :=
  match s with
  | EmptyString => EmptyString
  | String c s' => if is_space c then lstrip s' else s
  end.

Fixpoint rstrip (s : string) : string :=
  match s with
  | EmptyString => EmptyString
  | String c s' =>
      match rstrip s' with
      | EmptyString => if is_space c then EmptyString else String c EmptyString
      | r => String c r
      end
  end.

(** [s.strip()] *)
Definition strip (s : string) : string := rstrip (lstrip s).

(** ** The XML DOM ([xml.dom.minidom])

    Nodes are objects: a child appended to an element is seen through every
    reference to that element.  The document therefore owns a store of nodes
    and refers to them by identifier (the index in the store). *)

Inductive node :=
| Element (localName : string) (attributes : gmap string string)
          (childNodes : list nat)
| Text (nodeValue : string).

Record Document := { nodes : list node; doc_childNodes : list nat }.

(** The part of a qualified name behind its prefix. *)
Fixpoint after_colon (s : string) : option string :=
  match s with
  | EmptyString => None
  | String c s' => if Ascii.eqb c ":" then Some s' else after_colon s'
  end.

Definition createElementNS (qualifiedName : string) (d : Document)
  : nat * Document :=
  let name := default qualifiedName (after_colon qualifiedName) in
  (length (nodes d),
   {| nodes := nodes d ++ [Element name ∅ []];
      doc_childNodes := doc_childNodes d |}).

Definition createTextNode (data : string) (d : Document) : nat * Document :=
  (length (nodes d),
   {| nodes := nodes d ++ [Text data]; doc_childNodes := doc_childNodes d |}).

Definition update_node (f : node → node) (i : nat) (d : Document) : Document :=
  {| nodes := alter f i (nodes d); doc_childNodes := doc_childNodes d |}.

(** [parent.appendChild(child)] for a new node [child]. *)
Definition appendChild (parent child : nat) (d : Document) : Document :=
  update_node (λ nd, match nd with
                     | Element n a cs => Element n a (cs ++ [child])
                     | Text v => Text v
                     end) parent d.

Definition setAttribute (e : nat) (key val : string) (d : Document) : Document :=
  update_node (λ nd, match nd with
                     | Element n a cs => Element n (<[key := val]> a) cs
                     | Text v => Text v
                     end) e d.

Section Report.

(** [str] on a float (its decimal formatting is not modelled). *)
Variable float_str : spec_float → string.

Definition py_str (v : pyval) : string :=
  match v with
  | PyInt z => str_int z
  | PyStr s => s
  | PyFloat f => float_str f
  end.

(** *** class [ReportGenerator] *)

Record ReportGenerator := { doc : Document; report : nat }.

Definition ns : string := "http://www.gimaris.com/setlyze/".

(** [ReportGenerator.__init__] *)
Definition ReportGenerator_init : ReportGenerator :=
  let d := {| nodes := []; doc_childNodes := [] |} in
  let '(report, d) := createElementNS "setlyze:report" d in
  let d := setAttribute report "xmlns:setlyze" ns d in
  let d := {| nodes := nodes d; doc_childNodes := doc_childNodes d ++ [report] |} in
  {| doc := d; report := report |}.

(** [create_element(parent, name, child_elements, attributes, text)]; the
    dictionaries arrive as the lists of their items, in iteration order. *)
Definition create_element (parent : nat) (name : string)
    (child_elements attributes : list (string * pyval)) (text : option pyval)
    (d : Document) : nat * Document :=
  let '(element, d) := createElementNS name d in
  let d := appendChild parent element d in
  let d := foldl (λ d '(key, val), setAttribute element key (py_str val) d)
                 d attributes in
  let d := foldl (λ d '(key, val),
                    let '(child_element, d) := createElementNS key d in
                    let '(text_node, d) := createTextNode (py_str val) d in
                    let d := appendChild child_element text_node d in
                    appendChild element child_element d)
                 d child_elements in
  let d := match text with
           | Some text =>
               let '(text_node, d) := createTextNode (py_str text) d in
               appendChild element text_node d
           | None => d
           end in
  (element, d).

Definition analysis_names : gmap string string :=
  {[ "spot_preference" := "Spot Preference";
     "attraction_intra" := "Attraction of Species (intra-specific)";
     "attraction_inter" := "Attraction of Species (inter-specific)";
     "relations" := "Relation between Species" ]}.

Definition set_analysis (name : string) (r : ReportGenerator) : ReportGenerator :=
  let name := default name (analysis_names !! name) in
  let '(_, d) := create_element (report r) "analysis" [] [] (Some (PyStr name))
                                (doc r) in
  {| doc := d; report := report r |}.

(** [set_location_selections]; in the source the selection of a slot is
    read from the configuration and its rows from the table [localities]
    of the local database.  The child elements of a location are the items
    of a dictionary with the keys 'name' and 'nr'; they are written in the
    order that the docstring of the method shows. *)
Definition set_location_selections (loc_ids : Z → list Z)
    (localities : list (Z * string * Z)) (r : ReportGenerator)
  : ReportGenerator :=
  let '(location_selections, d) :=
    create_element (report r) "location_selections" [] [] None (doc r) in
  let d := foldl (λ d slot,
                    match loc_ids slot with
                    | [] => d     (* continue *)
                    | _ =>
                        let '(loc_selection_element, d) :=
                          create_element location_selections "selection" []
                            [("slot", PyInt slot)] None d in
                        foldl (λ d '(loc_id, loc_name, loc_nr),
                                 (create_element loc_selection_element "location"
                                    [("nr", PyInt loc_nr); ("name", PyStr loc_name)]
                                    [("id", PyInt loc_id)] None d).2)
                              d (filter (λ row, row.1.1 ∈ loc_ids slot) localities)
                    end)
                 d [0; 1] in
  {| doc := d; report := report r |}.

(** A call of a method that the class [ReportGenerator] of [std.py] does
    not have: the attribute lookup fails before an argument is evaluated. *)
Definition no_attribute (name : string) (r : ReportGenerator)
  : result ReportGenerator :=
  Raise AttributeError.

(** [set_plate_areas_definition]; the definition is read from the
    configuration in the source. *)
Definition set_plate_areas_definition (definition : gmap string (list string))
    (r : ReportGenerator) : ReportGenerator :=
  let '(areas_definition_element, d) :=
    create_element (report r) "plate_areas_definition" [] [] None (doc r) in
  let d := foldl (λ d '(area, spots),
                    let '(area_element, d) :=
                      create_element areas_definition_element "area" []
                        [("id", PyStr area)] None d in
                    foldl (λ d spot,
                             (create_element area_element "spot" [] []
                                (Some (PyStr spot)) d).2)
                          d spots)
                 d (map_to_list definition) in
  {| doc := d; report := report r |}.

(** The body shared by [set_area_totals_observed] and
    [set_area_totals_expected], which differ in the name of the element. *)
Definition set_area_totals (element_name : string)
    (totals : list (string * pyval)) (r : ReportGenerator) : ReportGenerator :=
  let '(species_totals_element, d) :=
    create_element (report r) element_name [] [] None (doc r) in
  let d := foldl (λ d '(area, total),
                    (create_element species_totals_element "area" []
                       [("id", PyStr area)] (Some total) d).2)
                 d totals in
  {| doc := d; report := report r |}.

Definition set_area_totals_observed (totals_observed : gmap string Z)
    (r : ReportGenerator) : ReportGenerator :=
  set_area_totals "area_totals_observed"
    (map_to_list (PyInt <$> totals_observed)) r.

Definition set_area_totals_expected (totals_expected : gmap string spec_float)
    (r : ReportGenerator) : ReportGenerator :=
  set_area_totals "area_totals_expected"
    (map_to_list (PyFloat <$> totals_expected)) r.

Definition get_report (r : ReportGenerator) : Document := doc r.

(** *** class [ReportReader] *)

Definition node_at (d : Document) (i : nat) : result node :=
  match nodes d !! i with
  | Some nd => Ok nd
  | None => Raise AttributeError   (* no identifier is ever dangling *)
  end.

Definition childNodes_of (nd : node) : list nat :=
  match nd with
  | Element _ _ cs => cs
  | Text _ => []
  end.

Definition is_element (nd : node) (name : string) : bool :=
  match nd with
  | Element n _ _ => bool_decide (n = name)
  | Text _ => false
  end.

(** [ReportReader(report)] with [set_report] on a DOM object. *)
Definition ReportReader_init (report : Document) : result Document :=
  top ← getitem (doc_childNodes report) 0 ;
  nd ← node_at report top ;
  if is_element nd "report" then Ok report else Raise ValueError.

(** [get_element(self.doc, name)] *)
Definition get_element (d : Document) (name : string) : result (option nat) :=
  top ← getitem (doc_childNodes d) 0 ;
  nd ← node_at d top ;
  for_each (λ element e,
              match element with
              | Some _ => Ok element       (* after the [break] *)
              | None =>
                  nd ← node_at d e ;
                  Ok (if is_element nd name then Some e else None)
              end)
           (childNodes_of nd) None.

(** [e.childNodes[0].nodeValue.strip()] *)
Definition first_child_text (d : Document) (nd : node) : result string :=
  c ← getitem (childNodes_of nd) 0 ;
  c ← node_at d c ;
  match c with
  | Text v => Ok (strip v)
  | Element _ _ _ => Raise AttributeError   (* [None] has no [strip] *)
  end.

Definition getAttribute (nd : node) (key : string) : string :=
  match nd with
  | Element _ a _ => default EmptyString (a !! key)
  | Text _ => EmptyString
  end.

(** The body shared by [get_area_totals_observed] and
    [get_area_totals_expected]; [None] is the bare [return]. *)
Definition get_area_totals_from (element_name : string) (d : Document)
  : result (option (gmap string pyval)) :=
  area_totals ← get_element d element_name ;
  match area_totals with
  | None => Ok None
  | Some area_totals =>
      nd ← node_at d area_totals ;
      totals ← for_each (λ totals e,
                  nd ← node_at d e ;
                  if is_element nd "area" then
                    let area_id := getAttribute nd "id" in
                    v ← first_child_text d nd ;
                    Ok (<[area_id := PyStr v]> totals)
                  else Ok totals)
                (childNodes_of nd) (∅ : gmap string pyval) ;
      Ok (Some totals)
  end.

Definition get_area_totals_observed (d : Document) :=
  get_area_totals_from "area_totals_observed" d.

Definition get_area_totals_expected (d : Document) :=
  get_area_totals_from "area_totals_expected" d.

End Report.

End Std.

Module SpotPreference.
Import Std.

(** ** Plate areas *)

Inductive area := A | B | C | D.

#[global] Instance area_eq_dec : EqDecision area.
Proof. solve_decision. Defined.

Definition area_name (a : area) : string :=
  match a with A => "A" | B => "B" | C => "C" | D => "D" end.

(** From plate area to spot numbers (the same dictionary literal in
    [set_plate_area_totals_observed] and [set_plate_area_totals_expected]). *)
Definition area2spots : list (area * list Z) :=
  [ (A, [1;5;21;25]);
    (B, [2;3;4;6;10;11;15;16;20;22;23;24]);
    (C, [7;8;9;12;14;17;18;19]);
    (D, [13]) ].

(** [area_totals = {'A': 0, 'B': 0, 'C': 0, 'D': 0}]: the four keys are
    fixed, so the dictionary is a record. *)
Record area_totals := { total_A : Z; total_B : Z; total_C : Z; total_D : Z }.

Definition area_totals_zero : area_totals :=
  {| total_A := 0; total_B := 0; total_C := 0; total_D := 0 |}.

Definition total (a : area) (t : area_totals) : Z :=
  match a with
  | A => total_A t | B => total_B t | C => total_C t | D => total_D t
  end.

(** [area_totals[area] += 1] *)
Definition incr (a : area) (t : area_totals) : area_totals :=
  match a with
  | A => {| total_A := total_A t + 1; total_B := total_B t;
            total_C := total_C t; total_D := total_D t |}
  | B => {| total_A := total_A t; total_B := total_B t + 1;
            total_C := total_C t; total_D := total_D t |}
  | C => {| total_A := total_A t; total_B := total_B t;
            total_C := total_C t + 1; total_D := total_D t |}
  | D => {| total_A := total_A t; total_B := total_B t;
            total_C := total_C t; total_D := total_D t + 1 |}
  end.

(** ** The local database *)

(** A row of [plate_area_totals_observed] or [plate_area_totals_expected]. *)
Record row := { pla_id : Z; area_a : Z; area_b : Z; area_c : Z; area_d : Z }.

Definition column (a : area) (r : row) : Z :=
  match a with
  | A => area_a r | B => area_b r | C => area_c r | D => area_d r
  end.

(** A record of [species_spots_1]: the plate ID and the presence values
    [rec_sur1] .. [rec_sur25]. *)
Definition record : Type := Z * list Z.

Record database := {
  species_spots_1 : list record;
  plate_area_totals_observed : list row;
  plate_area_totals_expected : list row
}.

(** Python's [sum] of integers. *)
Definition sumZ (l : list Z) : Z := foldr Z.add 0 l.

(** Modelled from the spec: [get_area_totals(table, area_group)] of
    [setlyze.database], which is not among the sources.  "Pull per-plate
    positive-cell counts for that region-group from Observed and from
    Expected (as flat numeric sequences, one value per plate)": one value
    per row, the sum of the row's totals over the areas of the group. *)
Definition get_area_totals (table : list row) (area_group : list area)
  : list Z :=
  (λ r, sumZ ((λ a, column a r) <$> filter (λ a, a ∈ area_group) [A; B; C; D]))
    <$> table.

(** ** Statistics *)

(** Modelled from the spec: [setlyze.std.mean], not in the [std.py] at hand
    (which has [average]).  "Compute arithmetic means of both sequences":
    the exact mean, as a rational. *)
Definition mean (l : list Z) : result Q :=
  match l with
  | [] => Raise ZeroDivisionError
  | _ => Ok (Qmake (sumZ l) (Z.to_pos (Z.of_nat (length l))))
  end.

(** [x > y] on the means. *)
Definition Qgtb (x y : Q) : bool := negb (Qle_bool x y).

(** IEEE 754 binary64, the floats of Python. *)
Definition float_lt (x y : spec_float) : bool := SFltb x y.
Definition float_add := SFadd prec emax.
Definition float_sub := SFsub prec emax.
Definition float_div := SFdiv prec emax.
Definition is_nan (x : spec_float) : bool :=
  match x with S754_nan => true | _ => false end.

(** [p_value != 'nan']: a float compared with a string.  Python 2 never
    finds values of these two types equal, whatever the float. *)
Definition float_ne_str (x : spec_float) (s : string) : bool := true.

Record wilcox_result := {
  w_method : string;
  w_alternative : string;
  w_p_value : spec_float
}.

Record chisq_result := {
  c_method : string;
  c_statistic : spec_float;
  c_p_value : spec_float;
  c_df : spec_float;
  c_expected : list spec_float
}.

Record wilcoxon_data := {
  wd_plate_area : string;
  wd_n : Z;
  wd_n_sp_observed : Z;
  wd_n_sp_expected : Z;
  wd_method : string;
  wd_alternative : string;
  wd_conf_level : spec_float;
  wd_paired : bool;
  wd_p_value : spec_float;
  wd_mean_observed : Q;
  wd_mean_expected : Q
}.

Record chisq_data := {
  cd_method : string;
  cd_chi_squared : spec_float;
  cd_p_value : spec_float;
  cd_df : spec_float
}.

(** An entry of [statistics['repeats']]. *)
Record tally := { n_significant : Z; n_preference : Z; n_rejection : Z }.

Definition tally_zero : tally :=
  {| n_significant := 0; n_preference := 0; n_rejection := 0 |}.

(** ** The configuration ([setlyze.config.cfg]) *)

Record config := {
  alpha_level : spec_float;
  test_repeats : Z;
  plate_areas_definition : gmap string (list area);
  (* 'locations-selection' of a slot: the identifiers of the selected
     locations, none where the selection is not set *)
  locations_selection : Z → list Z;
  (* the table [localities] of the database file that 'db-file' names:
     rows of [loc_id], [loc_name], [loc_nr] *)
  localities : list (Z * string * Z)
}.

(** ** What the analysis does to the outside *)

Inductive event :=
| set_total_steps (total_steps : Z)
| increase (action : string)                  (* progress dialog *)
| call_wilcox_test (x y : list Z)             (* R's wilcox.test *)
| call_chisq_test (x : list Z) (p : list spec_float)   (* R's chisq.test *)
| idle_add_emit (signal : string).            (* signal for the main loop *)

Definition is_test (e : event) : bool :=
  match e with
  | call_wilcox_test _ _ | call_chisq_test _ _ => true
  | _ => false
  end.

(** ** class [Start] *)

Record Start := {
  db : database;
  random_state : rng;
  chisq_observed : option (gmap string Z);
  chisq_expected : option (gmap string spec_float);
  statistics_wilcoxon : list wilcoxon_data;
  statistics_chi_squared : list chisq_data;
  statistics_repeats : gmap string tally;
  analysis_report : option Document;
  trace : list event
}.

Definition with_db (f : database → database) (self : Start) : Start :=
  {| db := f (db self); random_state := random_state self;
     chisq_observed := chisq_observed self;
     chisq_expected := chisq_expected self;
     statistics_wilcoxon := statistics_wilcoxon self;
     statistics_chi_squared := statistics_chi_squared self;
     statistics_repeats := statistics_repeats self;
     analysis_report := analysis_report self; trace := trace self |}.

Definition with_random_state (g : rng) (self : Start) : Start :=
  {| db := db self; random_state := g;
     chisq_observed := chisq_observed self;
     chisq_expected := chisq_expected self;
     statistics_wilcoxon := statistics_wilcoxon self;
     statistics_chi_squared := statistics_chi_squared self;
     statistics_repeats := statistics_repeats self;
     analysis_report := analysis_report self; trace := trace self |}.

Definition with_chisq_observed (m : gmap string Z) (self : Start) : Start :=
  {| db := db self; random_state := random_state self;
     chisq_observed := Some m;
     chisq_expected := chisq_expected self;
     statistics_wilcoxon := statistics_wilcoxon self;
     statistics_chi_squared := statistics_chi_squared self;
     statistics_repeats := statistics_repeats self;
     analysis_report := analysis_report self; trace := trace self |}.

Definition with_chisq (m : gmap string spec_float) (data : chisq_data)
    (self : Start) : Start :=
  {| db := db self; random_state := random_state self;
     chisq_observed := chisq_observed self;
     chisq_expected := Some m;
     statistics_wilcoxon := statistics_wilcoxon self;
     statistics_chi_squared := statistics_chi_squared self ++ [data];
     statistics_repeats := statistics_repeats self;
     analysis_report := analysis_report self; trace := trace self |}.

Definition with_wilcoxon (data : wilcoxon_data) (self : Start) : Start :=
  {| db := db self; random_state := random_state self;
     chisq_observed := chisq_observed self;
     chisq_expected := chisq_expected self;
     statistics_wilcoxon := statistics_wilcoxon self ++ [data];
     statistics_chi_squared := statistics_chi_squared self;
     statistics_repeats := statistics_repeats self;
     analysis_report := analysis_report self; trace := trace self |}.

Definition with_repeats (f : gmap string tally → gmap string tally)
    (self : Start) : Start :=
  {| db := db self; random_state := random_state self;
     chisq_observed := chisq_observed self;
     chisq_expected := chisq_expected self;
     statistics_wilcoxon := statistics_wilcoxon self;
     statistics_chi_squared := statistics_chi_squared self;
     statistics_repeats := f (statistics_repeats self);
     analysis_report := analysis_report self; trace := trace self |}.

Definition with_report (r : Document) (self : Start) : Start :=
  {| db := db self; random_state := random_state self;
     chisq_observed := chisq_observed self;
     chisq_expected := chisq_expected self;
     statistics_wilcoxon := statistics_wilcoxon self;
     statistics_chi_squared := statistics_chi_squared self;
     statistics_repeats := statistics_repeats self;
     analysis_report := Some r; trace := trace self |}.

Definition log (e : event) (self : Start) : Start :=
  {| db := db self; random_state := random_state self;
     chisq_observed := chisq_observed self;
     chisq_expected := chisq_expected self;
     statistics_wilcoxon := statistics_wilcoxon self;
     statistics_chi_squared := statistics_chi_squared self;
     statistics_repeats := statistics_repeats self;
     analysis_report := analysis_report self; trace := trace self ++ [e] |}.

(** [Start.__init__] on a database and a state of the random generator. *)
Definition Start_init (d : database) (g : rng) : Start :=
  {| db := d; random_state := g;
     chisq_observed := None; chisq_expected := None;
     statistics_wilcoxon := []; statistics_chi_squared := [];
     statistics_repeats := ∅; analysis_report := None; trace := [] |}.

Section Methods.

(** [area2spots.iteritems()]: the items of the dictionary in its iteration
    order, which Python leaves unspecified.  The results below hold for
    every permutation of [area2spots]. *)
Variable iteritems : list (area * list Z).

Variable cfg : config.

(** R, through RPy: [setlyze.std.wilcox_test(x, y, alternative="two.sided",
    paired=False, conf_level=..., conf_int=False)] as a function of the two
    samples and the confidence level, and [setlyze.std.chisq_test(x, p=...)]. *)
Variable wilcox_test : list Z → list Z → spec_float → wilcox_result.
Variable chisq_test : list Z → list spec_float → chisq_result.

Variable float_str : spec_float → string.

(** The inner loop of both totals methods:
<<
    for area, area_spots in area2spots.iteritems():
        if spot in area_spots:
            area_totals[area] += 1
            break
>> *)
Fixpoint add_spot (items : list (area * list Z)) (spot : Z)
    (totals : area_totals) : area_totals :=
  match items with
  | [] => totals
  | (area, area_spots) :: rest =>
      if py_in spot area_spots then incr area totals
      else add_spot rest spot totals
  end.

(** The body of the loop over the records in
    [set_plate_area_totals_observed]. *)
Definition observed_row (rec : record) : row :=
  let area_totals :=
    foldl (λ totals '(spot, precence),
             if negb (truthy precence) then totals   (* continue *)
             else add_spot iteritems spot totals)
          area_totals_zero (enumerate 1 rec.2) in
  {| pla_id := rec.1;
     area_a := total A area_totals; area_b := total B area_totals;
     area_c := total C area_totals; area_d := total D area_totals |}.

Definition set_plate_area_totals_observed (self : Start) : Start :=
  with_db (λ d,
    (* DELETE FROM plate_area_totals_observed *)
    let table := [] in
    (* one INSERT for each record of species_spots_1 *)
    let table := foldl (λ table rec, table ++ [observed_row rec])
                       table (species_spots_1 d) in
    {| species_spots_1 := species_spots_1 d;
       plate_area_totals_observed := table;
       plate_area_totals_expected := plate_area_totals_expected d |}) self.

(** The body of the loop over the observed rows in
    [set_plate_area_totals_expected]. *)
Definition expected_row (fuel : nat) (r : row) (g : rng) : result (row * rng) :=
  let n_spots := area_a r + area_b r + area_c r + area_d r in
  '(random_spots, g) ← get_random_for_plate fuel n_spots g ;
  let area_totals :=
    foldl (λ totals spot, add_spot iteritems spot totals)
          area_totals_zero random_spots in
  Ok ({| pla_id := pla_id r;
         area_a := total A area_totals; area_b := total B area_totals;
         area_c := total C area_totals; area_d := total D area_totals |}, g).

Definition set_plate_area_totals_expected (fuel : nat) (self : Start)
  : result Start :=
  let d := db self in
  (* DELETE FROM plate_area_totals_expected *)
  let table := [] in
  '(table, g) ←
    for_each (λ '(table, g) r,
                '(r', g) ← expected_row fuel r g ;
                Ok (table ++ [r'], g))
             (plate_area_totals_observed d) (table, random_state self) ;
  Ok (with_random_state g
        (with_db (λ d, {| species_spots_1 := species_spots_1 d;
                          plate_area_totals_observed :=
                            plate_area_totals_observed d;
                          plate_area_totals_expected := table |}) self)).

(** The plate area groups of both Wilcoxon methods. *)
Definition area_groups : list (list area) :=
  [ [A]; [B]; [C]; [D]; [A; B]; [C; D]; [A; B; C]; [B; C; D] ].

(** ["+".join(area_group)] *)
Definition area_group_str (area_group : list area) : string :=
  String.concat "+" (area_name <$> area_group).

(** [1 - setlyze.config.cfg.get('alpha-level')] *)
Definition conf_level : spec_float :=
  float_sub (float_of_Z 1) (alpha_level cfg).

(** The body of the loop over the area groups in
    [calculate_significance_wilcoxon]. *)
Definition wilcoxon_group (self : Start) (area_group : list area)
  : result Start :=
  let observed := get_area_totals (plate_area_totals_observed (db self)) area_group in
  let expected := get_area_totals (plate_area_totals_expected (db self)) area_group in
  let count_observed := Z.of_nat (length observed) in
  let count_expected := Z.of_nat (length expected) in
  let species_encouters_observed := sumZ observed in
  let species_encouters_expected := sumZ expected in
  if (count_observed <? 2) || (count_expected <? 2) then Ok self   (* continue *)
  else
    mean_observed ← mean observed ;
    mean_expected ← mean expected ;
    let self := log (call_wilcox_test observed expected) self in
    let sig_result := wilcox_test observed expected conf_level in
    Ok (with_wilcoxon
          {| wd_plate_area := area_group_str area_group;
             wd_n := count_observed;
             wd_n_sp_observed := species_encouters_observed;
             wd_n_sp_expected := species_encouters_expected;
             wd_method := w_method sig_result;
             wd_alternative := w_alternative sig_result;
             wd_conf_level := conf_level;
             wd_paired := false;
             wd_p_value := w_p_value sig_result;
             wd_mean_observed := mean_observed;
             wd_mean_expected := mean_expected |} self).

Definition calculate_significance_wilcoxon (self : Start) : result Start :=
  for_each wilcoxon_group area_groups self.

(** [d[key][counter] += 1] on the repeats dictionary. *)
Definition incr_significant (t : tally) : tally :=
  {| n_significant := n_significant t + 1; n_preference := n_preference t;
     n_rejection := n_rejection t |}.
Definition incr_preference (t : tally) : tally :=
  {| n_significant := n_significant t; n_preference := n_preference t + 1;
     n_rejection := n_rejection t |}.
Definition incr_rejection (t : tally) : tally :=
  {| n_significant := n_significant t; n_preference := n_preference t;
     n_rejection := n_rejection t + 1 |}.

(** The body of the loop over the area groups in
    [calculate_significance_wilcoxon_repeats]. *)
Definition wilcoxon_repeats_group (self : Start) (area_group : list area)
  : result Start :=
  let area_group_str := area_group_str area_group in
  let self :=
    match statistics_repeats self !! area_group_str with
    | None => with_repeats (insert area_group_str tally_zero) self
    | Some _ => self
    end in
  let observed := get_area_totals (plate_area_totals_observed (db self)) area_group in
  let expected := get_area_totals (plate_area_totals_expected (db self)) area_group in
  let count_observed := Z.of_nat (length observed) in
  let count_expected := Z.of_nat (length expected) in
  if (count_observed <? 2) || (count_expected <? 2) then Ok self   (* continue *)
  else
    mean_observed ← mean observed ;
    mean_expected ← mean expected ;
    let self := log (call_wilcox_test observed expected) self in
    let sig_result := wilcox_test observed expected conf_level in
    let p_value := w_p_value sig_result in
    if float_lt p_value (alpha_level cfg) && float_ne_str p_value "nan" then
      let self := with_repeats (alter incr_significant area_group_str) self in
      if Qgtb mean_observed mean_expected then
        Ok (with_repeats (alter incr_preference area_group_str) self)
      else
        Ok (with_repeats (alter incr_rejection area_group_str) self)
    else Ok self.

Definition calculate_significance_wilcoxon_repeats (self : Start)
  : result Start :=
  for_each wilcoxon_repeats_group area_groups self.

(** [range(number)] *)
Definition range (number : Z) : list Z := seqZ 0 number.

Definition repeat_test (fuel : nat) (number : Z) (self : Start) : result Start :=
  for_each (λ self _,
              let self := log (increase EmptyString) self in
              self ← set_plate_area_totals_expected fuel self ;
              calculate_significance_wilcoxon_repeats self)
           (range number) self.

(** [areas_totals_observed[area_name] += total] *)
Definition add_total (area_name : string) (totals : gmap string Z) (total : Z)
  : result (gmap string Z) :=
  match totals !! area_name with
  | Some v => Ok (<[area_name := v + total]> totals)
  | None => Raise KeyError
  end.

Definition get_defined_areas_totals_observed (self : Start)
  : result (gmap string Z) :=
  let areas_definition := plate_areas_definition cfg in
  let areas_totals_observed : gmap string Z :=
    {[ "area1" := 0; "area2" := 0; "area3" := 0; "area4" := 0 ]} in
  areas_totals_observed ←
    for_each (λ totals '(area_name, area_group),
                let observed :=
                  get_area_totals (plate_area_totals_observed (db self))
                                  area_group in
                for_each (add_total area_name) observed totals)
             (map_to_list areas_definition) areas_totals_observed ;
  (* Remove unused areas from the variable. *)
  let delete_ :=
    foldl (λ delete_ area,
             if bool_decide (area ∈ dom areas_definition) then delete_
             else delete_ ++ [area])
          [] (map_to_list areas_totals_observed).*1 in
  Ok (foldl (λ totals area, delete area totals) areas_totals_observed delete_).

(** The spot names, and how many times they occur on a plate. *)
Definition probabilities (a : area) : spec_float :=
  match a with
  | A => float_div (float_of_Z 4) (float_of_Z 25)
  | B => float_div (float_of_Z 12) (float_of_Z 25)
  | C => float_div (float_of_Z 8) (float_of_Z 25)
  | D => float_div (float_of_Z 1) (float_of_Z 25)
  end.

(** [area_probabilities[area] += probabilities[spot_name]] *)
Definition add_probability (area : string)
    (area_probabilities : gmap string spec_float) (spot_name : SpotPreference.area)
  : result (gmap string spec_float) :=
  match area_probabilities !! area with
  | Some v => Ok (<[area := float_add v (probabilities spot_name)]> area_probabilities)
  | None => Raise KeyError
  end.

Definition get_area_probabilities : result (gmap string spec_float) :=
  let areas_definition := plate_areas_definition cfg in
  let zero := float_of_Z 0 in
  let area_probabilities : gmap string spec_float :=
    {[ "area1" := zero; "area2" := zero; "area3" := zero; "area4" := zero ]} in
  area_probabilities ←
    for_each (λ area_probabilities '(area, spot_names),
                for_each (add_probability area) spot_names area_probabilities)
             (map_to_list areas_definition) area_probabilities ;
  (* Remove unused areas. *)
  let delete_ :=
    foldl (λ delete_ area,
             if bool_decide (area ∈ dom areas_definition) then delete_
             else delete_ ++ [area])
          [] (map_to_list area_probabilities).*1 in
  Ok (foldl (λ m area, delete area m) area_probabilities delete_).

Definition calculate_significance_chisq (self : Start) : result Start :=
  probabilities ← get_area_probabilities ;
  match chisq_observed self with
  | None => Raise AttributeError   (* [None] has no [values] *)
  | Some observed =>
      let x := (map_to_list observed).*2 in
      let p := (map_to_list probabilities).*2 in
      let self := log (call_chisq_test x p) self in
      let sig_result := chisq_test x p in
      let data := {| cd_method := c_method sig_result;
                     cd_chi_squared := c_statistic sig_result;
                     cd_p_value := c_p_value sig_result;
                     cd_df := c_df sig_result |} in
      (* Save the expected values. *)
      expected ←
        for_each (λ expected '(i, area),
                    v ← getitem (c_expected sig_result) i ;
                    Ok (<[area := v]> expected))
                 (enumerate 0 (map_to_list observed).*1)
                 (∅ : gmap string spec_float) ;
      Ok (with_chisq expected data self)
  end.

(** [generate_report].  The class [ReportGenerator] of [std.py] has
    [set_specie_selections], [set_statistics_normality] and
    [set_statistics_significance], and no method of the names
    [set_species_selections], [set_statistics] and [set_statistics_repeats]
    that are called here.  The third call is the first of these: it raises
    an AttributeError, and the report, a local object, is dropped. *)
Definition generate_report (self : Start) : result Start :=
  let report := ReportGenerator_init in
  let report := set_analysis float_str "spot_preference" report in
  let report :=
    set_location_selections float_str (locations_selection cfg) (localities cfg)
      report in
  report ← no_attribute "set_species_selections" report ;
  let report :=
    set_plate_areas_definition float_str
      ((λ spots : list area, area_name <$> spots) <$> plate_areas_definition cfg)
      report in
  match chisq_observed self, chisq_expected self with
  | Some observed, Some expected =>
      let report := set_area_totals_observed float_str observed report in
      let report := set_area_totals_expected float_str expected report in
      report ← no_attribute "set_statistics" report ;
      report ← no_attribute "set_statistics" report ;
      report ← no_attribute "set_statistics_repeats" report ;
      Ok (with_report (get_report report) self)
  | _, _ => Raise AttributeError   (* [None] has no [iteritems] *)
  end.

(** [run].  The three calls on [self.db] that fill [species_spots_1]
    ([get_record_ids], [set_species_spots], [make_plates_unique]) are in
    [setlyze.database]; the state starts with the table they leave. *)
Definition run (fuel : nat) (self : Start) : result Start :=
  let n_repeats := test_repeats cfg in
  let total_steps := 7 + n_repeats in
  let self := log (set_total_steps total_steps) self in
  let self := log (increase "Creating table with species spots...") self in
  let self := log (increase "Making plate IDs in species spots table unique...") self in
  let self := log (increase "Calculating the observed plate area totals for each plate...") self in
  let self := set_plate_area_totals_observed self in
  observed ← get_defined_areas_totals_observed self ;
  let self := with_chisq_observed observed self in
  let areas_total :=
    foldl (λ areas_total area_total, areas_total + area_total)
          0 (map_to_list observed).*2 in
  if areas_total =? 0 then
    Ok (log (idle_add_emit "analysis-aborted") self)     (* return *)
  else
    let self :=
      log (increase ("Performing Wilcoxon tests with "
                     +:+ str_int n_repeats +:+ " repeats...")) self in
    self ← repeat_test fuel n_repeats self ;
    let self := log (increase "Performing statistical tests...") self in
    self ← calculate_significance_wilcoxon self ;
    self ← calculate_significance_chisq self ;
    let self := log (increase "Generating the analysis report...") self in
    self ← generate_report self ;
    let self := log (increase EmptyString) self in
    Ok (log (idle_add_emit "analysis-finished") self).

End Methods.

End SpotPreference.

(** * More of [setlyze/std.py] *)

Module StdMore.
Import Std SpotPreference.

(** [{}.fromkeys(seq)]: a dictionary with the items of [seq] as keys. *)
Definition fromkeys (seq : list Z) : gmap Z unit :=
  foldl (λ d key, <[key := tt]> d) ∅ seq.

(** [uniqify(seq)]: the keys of that dictionary, in its iteration order. *)
Definition uniqify (seq : list Z) : list Z := (map_to_list (fromkeys seq)).*1.

(** [median(values)] for integers.  An odd number of values gives the
    middle one, an even number the float [float(lower + upper) / 2], where
    [float] fails on a sum that is beyond the floats. *)
Definition median (values : list Z) : result pyval :=
  let values := merge_sort Z.le values in
  let count := Z.of_nat (length values) in
  if count `mod` 2 =? 1 then
    x ← getitem values ((count + 1) / 2 - 1) ;
    Ok (PyInt x)
  else
    lower ← getitem values (count / 2 - 1) ;
    upper ← getitem values (count / 2) ;
    sum ← float_of_int (lower + upper) ;
    Ok (PyFloat (float_div sum (float_of_Z 2))).

(** [itertools.combinations(l, 2)] *)
Fixpoint combinations2 (l : list Z) : list (Z * Z) :=
  match l with
  | [] => []
  | x :: rest => ((λ y, (x, y)) <$> rest) ++ combinations2 rest
  end.

(** [itertools.product(l1, l2)] *)
Definition product (l1 l2 : list Z) : list (Z * Z) :=
  x ← l1 ; (λ y, (x, y)) <$> l2.

(** [get_spot_combinations_from_record(record1, record2=None)]; the
    generator is the list of what it yields.  [not record2] holds for [None]
    and for an empty sequence. *)
Definition get_spot_combinations_from_record (record1 : list Z)
    (record2 : option (list Z)) : list (Z * Z) :=
  let spots1 := get_spots_from_record record1 in
  match record2 with
  | None | Some [] => combinations2 spots1
  | Some record2 =>
      let spots2 := get_spots_from_record record2 in
      product spots1 spots2
  end.

(** [combine_records(records)]: each record is a sequence with the plate
    ID first; [None] is the plate ID of the combination of no record. *)
Definition combine_records (records : list (list Z))
  : result (list (option Z)) :=
  let combined : list (option Z) := None :: replicate 25 (Some 0) in
  combined ←
    match records with
    | [] => Ok combined                            (* len(records) == 0 *)
    | _ =>
        record ← getitem records 0 ;
        pla_id ← getitem record 0 ;
        setitem combined 0 (Some pla_id)
    end ;
  for_each (λ combined record,
              c0 ← getitem combined 0 ;
              r0 ← getitem record 0 ;
              if bool_decide (c0 ≠ Some r0) then Raise ValueError
              else
                for_each (λ combined '(i, spot),
                            if truthy spot then setitem combined i (Some 1)
                            else Ok combined)
                         (enumerate 1 (drop 1 record)) combined)
           records combined.

End StdMore.

(** More methods of the class [ReportReader]. *)

Module Reader.
Import Std.

(** [ReportReader.get_report_elements] *)
Definition get_report_elements (d : Document) : result (list string) :=
  top ← getitem (doc_childNodes d) 0 ;
  nd ← node_at d top ;
  for_each (λ report_elements e,
              nd ← node_at d e ;
              match nd with
              | Element localName _ _ => Ok (report_elements ++ [localName])
              | Text _ => Ok report_elements
              end)
           (childNodes_of nd) [].

(** [ReportReader.get_analysis_name] *)
Definition get_analysis_name (d : Document) : result (option string) :=
  top ← getitem (doc_childNodes d) 0 ;
  nd ← node_at d top ;
  for_each (λ analysis_name e,
              match analysis_name with
              | Some _ => Ok analysis_name       (* after the [break] *)
              | None =>
                  nd ← node_at d e ;
                  if is_element nd "analysis" then
                    v ← first_child_text d nd ;
                    Ok (Some v)
                  else Ok None
              end)
           (childNodes_of nd) None.

(** [ReportReader.get_plate_areas_definition]; [None] is the bare
    [return]. *)
Definition get_plate_areas_definition (d : Document)
  : result (option (gmap string (list string))) :=
  areas_definition ← get_element d "plate_areas_definition" ;
  match areas_definition with
  | None => Ok None
  | Some areas_definition =>
      nd ← node_at d areas_definition ;
      definition ← for_each (λ definition e,
          nd ← node_at d e ;
          if is_element nd "area" then
            let area_id := getAttribute nd "id" in
            let definition :=
              match definition !! area_id with
              | None => <[area_id := []]> definition
              | Some _ => definition
              end in
            for_each (λ definition e2,
                        nd2 ← node_at d e2 ;
                        v ← first_child_text d nd2 ;
                        match definition !! area_id with
                        | Some spots => Ok (<[area_id := spots ++ [v]]> definition)
                        | None => Raise KeyError
                        end)
                     (childNodes_of nd) definition
          else Ok definition)
        (childNodes_of nd) (∅ : gmap string (list string)) ;
      Ok (Some definition)
  end.

End Reader.

(** * Properties of the embedding *)

Lemma result_bind_Ok {A B} (c : result A) (k : A → result B) a :
  c = Ok a → (c ≫= k) = k a.
Proof. by intros ->. Qed.

Lemma for_each_ext {A S} (f g : S → A → result S) (l : list A) (acc : S) :
  (∀ s a, f s a = g s a) → for_each f l acc = for_each g l acc.
Proof.
  intros Hfg. revert acc. induction l as [|a l IH]; intros acc; [done|].
  cbn [for_each]. rewrite Hfg. destruct (g acc a); [apply IH|done].
Qed.

Module StdFacts.
Import Std.

Lemma get_spot_coordinate_row_major (n : Z) :
  1 ≤ n ≤ 25 →
  get_spot_coordinate n = Ok ((n - 1) / 5 + 1, (n - 1) `mod` 5 + 1).
Proof.
  intros Hn. Z_cases n 1 25%nat; reflexivity.
Qed.

Lemma get_spot_coordinate_total (n : Z) :
  (1 ≤ n ≤ 25 ∧ ∃ rc, get_spot_coordinate n = Ok rc)
  ∨ (¬ 1 ≤ n ≤ 25 ∧ get_spot_coordinate n = Raise ValueError).
Proof.
  destruct (decide (1 ≤ n ≤ 25)) as [Hn|Hn].
  - left. split; [done|]. rewrite get_spot_coordinate_row_major; eauto.
  - right. split; [done|]. unfold get_spot_coordinate.
    destruct (1 <=? n) eqn:H1, (n <=? 25) eqn:H2; simpl; try done.
    apply Z.leb_le in H1, H2. lia.
Qed.

(** C8: the spot coordinate is the 1-indexed row-major position on the 5x5
    plate (spot 1 is at (1,1), spot 14 at (3,4)); the position difference of
    two spots is the pair (horizontal, vertical) of the absolute differences
    of their columns and rows, (4,4) for spots 1 and 25.  Both are functions
    of their arguments only. *)
Theorem C8_spot_coordinate_and_difference :
  (∀ n, 1 ≤ n ≤ 25 →
     get_spot_coordinate n = Ok ((n - 1) / 5 + 1, (n - 1) `mod` 5 + 1))
  ∧ get_spot_coordinate 1 = Ok (1, 1)
  ∧ get_spot_coordinate 14 = Ok (3, 4)
  ∧ (∀ s1 s2, 1 ≤ s1 ≤ 25 → 1 ≤ s2 ≤ 25 →
       get_spot_position_difference s1 s2
       = Ok (Z.abs (((s1 - 1) `mod` 5 + 1) - ((s2 - 1) `mod` 5 + 1)),
             Z.abs (((s1 - 1) / 5 + 1) - ((s2 - 1) / 5 + 1))))
  ∧ get_spot_position_difference 1 25 = Ok (4, 4).
Proof.
  split; [apply get_spot_coordinate_row_major|].
  repeat split; try reflexivity.
  intros s1 s2 H1 H2. unfold get_spot_position_difference.
  rewrite !get_spot_coordinate_row_major by done. reflexivity.
Qed.

Lemma C8_witness :
  get_spot_coordinate 24 = Ok (5, 4)
  ∧ get_spot_position_difference 9 25 = Ok (1, 3).
Proof.
  destruct C8_spot_coordinate_and_difference as (Hc & _ & _ & Hd & _).
  split.
  - apply (Hc 24). lia.
  - apply (Hd 9 25); lia.
Defined.

End StdFacts.

Module SpotFacts.
Import Std SpotPreference.

(** The spots of a plate area, read from [area2spots]. *)
Definition spots_in (a : area) : list Z :=
  default [] (snd <$> find (λ p, bool_decide (p.1 = a)) area2spots).

(** The plate area of a spot, if it has one. *)
Definition area_of_spot (spot : Z) : option area :=
  fst <$> find (λ p, py_in spot p.2) area2spots.

Lemma spots_in_area2spots a : (a, spots_in a) ∈ area2spots.
Proof.
  destruct a; unfold spots_in, area2spots; simpl;
    rewrite !elem_of_cons; auto 6.
Qed.

Lemma area2spots_spots_in a l : (a, l) ∈ area2spots → l = spots_in a.
Proof.
  unfold area2spots. rewrite !elem_of_cons, elem_of_nil.
  intros [[= -> ->]|[[= -> ->]|[[= -> ->]|[[= -> ->]|[]]]]]; reflexivity.
Qed.

Lemma area_of_spot_range spot :
  1 ≤ spot ≤ 25 → ∃ a, area_of_spot spot = Some a.
Proof. intros H. Z_cases spot 1 25%nat; vm_compute; eauto. Qed.

Lemma area_of_spot_spec spot a :
  area_of_spot spot = Some a ↔ spot ∈ spots_in a.
Proof.
  split.
  - unfold area_of_spot. intros H.
    destruct (find _ area2spots) as [[b l]|] eqn:Hf; [|done].
    simpl in H. injection H as ->.
    apply find_some in Hf as [Hin Hb]. simpl in Hb.
    apply list_elem_of_In, area2spots_spots_in in Hin. subst l.
    unfold py_in in Hb. by apply bool_decide_eq_true in Hb.
  - destruct a; unfold spots_in; simpl; rewrite ?elem_of_cons, elem_of_nil;
      intros H; repeat (destruct H as [->|H]; [reflexivity|]); done.
Qed.

Lemma area_of_spot_Some_range spot a :
  area_of_spot spot = Some a → 1 ≤ spot ≤ 25.
Proof.
  rewrite area_of_spot_spec.
  destruct a; unfold spots_in; simpl; rewrite ?elem_of_cons, elem_of_nil;
    intros H; repeat (destruct H as [->|H]; [lia|]); done.
Qed.

Lemma add_spot_first items spot t a l :
  (a, l) ∈ items → spot ∈ l →
  (∀ b l', (b, l') ∈ items → spot ∈ l' → b = a) →
  add_spot items spot t = incr a t.
Proof.
  induction items as [|[b l'] items IH]; intros Hin Hs Huniq.
  - by apply elem_of_nil in Hin.
  - simpl. unfold py_in. case_bool_decide as Hb.
    + assert (b = a) as -> by (apply (Huniq b l'); [apply list_elem_of_here|done]). done.
    + apply IH; [|done|].
      * apply elem_of_cons in Hin as [[= -> ->]|]; done.
      * intros b' l'' ??. apply (Huniq b' l''); [by apply list_elem_of_further|done].
Qed.

Lemma add_spot_none items spot t :
  (∀ b l', (b, l') ∈ items → spot ∉ l') → add_spot items spot t = t.
Proof.
  induction items as [|[b l'] items IH]; intros Hno; [done|].
  simpl. unfold py_in. case_bool_decide as Hb.
  - exfalso. apply (Hno b l'); [apply list_elem_of_here|done].
  - apply IH. intros b' l'' ?. apply (Hno b' l''). by apply list_elem_of_further.
Qed.

(** First-match bucketing does not depend on the iteration order. *)
Lemma add_spot_perm items spot t :
  items ≡ₚ area2spots →
  add_spot items spot t
  = match area_of_spot spot with Some a => incr a t | None => t end.
Proof.
  intros Hp. destruct (area_of_spot spot) as [a|] eqn:Ha.
  - apply add_spot_first with (l := spots_in a).
    + rewrite Hp. apply spots_in_area2spots.
    + by apply area_of_spot_spec.
    + intros b l' Hin Hs. rewrite Hp in Hin.
      apply area2spots_spots_in in Hin. subst l'.
      apply area_of_spot_spec in Hs. congruence.
  - apply add_spot_none. intros b l' Hin Hs. rewrite Hp in Hin.
    apply area2spots_spots_in in Hin. subst l'.
    apply area_of_spot_spec in Hs. congruence.
Qed.


(** Number of the spots of a list that lie in a plate area. *)
Definition count_in (a : area) (spots : list Z) : Z :=
  Z.of_nat (length (filter (λ s, s ∈ spots_in a) spots)).

Lemma total_incr a b t :
  total a (incr b t) = total a t + (if decide (a = b) then 1 else 0).
Proof. destruct a, b; simpl; lia. Qed.

Lemma add_spots_total items spots t a :
  items ≡ₚ area2spots →
  total a (foldl (λ totals spot, add_spot items spot totals) t spots)
  = total a t + count_in a spots.
Proof.
  intros Hp. unfold count_in. revert t.
  induction spots as [|s spots IH]; intros t; simpl; [lia|].
  rewrite IH, (add_spot_perm _ _ _ Hp), filter_cons.
  destruct (area_of_spot s) as [b|] eqn:Hb.
  - rewrite total_incr. destruct (decide (a = b)) as [->|Hne].
    + rewrite decide_True by by apply area_of_spot_spec. simpl. lia.
    + rewrite decide_False; [lia|].
      intros Hin%area_of_spot_spec. congruence.
  - rewrite decide_False; [lia|].
    intros Hin%area_of_spot_spec. congruence.
Qed.

Lemma count_in_sum spots :
  Forall (λ s, 1 ≤ s ≤ 25) spots →
  count_in A spots + count_in B spots + count_in C spots + count_in D spots
  = Z.of_nat (length spots).
Proof.
  unfold count_in. induction 1 as [|s spots Hs _ IH]; [done|].
  rewrite !filter_cons.
  destruct (area_of_spot_range s Hs) as [a Ha].
  assert (∀ b, s ∈ spots_in b ↔ b = a) as Hiff.
  { intros b. rewrite <-area_of_spot_spec. split; [congruence|by intros ->]. }
  destruct a;
    repeat match goal with
    | |- context [decide (s ∈ spots_in ?b)] =>
        first [ rewrite (decide_True (P := s ∈ spots_in b)) by by apply Hiff
              | rewrite (decide_False (P := s ∈ spots_in b))
                  by by rewrite Hiff ]
    end; simpl length; lia.
Qed.

Lemma count_in_le a spots : 0 ≤ count_in a spots ≤ Z.of_nat (length spots).
Proof.
  unfold count_in. pose proof (length_filter (λ s, s ∈ spots_in a) spots). lia.
Qed.

(** The positive spots of a record, numbered from [k]. *)
Definition positive_spots (k : Z) (flags : list Z) : list Z :=
  (filter (λ p, truthy p.2 = true) (enumerate k flags)).*1.

Lemma positive_spots_cons k x flags :
  positive_spots k (x :: flags)
  = if truthy x then k :: positive_spots (k + 1) flags
    else positive_spots (k + 1) flags.
Proof.
  unfold positive_spots. simpl. rewrite filter_cons. simpl.
  destruct (truthy x); reflexivity.
Qed.

Lemma get_spots_from_record_positive flags :
  get_spots_from_record flags = positive_spots 1 flags.
Proof.
  unfold get_spots_from_record.
  enough (∀ k acc,
    foldl (λ spots '(i, spot), if truthy spot then spots ++ [i] else spots)
          acc (enumerate k flags) = acc ++ positive_spots k flags) as H
    by apply (H 1 []).
  induction flags as [|x flags IH]; intros k acc.
  - simpl. by rewrite app_nil_r.
  - rewrite positive_spots_cons. simpl. rewrite IH.
    destruct (truthy x); [by rewrite <-app_assoc|done].
Qed.

Lemma positive_spots_range k flags :
  Forall (λ s, k ≤ s < k + Z.of_nat (length flags)) (positive_spots k flags).
Proof.
  revert k. induction flags as [|x flags IH]; intros k.
  - constructor.
  - rewrite positive_spots_cons.
    assert (Forall (λ s, k ≤ s < k + Z.of_nat (length (x :: flags)))
                   (positive_spots (k + 1) flags)) as Hrest.
    { eapply Forall_impl; [apply IH|]. simpl. intros s ?.
      rewrite Nat2Z.inj_succ. lia. }
    destruct (truthy x); [|done]. constructor; [|done].
    simpl. rewrite Nat2Z.inj_succ. lia.
Qed.

Section Observed.

Variable items : list (area * list Z).
Hypothesis items_perm : items ≡ₚ area2spots.

Lemma observed_fold flags k t :
  foldl (λ totals '(spot, precence),
           if negb (truthy precence) then totals
           else add_spot items spot totals) t (enumerate k flags)
  = foldl (λ totals spot, add_spot items spot totals) t (positive_spots k flags).
Proof.
  revert k t. induction flags as [|x flags IH]; intros k t; [done|].
  rewrite positive_spots_cons. simpl. rewrite IH. by destruct (truthy x).
Qed.

Lemma observed_row_column rec a :
  column a (observed_row items rec) = count_in a (get_spots_from_record rec.2).
Proof.
  rewrite get_spots_from_record_positive.
  unfold observed_row. rewrite observed_fold.
  pose proof (add_spots_total items (positive_spots 1 rec.2)
                area_totals_zero a items_perm) as H.
  replace (total a area_totals_zero) with 0 in H by by destruct a.
  rewrite Z.add_0_l in H. rewrite <-H. by destruct a.
Qed.

Lemma observed_table self :
  plate_area_totals_observed (db (set_plate_area_totals_observed items self))
  = observed_row items <$> species_spots_1 (db self).
Proof.
  unfold set_plate_area_totals_observed. simpl.
  enough (∀ l acc,
    foldl (λ table rec, table ++ [observed_row items rec]) acc l
    = acc ++ (observed_row items <$> l)) as H by apply (H _ []).
  induction l as [|x l IH]; intros acc; simpl.
  - by rewrite app_nil_r.
  - by rewrite IH, <-app_assoc.
Qed.

End Observed.

(** C1: every record of the species spots table (a plate ID and 25
    presence values) gets one row of the observed totals table, with the
    plate ID of the record; each of its four area totals is the number of
    positive spots of the record that lie in that area, and the four totals
    add up to the number of positive spots of the record. *)
Theorem C1_observed_totals (items : list (area * list Z)) (self : Start) :
  items ≡ₚ area2spots →
  Forall (λ rec : record, length rec.2 = 25%nat) (species_spots_1 (db self)) →
  Forall2 (λ (rec : record) (r : row),
             pla_id r = rec.1
             ∧ (∀ a, column a r = count_in a (get_spots_from_record rec.2))
             ∧ area_a r + area_b r + area_c r + area_d r
               = Z.of_nat (length (get_spots_from_record rec.2)))
          (species_spots_1 (db self))
          (plate_area_totals_observed
             (db (set_plate_area_totals_observed items self))).
Proof.
  intros Hp Hlen. rewrite observed_table.
  apply Forall2_fmap_r, Forall_Forall2_diag.
  eapply Forall_impl; [apply Hlen|]. intros rec Hrec. simpl in Hrec.
  split; [done|]. split; [intros a; by apply observed_row_column|].
  pose proof (observed_row_column items Hp rec) as Hc.
  rewrite <-(count_in_sum (get_spots_from_record rec.2)).
  - by rewrite <-(Hc A), <-(Hc B), <-(Hc C), <-(Hc D).
  - rewrite get_spots_from_record_positive.
    eapply Forall_impl; [apply positive_spots_range|].
    simpl. intros s. rewrite Hrec. lia.
Qed.


(** C4: the four spot sets of [area2spots] are pairwise disjoint and cover
    exactly the spots 1..25 (put together they are a rearrangement of
    1, ..., 25); they have 4, 12, 8 and 1 spots; so every spot of 1..25 lies
    in exactly one plate area, and the first-match loop adds it to that
    area whatever the order in which the dictionary is iterated. *)
Theorem C4_area2spots_partition :
  concat area2spots.*2 ≡ₚ seqZ 1 25
  ∧ area2spots.*1 = [A; B; C; D]
  ∧ length <$> area2spots.*2 = [4; 12; 8; 1]%nat
  ∧ ∀ spot, 1 ≤ spot ≤ 25 →
      ∃ a, spot ∈ spots_in a
           ∧ (∀ b, spot ∈ spots_in b → b = a)
           ∧ ∀ items t, items ≡ₚ area2spots →
                        add_spot items spot t = incr a t.
Proof.
  split; [|split; [reflexivity|split; [reflexivity|]]].
  - rewrite <-(merge_sort_Permutation Z.le (concat area2spots.*2)).
    by vm_compute.
  - intros spot Hs. destruct (area_of_spot_range spot Hs) as [a Ha].
    exists a. split; [by apply area_of_spot_spec|]. split.
    + intros b Hb%area_of_spot_spec. congruence.
    + intros items t Hp. by rewrite add_spot_perm, Ha.
Qed.

Lemma C4_witness :
  ∃ a, 13 ∈ spots_in a
       ∧ (∀ b, 13 ∈ spots_in b → b = a)
       ∧ ∀ items t, items ≡ₚ area2spots → add_spot items 13 t = incr a t.
Proof.
  destruct C4_area2spots_partition as (_ & _ & _ & H).
  apply (H 13). lia.
Defined.

Lemma C1_witness :
  let rec : record := (1, [1;1;0;0;1;0;0;0;0;0;0;0;0;0;0;0;0;0;0;0;0;0;0;0;0]) in
  let self := Start_init {| species_spots_1 := [rec];
                            plate_area_totals_observed := [];
                            plate_area_totals_expected := [] |}
                         {| tape := λ _, 0; pos := 0 |} in
  Forall2 (λ (rec : record) (r : row),
             pla_id r = rec.1
             ∧ (∀ a, column a r = count_in a (get_spots_from_record rec.2))
             ∧ area_a r + area_b r + area_c r + area_d r
               = Z.of_nat (length (get_spots_from_record rec.2)))
          (species_spots_1 (db self))
          (plate_area_totals_observed
             (db (set_plate_area_totals_observed area2spots self))).
Proof.
  intros rec self. apply (C1_observed_totals area2spots self).
  - reflexivity.
  - repeat constructor.
Defined.

(** The example of the specification: a plate with the positive spots 1, 2
    and 5 gets the totals A = 2, B = 1, C = 0, D = 0. *)
Example observed_row_example :
  observed_row area2spots
    (7, [1;1;0;0;1;0;0;0;0;0;0;0;0;0;0;0;0;0;0;0;0;0;0;0;0])
  = {| pla_id := 7; area_a := 2; area_b := 1; area_c := 0; area_d := 0 |}.
Proof. reflexivity. Qed.

End SpotFacts.

Module FloatFacts.
Import Std.

(** ** The float product of the sampler

    [int(random() * n)] is an index of a population of [n] items: the
    product of [m / 2^53] and [n] is below [n] by at least [n / 2^53], which
    is more than half the distance between the floats next to [n], so that
    the product rounds to a float below [n].  The proof follows the
    rounding of [SpecFloat] step by step. *)

Lemma digits2_pos_bounds p :
  2 ^ (Z.pos (digits2_pos p) - 1) ≤ Z.pos p < 2 ^ Z.pos (digits2_pos p).
Proof.
  induction p as [p IH|p IH|]; cbn [digits2_pos].
  - rewrite Pos2Z.inj_succ.
    replace (Z.succ (Z.pos (digits2_pos p)) - 1) with (Z.succ (Z.pos (digits2_pos p) - 1)) by lia.
    rewrite !Z.pow_succ_r by lia. lia.
  - rewrite Pos2Z.inj_succ.
    replace (Z.succ (Z.pos (digits2_pos p)) - 1) with (Z.succ (Z.pos (digits2_pos p) - 1)) by lia.
    rewrite !Z.pow_succ_r by lia. lia.
  - cbn. lia.
Qed.

Lemma digits2_pos_unique p k :
  2 ^ (k - 1) ≤ Z.pos p < 2 ^ k → Z.pos (digits2_pos p) = k.
Proof.
  intros [Hlo Hhi]. pose proof (digits2_pos_bounds p) as [Dlo Dhi].
  assert (0 < k).
  { destruct (Z.lt_trichotomy k 0) as [H|[->|H]]; [|cbn in Hhi; lia|done].
    rewrite Z.pow_neg_r in Hhi by done. lia. }
  assert (k - 1 < Z.pos (digits2_pos p)).
  { apply (Z.pow_lt_mono_r_iff 2); lia. }
  assert (Z.pos (digits2_pos p) - 1 < k).
  { apply (Z.pow_lt_mono_r_iff 2); lia. }
  lia.
Qed.

Lemma iter_xO m d : Z.pos (Pos.iter xO m d) = Z.pos m * 2 ^ Z.pos d.
Proof.
  apply (Pos.iter_ind _ xO m (λ d r, Z.pos r = Z.pos m * 2 ^ Z.pos d)).
  - lia.
  - intros p a Ha. rewrite Pos2Z.inj_succ, Z.pow_succ_r by lia. lia.
Qed.

Lemma iter_pos_inv {A} (f : A → A) (I : Z → A → Prop) :
  (∀ k x, 0 ≤ k → I k x → I (k + 1) (f x)) →
  ∀ n k x, 0 ≤ k → I k x → I (k + Z.pos n) (SpecFloat.iter_pos f n x).
Proof.
  intros Hstep. induction n as [n IH|n IH|]; intros k x Hk Hx; cbn [SpecFloat.iter_pos].
  - replace (k + Z.pos n~1) with (k + 1 + Z.pos n + Z.pos n) by lia.
    apply IH; [lia|]. apply IH; [lia|]. by apply Hstep.
  - replace (k + Z.pos n~0) with (k + Z.pos n + Z.pos n) by lia.
    apply IH; [lia|]. by apply IH.
  - by apply Hstep.
Qed.

(** What [k] right shifts of the record that starts at [P] hold. *)
Definition shifted (P k : Z) (mrs : shr_record) : Prop :=
  shr_m mrs = P / 2 ^ k ∧ (shr_r mrs = true → 2 ^ k ≤ 2 * (P `mod` 2 ^ k)).

Lemma shr_1_shifted P k mrs :
  0 ≤ P → 0 ≤ k → shifted P k mrs → shifted P (k + 1) (shr_1 mrs).
Proof.
  intros HP Hk [Hm _]. destruct mrs as [m r s]. cbn [shr_m] in Hm.
  assert (0 < 2 ^ k) as Hpow by (apply Z.pow_pos_nonneg; lia).
  assert (0 ≤ m) as Hm0 by (subst m; apply Z.div_pos; lia).
  assert (P / 2 ^ (k + 1) = m / 2) as Hdiv.
  { rewrite Z.pow_add_r, Z.pow_1_r by lia. rewrite <- Z.div_div by lia. by rewrite Hm. }
  assert (P `mod` 2 ^ (k + 1) = P `mod` 2 ^ k + 2 ^ k * (m `mod` 2)) as Hmod.
  { rewrite Z.pow_add_r, Z.pow_1_r by lia. rewrite Z.rem_mul_r by lia. by rewrite Hm. }
  assert (2 ^ (k + 1) = 2 * 2 ^ k) as Hsucc.
  { rewrite Z.pow_add_r, Z.pow_1_r by lia. lia. }
  pose proof (Z.mod_pos_bound P (2 ^ k) Hpow) as Hr.
  unfold shifted. rewrite Hdiv, Hmod, Hsucc.
  destruct m as [|[p|p|]|p]; cbn [shr_1 orb shr_m shr_r]; try lia.
  - split; [by rewrite Z.div_0_l|done].
  - assert (Z.pos p~1 `div` 2 = Z.pos p) as -> by (Z.div_mod_to_equations; lia).
    assert (Z.pos p~1 `mod` 2 = 1) as -> by (Z.div_mod_to_equations; lia).
    split; [done|lia].
  - assert (Z.pos p~0 `div` 2 = Z.pos p) as -> by (Z.div_mod_to_equations; lia).
    done.
  - split; [done|intros _]. change (1 `mod` 2) with 1. lia.
Qed.

Lemma shr_shifted P n :
  0 ≤ P → shifted P (Z.pos n) (SpecFloat.iter_pos shr_1 n {| shr_m := P; shr_r := false; shr_s := false |}).
Proof.
  intros HP.
  apply (iter_pos_inv shr_1 (shifted P) (λ k x Hk, shr_1_shifted P k x HP Hk) n 0); [done|].
  split; [cbn; by rewrite Z.div_1_r|done].
Qed.

Lemma round_nearest_even_cases mrs :
  let q := round_nearest_even (shr_m mrs) (loc_of_shr_record mrs) in
  q = shr_m mrs ∨ (q = shr_m mrs + 1 ∧ shr_r mrs = true).
Proof.
  destruct mrs as [m [] []]; cbn; try (by left); try (by right).
  destruct (Z.even m); [by left|by right].
Qed.

Lemma fexp_normal d : -1021 ≤ d → fexp prec emax d = d - 53.
Proof. intros Hd. unfold fexp, emin, prec, emax. lia. Qed.

(** A mantissa of 53 digits with an exponent in range is kept as it is. *)
Lemma binary_round_aux_exact sx M e :
  2 ^ 52 ≤ Z.pos M < 2 ^ 53 → -1074 ≤ e ≤ 971 →
  binary_round_aux prec emax sx (Z.pos M) e loc_Exact = S754_finite sx M e.
Proof.
  intros HM He.
  assert (shr_fexp prec emax (Z.pos M) e loc_Exact
          = ({| shr_m := Z.pos M; shr_r := false; shr_s := false |}, e)) as Hshr.
  { unfold shr_fexp. cbn [Zdigits2 shr_record_of_loc].
    rewrite (digits2_pos_unique M 53) by done.
    rewrite fexp_normal by lia. by replace (53 + e - 53 - e) with 0 by lia. }
  unfold binary_round_aux. rewrite Hshr.
  cbn [shr_m loc_of_shr_record round_nearest_even]. rewrite Hshr. cbn [shr_m].
  unfold emax, prec.
  by replace (e <=? 1024 - 53) with true by (symmetry; apply Z.leb_le; lia).
Qed.

(** The float of an integer below [2^53] scaled by [2^e]: the integer
    shifted left until it has 53 digits. *)
Lemma binary_round_small sx p e :
  Z.pos p < 2 ^ 53 → -100 ≤ e ≤ 0 →
  ∃ M c, binary_round prec emax sx p e = S754_finite sx M (e - c)
         ∧ 0 ≤ c ≤ 52
         ∧ Z.pos M = Z.pos p * 2 ^ c
         ∧ 2 ^ 52 ≤ Z.pos M
         ∧ Z.pos M + 2 ^ c ≤ 2 ^ 53.
Proof.
  intros Hp He.
  pose proof (digits2_pos_bounds p) as [Dlo Dhi].
  set (d := Z.pos (digits2_pos p)) in *.
  assert (0 < d) as Hd0 by done.
  assert (d ≤ 53) as Hd.
  { assert (d - 1 < 53); [|lia]. apply (Z.pow_lt_mono_r_iff 2); lia. }
  assert (2 ^ 53 = 2 ^ d * 2 ^ (53 - d)) as Hsplit.
  { rewrite <- Z.pow_add_r by lia. f_equal. lia. }
  assert (2 ^ d = 2 * 2 ^ (d - 1)) as Hhalf.
  { rewrite <- Z.pow_succ_r by lia. f_equal. lia. }
  assert (0 < 2 ^ (53 - d)) as Hc by (apply Z.pow_pos_nonneg; lia).
  unfold binary_round, shl_align. fold d.
  rewrite fexp_normal by lia.
  destruct (decide (d = 53)) as [Hd53|Hd53].
  - replace (d + e - 53 - e) with 0 by lia.
    exists p, 0. rewrite Z.sub_0_r, Z.mul_1_r.
    rewrite Hd53 in *. split; [apply binary_round_aux_exact; lia|].
    change (2 ^ (53 - 53)) with 1 in *. change (2 ^ 0) with 1. lia.
  - destruct (d + e - 53 - e) as [|k|k] eqn:Hk; [lia|lia|].
    assert (Z.pos k = 53 - d) as Hk' by lia.
    exists (Pos.iter xO p k), (53 - d).
    assert (Z.pos p + 1 ≤ 2 ^ d) by lia.
    assert (2 ^ 52 ≤ Z.pos p * 2 ^ (53 - d) ∧ Z.pos p * 2 ^ (53 - d) + 2 ^ (53 - d) ≤ 2 ^ 53)
      as [Hlo Hhi].
    { change (2 ^ 53) with (2 * 2 ^ 52) in Hsplit. nia. }
    pose proof (iter_xO p k) as Hiter. rewrite Hk' in Hiter.
    split; [|rewrite Hiter; repeat split; lia].
    replace (e - (53 - d)) with (d + e - 53) by lia.
    apply binary_round_aux_exact; [|lia].
    rewrite Hiter. lia.
Qed.

(** Rounding a mantissa of 105 or 106 digits to 53: the mantissa loses its
    [s] low digits, and goes up by one only if the first digit lost is set. *)
Lemma binary_round_aux_shift P E (s : positive) :
  s = 52%positive ∨ s = 53%positive →
  Z.pos (digits2_pos P) = Z.pos s + 53 →
  -157 ≤ E ≤ -53 →
  ∃ Q e' q',
    binary_round_aux prec emax false (Z.pos P) E loc_Exact = S754_finite false Q e'
    ∧ (q' = Z.pos P `div` 2 ^ Z.pos s
       ∨ (q' = Z.pos P `div` 2 ^ Z.pos s + 1
          ∧ 2 ^ Z.pos s ≤ 2 * (Z.pos P `mod` 2 ^ Z.pos s)))
    ∧ ((e' = E + Z.pos s ∧ Z.pos Q = q') ∨ (e' = E + Z.pos s + 1 ∧ 2 * Z.pos Q = q')).
Proof.
  intros Hs HD HE.
  pose proof (digits2_pos_bounds P) as HP. rewrite HD in HP.
  assert (shr_fexp prec emax (Z.pos P) E loc_Exact
          = (SpecFloat.iter_pos shr_1 s {| shr_m := Z.pos P; shr_r := false; shr_s := false |},
             E + Z.pos s)) as Hshr.
  { unfold shr_fexp. cbn [Zdigits2 shr_record_of_loc]. rewrite HD.
    rewrite fexp_normal by lia.
    by replace (Z.pos s + 53 + E - 53 - E) with (Z.pos s) by lia. }
  unfold binary_round_aux. rewrite Hshr.
  destruct (shr_shifted (Z.pos P) s ltac:(lia)) as [Hm Hr].
  set (mrs := SpecFloat.iter_pos shr_1 s _) in *.
  pose proof (round_nearest_even_cases mrs) as Hq. cbv zeta in Hq.
  set (q' := round_nearest_even (shr_m mrs) (loc_of_shr_record mrs)) in *.
  rewrite Hm in Hq.
  assert (q' = Z.pos P `div` 2 ^ Z.pos s
          ∨ (q' = Z.pos P `div` 2 ^ Z.pos s + 1
             ∧ 2 ^ Z.pos s ≤ 2 * (Z.pos P `mod` 2 ^ Z.pos s))) as Hq'.
  { destruct Hq as [Hq|[Hq Hrt]]; [by left|right; split; [done|by apply Hr]]. }
  assert (2 ^ 52 ≤ Z.pos P `div` 2 ^ Z.pos s < 2 ^ 53) as Hdiv.
  { destruct Hs as [-> | ->].
    - change (Z.pos 52 + 53 - 1) with 104 in HP. change (Z.pos 52 + 53) with 105 in HP.
      split; [apply Z.div_le_lower_bound|apply Z.div_lt_upper_bound]; try done.
      + change (2 ^ 104) with (2 ^ 52 * 2 ^ 52) in HP. lia.
      + change (2 ^ 105) with (2 ^ 52 * 2 ^ 53) in HP. lia.
    - change (Z.pos 53 + 53 - 1) with 105 in HP. change (Z.pos 53 + 53) with 106 in HP.
      split; [apply Z.div_le_lower_bound|apply Z.div_lt_upper_bound]; try done.
      + change (2 ^ 105) with (2 ^ 53 * 2 ^ 52) in HP. lia.
      + change (2 ^ 106) with (2 ^ 53 * 2 ^ 53) in HP. lia. }
  assert (Z.pos s ≤ 53) as Hs53 by (destruct Hs as [-> | ->]; lia).
  assert (52 ≤ Z.pos s) as Hs52 by (destruct Hs as [-> | ->]; lia).
  clearbody q'. clear Hq Hr Hm Hshr. clearbody mrs.
  destruct q' as [|Q|Q]; [lia| |lia].
  destruct (decide (Z.pos Q < 2 ^ 53)) as [Hlt|Hge].
  - exists Q, (E + Z.pos s), (Z.pos Q). split; [|split; [done|by left]].
    assert (shr_fexp prec emax (Z.pos Q) (E + Z.pos s) loc_Exact
            = ({| shr_m := Z.pos Q; shr_r := false; shr_s := false |}, E + Z.pos s)) as ->.
    { unfold shr_fexp. cbn [Zdigits2 shr_record_of_loc].
      rewrite (digits2_pos_unique Q 53) by lia.
      rewrite fexp_normal by lia.
      by replace (53 + (E + Z.pos s) - 53 - (E + Z.pos s)) with 0 by lia. }
    cbn [shr_m]. unfold emax, prec.
    by replace (E + Z.pos s <=? 1024 - 53) with true by (symmetry; apply Z.leb_le; lia).
  - assert (Z.pos Q = 2 ^ 53) as HQ by lia.
    exists (2 ^ 52)%positive, (E + Z.pos s + 1), (Z.pos Q).
    split; [|split; [done|right; split; [done|by rewrite HQ]]].
    assert (Q = (2 ^ 53)%positive) as -> by (apply Pos2Z.inj; rewrite HQ; done).
    assert (shr_fexp prec emax (Z.pos (2 ^ 53)) (E + Z.pos s) loc_Exact
            = ({| shr_m := Z.pos (2 ^ 52); shr_r := false; shr_s := false |},
               E + Z.pos s + 1)) as ->.
    { unfold shr_fexp. cbn [Zdigits2 shr_record_of_loc].
      change (Z.pos (digits2_pos (2 ^ 53))) with 54.
      rewrite fexp_normal by lia.
      by replace (54 + (E + Z.pos s) - 53 - (E + Z.pos s)) with 1 by lia. }
    cbn [shr_m]. unfold emax, prec.
    by replace (E + Z.pos s + 1 <=? 1024 - 53) with true by (symmetry; apply Z.leb_le; lia).
Qed.

(** An integer of at most 53 digits has a float: [float] does not fail. *)
Lemma float_of_int_small z :
  - 2 ^ 53 < z < 2 ^ 53 → ∃ x, float_of_int z = Ok x.
Proof.
  intros Hz. unfold float_of_int, float_of_Z.
  destruct z as [|p|p]; cbn [binary_normalize].
  - by eexists.
  - destruct (binary_round_small false p 0 ltac:(lia) ltac:(lia)) as (M & c & -> & _).
    by eexists.
  - destruct (binary_round_small true p 0 ltac:(lia) ltac:(lia)) as (M & c & -> & _).
    by eexists.
Qed.

(** The arithmetic behind [int(random() * n) < n]: [M] and [N] are the
    mantissas of [random()] and of [n], [a] is the power of two that scaled
    the mantissa of [random()], and [q'] is the mantissa of the product when
    [s] digits are dropped. *)
Lemma rounded_product_below (M N a s q' : Z) :
  s = 52 ∨ s = 53 →
  1 ≤ a → 0 < M → M + a ≤ 2 ^ 53 → 2 ^ 52 ≤ N →
  2 ^ (s + 52) ≤ M * N →
  (q' = (M * N) `div` 2 ^ s
   ∨ (q' = (M * N) `div` 2 ^ s + 1 ∧ 2 ^ s ≤ 2 * ((M * N) `mod` 2 ^ s))) →
  0 ≤ q' < N * a * 2 ^ (53 - s).
Proof.
  intros Hs Ha HM HMa HN HP Hq.
  assert (M * N + a * N ≤ 2 ^ 53 * N) as HPle by nia.
  assert (N ≤ a * N) as HaN by nia.
  assert (0 < 2 ^ s) as HT by (destruct Hs as [-> | ->]; done).
  pose proof (Z.div_mod (M * N) (2 ^ s) ltac:(lia)) as Hdm.
  pose proof (Z.mod_pos_bound (M * N) (2 ^ s) HT) as Hr.
  set (P := M * N) in *. set (q := P `div` 2 ^ s) in *.
  set (r := P `mod` 2 ^ s) in *. set (aN := a * N) in *.
  replace (N * a * 2 ^ (53 - s)) with (aN * 2 ^ (53 - s)) by (unfold aN; lia).
  clearbody P q r aN.
  destruct Hs as [-> | ->].
  - change (2 ^ (53 - 52)) with 2. change (2 ^ (52 + 52)) with (2 ^ 104) in HP.
    change (2 ^ 104) with (2 ^ 52 * 2 ^ 52) in HP.
    change (2 ^ 53) with (2 * 2 ^ 52) in HPle. lia.
  - change (2 ^ (53 - 53)) with 1. change (2 ^ (53 + 52)) with (2 ^ 105) in HP.
    change (2 ^ 105) with (2 ^ 52 * 2 ^ 53) in HP. lia.
Qed.

(** [float(n)] for a positive integer below [2^53] is exact, and the index
    [int(random() * n)] is in the range of the population. *)
Lemma int_of_random_times m n :
  0 ≤ m < 2 ^ 53 → 0 < n < 2 ^ 53 →
  ∃ y j, float_of_int n = Ok y
         ∧ int_of_float (float_mul (random_float m) y) = Ok j
         ∧ 0 ≤ j < n.
Proof.
  intros Hm Hn.
  destruct n as [|pn|pn]; [lia| |lia].
  destruct (binary_round_small false pn 0 ltac:(lia) ltac:(lia))
    as (N & c2 & HeqN & Hc2 & HN & HNlo & HNhi).
  exists (S754_finite false N (0 - c2)).
  assert (float_of_int (Z.pos pn) = Ok (S754_finite false N (0 - c2))) as Hy.
  { unfold float_of_int, float_of_Z. cbn [binary_normalize]. by rewrite HeqN. }
  destruct m as [|pm|pm]; [| |lia].
  { exists 0. split; [done|]. split; [done|lia]. }
  destruct (binary_round_small false pm (-53) ltac:(lia) ltac:(lia))
    as (M & c1 & HeqM & Hc1 & HM & HMlo & HMhi).
  unfold random_float. cbn [binary_normalize]. rewrite HeqM.
  cbn [float_mul SFmul xorb].
  assert (0 < 2 ^ c1) as Ha by (apply Z.pow_pos_nonneg; lia).
  assert (0 < 2 ^ c2) as Hb by (apply Z.pow_pos_nonneg; lia).
  assert (2 ^ 104 ≤ Z.pos (M * N) < 2 ^ 106) as HP.
  { rewrite Pos2Z.inj_mul.
    change (2 ^ 104) with (2 ^ 52 * 2 ^ 52). change (2 ^ 106) with (2 ^ 53 * 2 ^ 53).
    nia. }
  pose proof (digits2_pos_bounds (M * N)) as HD.
  assert (∃ s : positive, (s = 52%positive ∨ s = 53%positive)
                          ∧ Z.pos (digits2_pos (M * N)) = Z.pos s + 53)
    as (s & Hs & Hds).
  { assert (104 < Z.pos (digits2_pos (M * N))) by (apply (Z.pow_lt_mono_r_iff 2); lia).
    assert (Z.pos (digits2_pos (M * N)) - 1 < 106) by (apply (Z.pow_lt_mono_r_iff 2); lia).
    destruct (decide (Z.pos (digits2_pos (M * N)) = 105)) as [H105|H105].
    - exists 52%positive. split; [by left|lia].
    - exists 53%positive. split; [by right|lia]. }
  destruct (binary_round_aux_shift (M * N) (-53 - c1 + (0 - c2)) s Hs Hds ltac:(lia))
    as (Q & e' & q' & -> & Hq' & He').
  cbn [int_of_float]. eexists. split; [exact Hy|]. split; [reflexivity|].
  rewrite Hds in HD. rewrite Pos2Z.inj_mul in Hq', HD.
  assert (Z.pos s = 52 ∨ Z.pos s = 53) as Hs' by (destruct Hs as [-> | ->]; [by left|by right]).
  assert (2 ^ (Z.pos s + 52) ≤ Z.pos M * Z.pos N) as HPlo.
  { replace (Z.pos s + 52) with (Z.pos s + 53 - 1) by lia. apply HD. }
  pose proof (rounded_product_below (Z.pos M) (Z.pos N) (2 ^ c1) (Z.pos s) q'
                Hs' ltac:(lia) ltac:(lia) HMhi HNlo HPlo Hq')
    as Hbound.
  set (t := 53 + c1 + c2 - Z.pos s).
  assert (0 ≤ t) as Ht by (unfold t; lia).
  assert (Z.pos N * 2 ^ c1 * 2 ^ (53 - Z.pos s) = Z.pos pn * 2 ^ t) as Hnt.
  { unfold t. replace (53 + c1 + c2 - Z.pos s) with (c2 + c1 + (53 - Z.pos s)) by lia.
    rewrite !Z.pow_add_r by lia. rewrite HN. lia. }
  rewrite Hnt in Hbound.
  assert (0 < 2 ^ t) as Hpt by (apply Z.pow_pos_nonneg; lia).
  destruct He' as [[-> HQ]|[-> HQ]].
  - rewrite Z.shiftl_div_pow2 by lia.
    replace (- (-53 - c1 + (0 - c2) + Z.pos s)) with t by (unfold t; lia).
    rewrite HQ. split; [apply Z.div_pos; lia|apply Z.div_lt_upper_bound; lia].
  - destruct (decide (t = 0)) as [Ht0|Ht0].
    + replace (-53 - c1 + (0 - c2) + Z.pos s + 1) with 1 by (unfold t in Ht0; lia).
      rewrite Z.shiftl_mul_pow2 by lia. rewrite Ht0 in Hbound.
      change (2 ^ 1) with 2. change (2 ^ 0) with 1 in Hbound. lia.
    + rewrite Z.shiftl_div_pow2 by (unfold t in *; lia).
      replace (- (-53 - c1 + (0 - c2) + Z.pos s + 1)) with (t - 1) by (unfold t; lia).
      assert (2 ^ t = 2 * 2 ^ (t - 1)) as Hsucc.
      { rewrite <- Z.pow_succ_r by lia. f_equal. lia. }
      assert (0 < 2 ^ (t - 1)) by (apply Z.pow_pos_nonneg; lia).
      split; [apply Z.div_pos; lia|apply Z.div_lt_upper_bound; [done|nia]].
Qed.

End FloatFacts.

Module RandomFacts.
Import Std.

(** The index that the draw at position [t] of the tape gives for a
    population of [n] items. *)
Definition index_at (tp : nat → Z) (n : Z) (t : nat) : Z :=
  match int_random_times n {| tape := tp; pos := t |} with
  | Ok (j, _) => j
  | Raise _ => 0
  end.

(** A generator never stays away from an index for ever. *)
Definition fair (tp : nat → Z) : Prop :=
  ∀ (t : nat) (j : Z), 0 ≤ j < 25 → ∃ d : nat, index_at tp 25 (t + d) = j.

(** The sampler draws for populations of at most 25 items; the product
    [random() * n] stays below [n] as long as [n] is a float, which every
    integer below [2^53] is. *)
Lemma int_random_times_Ok n g :
  0 < n < 2 ^ 53 →
  ∃ j, int_random_times n g = Ok (j, {| tape := tape g; pos := S (pos g) |})
       ∧ 0 ≤ j < n.
Proof.
  intros Hn. unfold int_random_times, random.
  pose proof (Z.mod_pos_bound (tape g (pos g)) (2 ^ 53) ltac:(lia)) as Hm.
  destruct (FloatFacts.int_of_random_times (tape g (pos g) `mod` 2 ^ 53) n Hm Hn)
    as (y & j & Hy & Hj & Hr).
  exists j. cbv beta iota zeta.
  by rewrite (result_bind_Ok _ _ _ Hy), (result_bind_Ok _ _ _ Hj).
Qed.

Lemma index_at_range tp n t : 0 < n < 2 ^ 53 → 0 ≤ index_at tp n t < n.
Proof.
  intros Hn. unfold index_at.
  destruct (int_random_times_Ok n {| tape := tp; pos := t |} Hn) as (j & -> & Hj).
  done.
Qed.

Lemma int_random_times_eq n g :
  0 < n < 2 ^ 53 →
  int_random_times n g
  = Ok (index_at (tape g) n (pos g), {| tape := tape g; pos := S (pos g) |}).
Proof.
  intros Hn. unfold index_at.
  destruct (int_random_times_Ok n {| tape := tape g; pos := pos g |} Hn)
    as (j & Hj & _).
  rewrite Hj. destruct g. exact Hj.
Qed.

(** The index is the integer part of the rounded product, which is not
    always the integer part of the exact product. *)
Example index_at_rounded :
  index_at (λ _, 8646911284551352) 25 0 = 24
  ∧ 8646911284551352 * 25 / 2 ^ 53 = 23.
Proof. split; vm_compute; reflexivity. Qed.

Lemma getitem_lookup {A} (l : list A) (i : nat) x :
  l !! i = Some x → getitem l (Z.of_nat i) = Ok x.
Proof.
  intros Hl. pose proof (lookup_lt_Some _ _ _ Hl) as Hlt.
  unfold getitem, py_index.
  replace ((0 <=? Z.of_nat i) && (Z.of_nat i <? Z.of_nat (length l)))
    with true by (symmetry; apply andb_true_iff; split; [apply Z.leb_le|apply Z.ltb_lt]; lia).
  simpl. by rewrite Nat2Z.id, Hl.
Qed.

Lemma setitem_insert {A} (l : list A) (i : nat) x :
  (i < length l)%nat → setitem l (Z.of_nat i) x = Ok (<[i := x]> l).
Proof.
  intros Hlt. unfold setitem, py_index.
  replace ((0 <=? Z.of_nat i) && (Z.of_nat i <? Z.of_nat (length l)))
    with true by (symmetry; apply andb_true_iff; split; [apply Z.leb_le|apply Z.ltb_lt]; lia).
  simpl. by rewrite Nat2Z.id.
Qed.

(** The items at the first [m] places of the pool are pairwise distinct. *)
Definition distinct_upto (m : nat) (pool : list Z) : Prop :=
  ∀ i i' z, (i < m)%nat → (i' < m)%nat →
            pool !! i = Some z → pool !! i' = Some z → i = i'.

Lemma sample_pool_spec (k : nat) :
  ∀ (m : nat) (pool : list Z) (g : rng),
    (k ≤ m ≤ length pool)%nat →
    Z.of_nat (length pool) < 2 ^ 53 →
    distinct_upto m pool →
    ∃ result g',
      sample_pool (Z.of_nat (length pool))
        (seqZ (Z.of_nat (length pool) - Z.of_nat m) (Z.of_nat k)) pool g
      = Ok (result, g')
      ∧ length result = k
      ∧ NoDup result
      ∧ (∀ z, z ∈ result → ∃ i, (i < m)%nat ∧ pool !! i = Some z)
      ∧ tape g' = tape g.
Proof.
  induction k as [|k IH]; intros m pool g Hm Hfloat Hd.
  - exists [], g. repeat split; [constructor | by intros ? ?%elem_of_nil].
  - rewrite seqZ_cons by lia. cbn [sample_pool].
    set (n := Z.of_nat (length pool)) in *.
    replace (n - (n - Z.of_nat m)) with (Z.of_nat m) by lia.
    rewrite (result_bind_Ok _ _ _
               (int_random_times_eq (Z.of_nat m) g ltac:(lia))).
    pose proof (index_at_range (tape g) (Z.of_nat m) (pos g) ltac:(lia)) as Hj.
    set (j := index_at (tape g) (Z.of_nat m) (pos g)) in *.
    destruct (lookup_lt_is_Some_2 pool (Z.to_nat j) ltac:(lia)) as [x Hx].
    destruct (lookup_lt_is_Some_2 pool (m - 1) ltac:(lia)) as [y Hy].
    assert (getitem pool j = Ok x) as Hgx.
    { rewrite <-(Z2Nat.id j) by lia. by apply getitem_lookup. }
    assert (getitem pool (Z.of_nat m - 1) = Ok y) as Hgy.
    { replace (Z.of_nat m - 1) with (Z.of_nat (m - 1)) by lia.
      by apply getitem_lookup. }
    assert (setitem pool j y = Ok (<[Z.to_nat j := y]> pool)) as Hset.
    { rewrite <-(Z2Nat.id j) at 1 by lia. apply setitem_insert. lia. }
    rewrite (result_bind_Ok _ _ _ Hgx), (result_bind_Ok _ _ _ Hgy),
      (result_bind_Ok _ _ _ Hset).
    set (pool' := <[Z.to_nat j := y]> pool).
    assert (length pool' = length pool) as Hlen by apply length_insert.
    assert (∀ i z, (i < m - 1)%nat → pool' !! i = Some z →
                   z ≠ x ∧ ∃ i', (i' < m)%nat ∧ pool !! i' = Some z) as Hsub.
    { intros i z Hi Hz. unfold pool' in Hz.
      destruct (decide (Z.to_nat j = i)) as [<-|Hne].
      - rewrite list_lookup_insert_eq in Hz by lia. injection Hz as <-.
        split; [|exists (m - 1)%nat; split; [lia|done]].
        intros ->. assert (Z.to_nat j = (m - 1)%nat); [|lia].
        apply (Hd _ _ x); (lia || done).
      - rewrite list_lookup_insert_ne in Hz by done.
        split; [|exists i; split; [lia|done]].
        intros ->. apply Hne. apply (Hd _ _ x); (lia || done). }
    assert (distinct_upto (m - 1) pool') as Hd'.
    { intros i i' z Hi Hi' Hz Hz'. unfold pool' in Hz, Hz'.
      destruct (decide (Z.to_nat j = i)) as [Hji|Hji],
               (decide (Z.to_nat j = i')) as [Hji'|Hji']; [congruence| | |].
      - subst i. rewrite list_lookup_insert_eq in Hz by lia.
        rewrite list_lookup_insert_ne in Hz' by done. injection Hz as <-.
        assert ((m - 1)%nat = i'); [|lia]. apply (Hd _ _ y); (lia || done).
      - subst i'. rewrite list_lookup_insert_eq in Hz' by lia.
        rewrite list_lookup_insert_ne in Hz by done. injection Hz' as <-.
        assert ((m - 1)%nat = i); [|lia]. apply (Hd _ _ y); (lia || done).
      - rewrite list_lookup_insert_ne in Hz, Hz' by done.
        apply (Hd _ _ z); (lia || done). }
    destruct (IH (m - 1)%nat pool' {| tape := tape g; pos := S (pos g) |}
                 ltac:(lia) ltac:(lia) Hd')
      as (res & g' & Hres & Hl & Hnd & Hin & Htape).
    rewrite Hlen in Hres.
    replace (Z.succ (n - Z.of_nat m)) with (n - Z.of_nat (m - 1)) by lia.
    replace (Z.pred (Z.of_nat (S k))) with (Z.of_nat k) by lia.
    fold n in Hres. rewrite Hres. simpl.
    exists (x :: res), g'. split; [done|]. split; [simpl; lia|].
    split; [|split; [|done]].
    + constructor; [|done]. intros Hxin.
      destruct (Hin x Hxin) as (i & Hi & Hpi).
      by destruct (Hsub i x Hi Hpi).
    + intros z [->|Hz]%elem_of_cons.
      * exists (Z.to_nat j). split; [lia|done].
      * destruct (Hin z Hz) as (i & Hi & Hpi).
        by destruct (Hsub i z Hi Hpi).
Qed.


Lemma draw_unselected_mono fuel fuel' n selected g r :
  (fuel ≤ fuel')%nat →
  draw_unselected fuel n selected g = Ok r →
  draw_unselected fuel' n selected g = Ok r.
Proof.
  revert fuel' g. induction fuel as [|fuel IH]; intros fuel' g Hle; [done|].
  destruct fuel' as [|fuel']; [lia|]. cbn [draw_unselected].
  destruct (int_random_times n g) as [[j g1]|e]; cbn [mbind result_bind rbind];
    [|done].
  case_bool_decide; [apply IH; lia|done].
Qed.

(** The inner loop ends once the tape yields an index that is not selected
    yet, at most [d] draws ahead. *)
Lemma draw_unselected_ends (d : nat) :
  ∀ n selected g,
    0 < n < 2 ^ 53 →
    index_at (tape g) n (pos g + d) ∉ selected →
    ∃ j g', draw_unselected (S d) n selected g = Ok (j, g')
            ∧ (0 ≤ j < n) ∧ (j ∉ selected) ∧ tape g' = tape g.
Proof.
  induction d as [|d IH]; intros n selected g Hn Hd;
    cbn [draw_unselected];
    rewrite (result_bind_Ok _ _ _ (int_random_times_eq n g Hn)).
  - rewrite Nat.add_0_r in Hd. rewrite bool_decide_eq_false_2 by done.
    eexists _, _. split; [done|]. split; [by apply index_at_range|done].
  - case_bool_decide as Hsel.
    + apply (IH n selected {| tape := tape g; pos := S (pos g) |} Hn).
      simpl. by replace (S (pos g + d))%nat with (pos g + S d)%nat by lia.
    + eexists _, _. split; [done|]. split; [by apply index_at_range|done].
Qed.

Lemma unselected_index (selected : gset Z) :
  (size selected < 25)%nat → ∃ j, 0 ≤ j < 25 ∧ j ∉ selected.
Proof.
  intros Hsize.
  destruct (decide (Forall (λ j, j ∈ selected) (seqZ 0 25))) as [Hall|Hex].
  - assert (list_to_set (seqZ 0 25) ⊆ selected) as Hsub.
    { intros j Hj%elem_of_list_to_set.
      rewrite Forall_forall in Hall. by apply Hall. }
    apply subseteq_size in Hsub.
    rewrite size_list_to_set in Hsub by apply NoDup_seqZ.
    rewrite length_seqZ in Hsub. lia.
  - apply not_Forall_Exists, Exists_exists in Hex as (j & Hj & Hnot).
    + apply elem_of_seqZ in Hj. exists j. split; [lia|done].
    + intros x. apply _.
Qed.

Lemma sample_set_spec (range_k : list Z) :
  ∀ (selected : gset Z) (g : rng),
    fair (tape g) →
    (size selected + length range_k ≤ 25)%nat →
    ∃ fuel0 result g',
      (∀ fuel, (fuel0 ≤ fuel)%nat →
         sample_set fuel 25 range_k (xrange 1 26) selected g = Ok (result, g'))
      ∧ length result = length range_k
      ∧ NoDup result
      ∧ (∀ z, z ∈ result → 1 ≤ z ≤ 25 ∧ z - 1 ∉ selected)
      ∧ tape g' = tape g.
Proof.
  induction range_k as [|i range_k IH]; intros selected g Hfair Hsize.
  - exists 0%nat, [], g.
    split; [done|]. split; [done|]. split; [constructor|].
    split; [by intros ? ?%elem_of_nil|done].
  - simpl in Hsize.
    destruct (unselected_index selected ltac:(lia)) as (j0 & Hj0 & Hj0sel).
    destruct (Hfair (pos g) j0 Hj0) as [d Hd].
    destruct (draw_unselected_ends d 25 selected g ltac:(lia))
      as (j & g1 & Hdraw & Hj & Hjsel & Htape1); [by rewrite Hd|].
    assert (size ({[j]} ∪ selected) = S (size selected)) as Hsz.
    { rewrite size_union, size_singleton; [done|].
      by apply disjoint_singleton_l. }
    destruct (IH ({[j]} ∪ selected) g1)
      as (fuel2 & res & g' & Hres & Hl & Hnd & Hin & Htape);
      [by rewrite Htape1 | lia |].
    exists (S d `max` fuel2)%nat, ((1 + j) :: res), g'.
    split; [|split; [simpl; lia|split; [|split; [|congruence]]]].
    + intros fuel Hfuel. cbn [sample_set].
      rewrite (result_bind_Ok _ _ _
                 (draw_unselected_mono (S d) fuel _ _ _ _ ltac:(lia) Hdraw)).
      assert (getitem (xrange 1 26) j = Ok (1 + j)) as Hget.
      { rewrite <-(Z2Nat.id j) by lia. apply getitem_lookup.
        unfold xrange. rewrite lookup_seqZ_lt by lia. done. }
      rewrite (result_bind_Ok _ _ _ Hget), Hres by lia. done.
    + constructor; [|done]. intros Hx. destruct (Hin _ Hx) as [_ Hn].
      apply Hn. replace (1 + j - 1) with j by lia.
      apply elem_of_union_l. by apply elem_of_singleton.
    + intros z [->|Hz]%elem_of_cons.
      * split; [lia|]. by replace (1 + j - 1) with j by lia.
      * destruct (Hin _ Hz) as [? Hn]. split; [done|].
        intros ?. apply Hn. by apply elem_of_union_r.
Qed.

Lemma setsize_pool (k : Z) :
  5 < k ≤ 25 → (25 <=? 21 + 4 ^ ceil_log4 (k * 3)) = true.
Proof. intros Hk. Z_cases k 6 20%nat; reflexivity. Qed.

Lemma sample_xrange fuel k g :
  sample fuel (xrange 1 26) k g
  = if negb ((0 <=? k) && (k <=? 25)) then Raise ValueError
    else if 5 <? k then
      if 25 <=? 21 + 4 ^ ceil_log4 (k * 3)
      then sample_pool 25 (xrange 0 k) (xrange 1 26) g
      else sample_set fuel 25 (xrange 0 k) (xrange 1 26) ∅ g
    else sample_set fuel 25 (xrange 0 k) (xrange 1 26) ∅ g.
Proof.
  unfold sample. change (Z.of_nat (length (xrange 1 26))) with 25.
  destruct (negb _); [done|]. by destruct (5 <? k).
Qed.

(** For more than five spots the selection is from the pool: it needs no
    fuel and no assumption on the generator. *)
Lemma get_random_for_plate_pool n g :
  5 < n ≤ 25 →
  ∃ spots g',
    (∀ fuel, get_random_for_plate fuel n g = Ok (spots, g'))
    ∧ Z.of_nat (length spots) = n ∧ NoDup spots
    ∧ Forall (λ s, 1 ≤ s ≤ 25) spots ∧ tape g' = tape g.
Proof.
  intros Hn.
  destruct (sample_pool_spec (Z.to_nat n) 25 (xrange 1 26) g)
    as (res & g' & Hres & Hl & Hnd & Hin & Htape).
  { change (length (xrange 1 26)) with 25%nat. lia. }
  { done. }
  { intros i i' z _ _ Hi Hi'.
    apply (NoDup_lookup (xrange 1 26) i i' z); [apply NoDup_seqZ|done..]. }
  change (Z.of_nat (length (xrange 1 26)) - Z.of_nat 25) with 0 in Hres.
  change (Z.of_nat (length (xrange 1 26))) with 25 in Hres.
  rewrite Z2Nat.id in Hres by lia.
  exists res, g'. split; [|split; [lia|split; [done|split; [|done]]]].
  - intros fuel. unfold get_random_for_plate. rewrite sample_xrange.
    replace (negb _) with false
      by (symmetry; apply negb_false_iff, andb_true_iff;
          split; apply Z.leb_le; lia).
    replace (5 <? n) with true by (symmetry; apply Z.ltb_lt; lia).
    rewrite setsize_pool by done.
    by replace (xrange 0 n) with (seqZ 0 n) by (unfold xrange; f_equal; lia).
  - apply Forall_forall. intros z Hz. destruct (Hin z Hz) as (i & _ & Hi).
    apply lookup_seqZ in Hi. lia.
Qed.

Lemma get_random_for_plate_ends n g :
  0 ≤ n ≤ 25 → fair (tape g) →
  ∃ fuel0 spots g',
    (∀ fuel, (fuel0 ≤ fuel)%nat →
       get_random_for_plate fuel n g = Ok (spots, g'))
    ∧ Z.of_nat (length spots) = n ∧ NoDup spots
    ∧ Forall (λ s, 1 ≤ s ≤ 25) spots ∧ tape g' = tape g.
Proof.
  intros Hn Hfair. destruct (decide (5 < n)) as [Hbig|Hsmall].
  - destruct (get_random_for_plate_pool n g ltac:(lia))
      as (spots & g' & Hr & H).
    exists 0%nat, spots, g'. split; [|done]. intros fuel _. apply Hr.
  - destruct (sample_set_spec (xrange 0 n) ∅ g Hfair)
      as (fuel0 & res & g' & Hres & Hl & Hnd & Hin & Htape).
    { rewrite size_empty. unfold xrange. rewrite length_seqZ. lia. }
    exists fuel0, res, g'.
    split; [|split; [|split; [done|split; [|done]]]].
    + intros fuel Hfuel. unfold get_random_for_plate. rewrite sample_xrange.
      replace (negb _) with false
        by (symmetry; apply negb_false_iff, andb_true_iff;
            split; apply Z.leb_le; lia).
      replace (5 <? n) with false by (symmetry; apply Z.ltb_ge; lia).
      by apply Hres.
    + rewrite Hl. unfold xrange. rewrite length_seqZ. lia.
    + apply Forall_forall. intros z Hz. by destruct (Hin z Hz).
Qed.

(** C5: for every n with 0 <= n <= 25 the plate randomizer returns a list of
    exactly n pairwise distinct integers of 1..25, and hence a rearrangement
    of 1, ..., 25 for n = 25.  (The generator is assumed not to stay away
    from an index for ever, which the rejection loop of [random.sample]
    needs to end when n <= 5; then every large enough fuel gives the same
    result.) *)
Theorem C5_get_random_for_plate (n : Z) (g : rng) :
  0 ≤ n ≤ 25 → fair (tape g) →
  ∃ fuel0 spots g',
    (∀ fuel, (fuel0 ≤ fuel)%nat →
       get_random_for_plate fuel n g = Ok (spots, g'))
    ∧ Z.of_nat (length spots) = n
    ∧ NoDup spots
    ∧ Forall (λ s, 1 ≤ s ≤ 25) spots
    ∧ (n = 25 → spots ≡ₚ seqZ 1 25).
Proof.
  intros Hn Hfair.
  destruct (get_random_for_plate_ends n g Hn Hfair)
    as (fuel0 & spots & g' & Hr & Hl & Hnd & Hin & _).
  exists fuel0, spots, g'. repeat (split; [done|]).
  intros ->. apply submseteq_length_Permutation.
  - apply NoDup_submseteq; [done|]. intros x Hx.
    rewrite Forall_forall in Hin. apply elem_of_seqZ. specialize (Hin x Hx). lia.
  - rewrite length_seqZ. lia.
Qed.

(** A tape that runs through the 25 indices in turn. *)
Definition cycle_tape (t : nat) : Z :=
  Z.of_nat (t `mod` 25) * 2 ^ 53 / 25 + 1.

Lemma cycle_tape_index t : index_at cycle_tape 25 t = Z.of_nat (t `mod` 25).
Proof.
  unfold index_at, int_random_times, random, cycle_tape. cbn [tape pos].
  pose proof (Nat.mod_upper_bound t 25 ltac:(lia)) as Hc.
  generalize dependent (t `mod` 25)%nat. intros c Hc.
  do 25 (destruct c as [|c]; [vm_compute; reflexivity|]). lia.
Qed.

Lemma cycle_tape_fair : fair cycle_tape.
Proof.
  intros t j Hj. exists (Z.to_nat j + 25 - t `mod` 25)%nat.
  rewrite cycle_tape_index.
  pose proof (Nat.mod_upper_bound t 25 ltac:(lia)).
  pose proof (Nat.div_mod_eq t 25).
  replace (t + (Z.to_nat j + 25 - t `mod` 25))%nat
    with (Z.to_nat j + (t `div` 25 + 1) * 25)%nat by lia.
  rewrite Nat.Div0.mod_add, Nat.mod_small by lia. lia.
Qed.

Lemma C5_witness :
  ∃ fuel0 spots g',
    (∀ fuel, (fuel0 ≤ fuel)%nat →
       get_random_for_plate fuel 3 {| tape := cycle_tape; pos := 0 |}
       = Ok (spots, g'))
    ∧ Z.of_nat (length spots) = 3
    ∧ NoDup spots
    ∧ Forall (λ s, 1 ≤ s ≤ 25) spots
    ∧ (3 = 25 → spots ≡ₚ seqZ 1 25).
Proof.
  apply (C5_get_random_for_plate 3 {| tape := cycle_tape; pos := 0 |}).
  - lia.
  - apply cycle_tape_fair.
Defined.

Example get_random_for_plate_cycle :
  get_random_for_plate 1 3 {| tape := cycle_tape; pos := 7 |}
  = Ok ([8; 9; 10], {| tape := cycle_tape; pos := 10 |}).
Proof. reflexivity. Qed.

End RandomFacts.

Module ExpectedFacts.
Import Std SpotPreference SpotFacts RandomFacts.

(** The number of positive spots that a row of totals stands for. *)
Definition n_spots (r : row) : Z := area_a r + area_b r + area_c r + area_d r.

(** Two tables are parallel: row by row the same plate and the same
    number of positive spots. *)
Definition parallel (observed expected : list row) : Prop :=
  Forall2 (λ r r', pla_id r' = pla_id r ∧ n_spots r' = n_spots r)
          observed expected.

Lemma parallel_length observed expected :
  parallel observed expected → length observed = length expected.
Proof. apply Forall2_length. Qed.

Lemma parallel_pla_id observed expected :
  parallel observed expected → pla_id <$> expected = pla_id <$> observed.
Proof.
  induction 1 as [|r r' ?? [Hid _] _ IH]; [done|].
  rewrite !fmap_cons. by rewrite Hid, IH.
Qed.

Section Expected.

Variable items : list (area * list Z).
Hypothesis items_perm : items ≡ₚ area2spots.

Lemma expected_row_ends r g :
  0 ≤ n_spots r ≤ 25 → fair (tape g) →
  ∃ fuel0 r' g',
    (∀ fuel, (fuel0 ≤ fuel)%nat → expected_row items fuel r g = Ok (r', g'))
    ∧ pla_id r' = pla_id r ∧ n_spots r' = n_spots r ∧ tape g' = tape g.
Proof.
  intros Hn Hfair.
  destruct (get_random_for_plate_ends (n_spots r) g Hn Hfair)
    as (fuel0 & spots & g' & Hr & Hl & _ & Hin & Htape).
  eexists fuel0, _, g'. split; [|split; [|split; [|done]]].
  - intros fuel Hfuel. unfold expected_row. fold (n_spots r).
    rewrite (Hr fuel Hfuel). reflexivity.
  - done.
  - unfold n_spots at 1. cbn [area_a area_b area_c area_d].
    rewrite !(add_spots_total items spots area_totals_zero _ items_perm).
    simpl. rewrite <-Hl, <-(count_in_sum spots Hin). lia.
Qed.

Lemma expected_loop_ends (rows : list row) :
  ∀ table g,
    Forall (λ r, 0 ≤ n_spots r ≤ 25) rows → fair (tape g) →
    ∃ fuel0 table' g',
      (∀ fuel, (fuel0 ≤ fuel)%nat →
         for_each (λ '(table, g) r,
                     '(r', g) ← expected_row items fuel r g ;
                     Ok (table ++ [r'], g)) rows (table, g)
         = Ok (table ++ table', g'))
      ∧ parallel rows table' ∧ tape g' = tape g.
Proof.
  induction rows as [|r rows IH]; intros table g Hrows Hfair.
  - exists 0%nat, [], g. rewrite app_nil_r.
    split; [done|]. split; [constructor|done].
  - apply Forall_cons in Hrows as [Hr Hrows].
    destruct (expected_row_ends r g Hr Hfair)
      as (fuel1 & r1 & g1 & H1 & Hid & Hn & Htape1).
    destruct (IH (table ++ [r1]) g1 Hrows ltac:(by rewrite Htape1))
      as (fuel2 & table' & g' & H2 & Hpar & Htape).
    exists (fuel1 `max` fuel2)%nat, (r1 :: table'), g'.
    split; [|split; [by constructor|congruence]].
    intros fuel Hfuel. cbn [for_each].
    rewrite (result_bind_Ok _ _ _ (H1 fuel ltac:(lia))).
    cbn [mbind result_bind rbind].
    rewrite (H2 fuel ltac:(lia)). by rewrite <-app_assoc.
Qed.

(** One run of the expected totals on a table of observed totals that
    stand for at most 25 positive spots each. *)
Lemma set_plate_area_totals_expected_ends (self : Start) :
  Forall (λ r, 0 ≤ n_spots r ≤ 25) (plate_area_totals_observed (db self)) →
  fair (tape (random_state self)) →
  ∃ fuel0 self',
    (∀ fuel, (fuel0 ≤ fuel)%nat →
       set_plate_area_totals_expected items fuel self = Ok self')
    ∧ plate_area_totals_observed (db self')
      = plate_area_totals_observed (db self)
    ∧ species_spots_1 (db self') = species_spots_1 (db self)
    ∧ parallel (plate_area_totals_observed (db self'))
               (plate_area_totals_expected (db self'))
    ∧ tape (random_state self') = tape (random_state self)
    ∧ statistics_repeats self' = statistics_repeats self
    ∧ trace self' = trace self.
Proof.
  intros Hrows Hfair.
  destruct (expected_loop_ends _ [] (random_state self) Hrows Hfair)
    as (fuel0 & table' & g' & Hloop & Hpar & Htape).
  eexists fuel0, _. split.
  - intros fuel Hfuel. unfold set_plate_area_totals_expected.
    rewrite (result_bind_Ok _ _ _ (Hloop fuel Hfuel)). reflexivity.
  - simpl. done.
Qed.

End Expected.
End ExpectedFacts.

Module WilcoxonFacts.
Import Std SpotPreference.

Lemma mean_Ok (l : list Z) :
  (1 ≤ length l)%nat →
  mean l = Ok (Qmake (sumZ l) (Z.to_pos (Z.of_nat (length l)))).
Proof. destruct l; simpl; [lia|done]. Qed.

Lemma float_lt_nan p alpha : is_nan p = true → float_lt p alpha = false.
Proof. by destruct p. Qed.

Lemma Qgtb_lt (x y : Q) : Qgtb x y = true ↔ (y < x)%Q.
Proof.
  unfold Qgtb. rewrite negb_true_iff, <-not_true_iff_false, Qle_bool_iff.
  split; [apply Qnot_le_lt | apply Qlt_not_le].
Qed.

Section Repeats.

Variable cfg : config.
Variable wilcox_test : list Z → list Z → spec_float → wilcox_result.

(** What one invocation makes of the tally of an area group, given the
    totals of the group in the two tables. *)
Definition next_tally (observed expected : list Z) (t : tally) : tally :=
  if (Z.of_nat (length observed) <? 2) || (Z.of_nat (length expected) <? 2)
  then t
  else
    let mean_observed := Qmake (sumZ observed) (Z.to_pos (Z.of_nat (length observed))) in
    let mean_expected := Qmake (sumZ expected) (Z.to_pos (Z.of_nat (length expected))) in
    let p_value := w_p_value (wilcox_test observed expected (conf_level cfg)) in
    if float_lt p_value (alpha_level cfg) then
      if Qgtb mean_observed mean_expected
      then incr_preference (incr_significant t)
      else incr_rejection (incr_significant t)
    else t.

Definition group_tally (self : Start) (area_group : list area) : tally :=
  next_tally
    (get_area_totals (plate_area_totals_observed (db self)) area_group)
    (get_area_totals (plate_area_totals_expected (db self)) area_group)
    (default tally_zero (statistics_repeats self !! area_group_str area_group)).

Lemma wilcoxon_repeats_group_spec (self : Start) (area_group : list area) :
  ∃ self',
    wilcoxon_repeats_group cfg wilcox_test self area_group = Ok self'
    ∧ db self' = db self
    ∧ random_state self' = random_state self
    ∧ statistics_repeats self'
      = <[area_group_str area_group := group_tally self area_group]>
          (statistics_repeats self).
Proof.
  unfold wilcoxon_repeats_group, group_tally, next_tally.
  set (key := area_group_str area_group).
  destruct (statistics_repeats self !! key) as [t|] eqn:Hkey;
    cbn [db with_repeats default id];
    set (observed := get_area_totals (plate_area_totals_observed (db self)) area_group);
    set (expected := get_area_totals (plate_area_totals_expected (db self)) area_group);
    set (p := float_lt _ _); clearbody p;
    destruct (Z.ltb_spec (Z.of_nat (length observed)) 2);
    destruct (Z.ltb_spec (Z.of_nat (length expected)) 2);
    cbn [orb];
    rewrite ?mean_Ok by lia; cbn [mbind result_bind rbind];
    unfold float_ne_str; rewrite ?andb_true_r;
    try destruct p; try destruct (Qgtb _ _);
    (eexists; split; [reflexivity|]; split; [done|]; split; [done|]);
    cbn [statistics_repeats with_repeats log];
    apply map_eq; intros k; destruct (decide (k = key)) as [->|Hne];
    rewrite ?lookup_alter_eq, ?lookup_alter_ne by done;
    rewrite ?lookup_insert_eq, ?lookup_insert_ne by done;
    rewrite ?lookup_alter_eq, ?lookup_alter_ne by done;
    rewrite ?lookup_insert_eq, ?lookup_insert_ne by done;
    rewrite ?Hkey; done.
Qed.


Lemma wilcoxon_repeats_loop (groups : list (list area)) :
  ∀ self,
    NoDup (area_group_str <$> groups) →
    ∃ self',
      for_each (wilcoxon_repeats_group cfg wilcox_test) groups self = Ok self'
      ∧ db self' = db self
      ∧ random_state self' = random_state self
      ∧ (∀ area_group, area_group ∈ groups →
           statistics_repeats self' !! area_group_str area_group
           = Some (group_tally self area_group))
      ∧ (∀ key, key ∉ area_group_str <$> groups →
           statistics_repeats self' !! key = statistics_repeats self !! key).
Proof.
  induction groups as [|g groups IH]; intros self Hnd.
  - exists self. split; [done|]. split; [done|]. split; [done|].
    split; [by intros ? ?%elem_of_nil|done].
  - rewrite fmap_cons in Hnd. apply NoDup_cons in Hnd as [Hg Hnd].
    destruct (wilcoxon_repeats_group_spec self g)
      as (self1 & Hstep & Hdb1 & Hrng1 & Hrep1).
    destruct (IH self1 Hnd) as (self' & Hloop & Hdb & Hrng & Hin & Hout).
    exists self'. cbn [for_each]. rewrite Hstep. cbn [mbind result_bind rbind].
    split; [done|]. split; [congruence|]. split; [congruence|]. split.
    + intros g' [->|Hg']%elem_of_cons.
      * rewrite Hout by done. rewrite Hrep1. apply lookup_insert_eq.
      * rewrite (Hin g' Hg'). f_equal. unfold group_tally.
        rewrite Hdb1, Hrep1, lookup_insert_ne; [done|].
        intros Heq. apply Hg. rewrite Heq. by apply list_elem_of_fmap_2.
    + intros key Hkey. rewrite fmap_cons in Hkey.
      apply not_elem_of_cons in Hkey as [Hne Hkey].
      rewrite (Hout key Hkey), Hrep1. by apply lookup_insert_ne.
Qed.

Lemma area_groups_NoDup : NoDup (area_group_str <$> area_groups).
Proof.
  apply (bool_decide_unpack _). by vm_compute.
Qed.

Lemma calculate_significance_wilcoxon_repeats_spec (self : Start) :
  ∃ self',
    calculate_significance_wilcoxon_repeats cfg wilcox_test self = Ok self'
    ∧ db self' = db self
    ∧ random_state self' = random_state self
    ∧ ∀ area_group, area_group ∈ area_groups →
        statistics_repeats self' !! area_group_str area_group
        = Some (group_tally self area_group).
Proof.
  destruct (wilcoxon_repeats_loop area_groups self area_groups_NoDup)
    as (self' & H & Hdb & Hrng & Hin & _).
  by exists self'.
Qed.

End Repeats.

(** C2: in an invocation of the repeated Wilcoxon test, for every fixed
    area group with at least 2 observed and 2 expected values, the tally
    "significant" of the group goes up by one exactly when the p-value is
    below the alpha level; when it does, "preference" goes up by one if the
    observed mean is greater than the expected mean and "rejection" goes up
    by one otherwise; a NaN p-value leaves the three tallies as they were. *)
Theorem C2_wilcoxon_repeats_tallies (cfg : config)
    (wilcox_test : list Z → list Z → spec_float → wilcox_result)
    (self : Start) :
  ∃ self',
    calculate_significance_wilcoxon_repeats cfg wilcox_test self = Ok self'
    ∧ ∀ area_group, area_group ∈ area_groups →
        let observed :=
          get_area_totals (plate_area_totals_observed (db self)) area_group in
        let expected :=
          get_area_totals (plate_area_totals_expected (db self)) area_group in
        let key := area_group_str area_group in
        let t := default tally_zero (statistics_repeats self !! key) in
        (2 ≤ length observed)%nat → (2 ≤ length expected)%nat →
        ∃ mean_observed mean_expected t',
          mean observed = Ok mean_observed
          ∧ mean expected = Ok mean_expected
          ∧ statistics_repeats self' !! key = Some t'
          ∧ let p_value :=
              w_p_value (wilcox_test observed expected (conf_level cfg)) in
            let significant := float_lt p_value (alpha_level cfg) in
            let preference := Qgtb mean_observed mean_expected in
            n_significant t'
            = n_significant t + (if significant then 1 else 0)
            ∧ n_preference t'
              = n_preference t + (if significant && preference then 1 else 0)
            ∧ n_rejection t'
              = n_rejection t
                + (if significant && negb preference then 1 else 0)
            ∧ (is_nan p_value = true → t' = t).
Proof.
  destruct (calculate_significance_wilcoxon_repeats_spec cfg wilcox_test self)
    as (self' & Hcalc & _ & _ & Hin).
  exists self'. split; [done|].
  intros area_group Hg observed expected key t Hobs Hexp.
  eexists _, _, _. split; [apply mean_Ok; lia|]. split; [apply mean_Ok; lia|].
  split; [apply (Hin area_group Hg)|].
  unfold group_tally, next_tally. fold observed expected key t.
  replace (Z.of_nat (length observed) <? 2) with false
    by (symmetry; apply Z.ltb_ge; lia).
  replace (Z.of_nat (length expected) <? 2) with false
    by (symmetry; apply Z.ltb_ge; lia).
  cbn [orb]. cbv zeta.
  set (p_value := w_p_value _).
  pose proof (float_lt_nan p_value (alpha_level cfg)) as Hnan.
  destruct (float_lt p_value (alpha_level cfg)).
  - destruct (Qgtb _ _); cbn; repeat split; try lia;
      intros Hp; by specialize (Hnan Hp).
  - cbn. repeat split; lia.
Qed.

End WilcoxonFacts.

Module RepeatFacts.
Import Std SpotPreference SpotFacts RandomFacts ExpectedFacts WilcoxonFacts.

Lemma positive_spots_length k flags :
  (length (positive_spots k flags) ≤ length flags)%nat.
Proof.
  revert k. induction flags as [|x flags IH]; intros k; [done|].
  rewrite positive_spots_cons. specialize (IH (k + 1)).
  destruct (truthy x); simpl; lia.
Qed.

Section Repeat.

Variable items : list (area * list Z).
Hypothesis items_perm : items ≡ₚ area2spots.
Variable cfg : config.
Variable wilcox_test : list Z → list Z → spec_float → wilcox_result.

(** The observed totals of records of 25 presence values stand for at
    most 25 positive spots. *)
Lemma observed_rows_valid (self : Start) :
  Forall (λ rec : record, length rec.2 = 25%nat) (species_spots_1 (db self)) →
  Forall (λ r, 0 ≤ n_spots r ≤ 25)
         (plate_area_totals_observed
            (db (set_plate_area_totals_observed items self))).
Proof.
  intros Hlen. rewrite observed_table. apply Forall_fmap.
  eapply Forall_impl; [exact Hlen|]. intros rec Hrec. simpl in *.
  pose proof (observed_row_column items items_perm rec A) as HA.
  pose proof (observed_row_column items items_perm rec B) as HB.
  pose proof (observed_row_column items items_perm rec C) as HC.
  pose proof (observed_row_column items items_perm rec D) as HD.
  cbn [column] in HA, HB, HC, HD. unfold n_spots. rewrite HA, HB, HC, HD.
  rewrite get_spots_from_record_positive, count_in_sum.
  - pose proof (positive_spots_length 1 rec.2). lia.
  - eapply Forall_impl; [apply positive_spots_range|].
    simpl. intros s. rewrite Hrec. lia.
Qed.

Lemma repeat_loop_ends (iterations : list Z) :
  ∀ self,
    Forall (λ r, 0 ≤ n_spots r ≤ 25) (plate_area_totals_observed (db self)) →
    fair (tape (random_state self)) →
    ∃ fuel0 self',
      (∀ fuel, (fuel0 ≤ fuel)%nat →
         for_each (λ self _,
                     let self := log (increase EmptyString) self in
                     self ← set_plate_area_totals_expected items fuel self ;
                     calculate_significance_wilcoxon_repeats cfg wilcox_test self)
                  iterations self = Ok self')
      ∧ plate_area_totals_observed (db self')
        = plate_area_totals_observed (db self)
      ∧ (parallel (plate_area_totals_observed (db self))
                  (plate_area_totals_expected (db self))
         ∨ iterations ≠ [] →
         parallel (plate_area_totals_observed (db self'))
                  (plate_area_totals_expected (db self'))).
Proof.
  induction iterations as [|i iterations IH]; intros self Hrows Hfair.
  - exists 0%nat, self. split; [done|]. split; [done|]. by intros [?|?].
  - destruct (set_plate_area_totals_expected_ends items items_perm
                (log (increase EmptyString) self) Hrows Hfair)
      as (fuel1 & self1 & H1 & Hobs1 & _ & Hpar1 & Htape1 & _).
    destruct (calculate_significance_wilcoxon_repeats_spec cfg wilcox_test self1)
      as (self2 & H2 & Hdb2 & Hrng2 & _).
    destruct (IH self2) as (fuel3 & self' & H3 & Hobs3 & Hpar3).
    { by rewrite Hdb2, Hobs1. }
    { by rewrite Hrng2, Htape1. }
    exists (fuel1 `max` fuel3)%nat, self'.
    split; [|split].
    + intros fuel Hfuel. cbn [for_each]. cbv zeta.
      rewrite (result_bind_Ok _ _ _ (H1 fuel ltac:(lia))).
      rewrite H2. cbn [mbind result_bind rbind]. apply H3. lia.
    + by rewrite Hobs3, Hdb2, Hobs1.
    + intros _. apply Hpar3. left. by rewrite Hdb2.
Qed.

End Repeat.

(** C6: after the observed totals of a table of records (25 presence values
    each) have been computed, every run of the expected totals ends and
    leaves an Expected table that is parallel to the Observed table, row by
    row the same plate ID and the same number of (random) positive spots, so
    both tables have the same number of rows, whatever the Expected table
    held before; and the same holds after any number of repeats.  (The
    generator is assumed not to stay away from an index for ever.) *)
Theorem C6_expected_totals (items : list (area * list Z)) (cfg : config)
    (wilcox_test : list Z → list Z → spec_float → wilcox_result)
    (self : Start) :
  items ≡ₚ area2spots →
  Forall (λ rec : record, length rec.2 = 25%nat) (species_spots_1 (db self)) →
  fair (tape (random_state self)) →
  let self1 := set_plate_area_totals_observed items self in
  let consistent (self2 : Start) :=
    plate_area_totals_observed (db self2) = plate_area_totals_observed (db self1)
    ∧ parallel (plate_area_totals_observed (db self2))
               (plate_area_totals_expected (db self2))
    ∧ pla_id <$> plate_area_totals_expected (db self2)
      = pla_id <$> plate_area_totals_observed (db self2)
    ∧ length (plate_area_totals_expected (db self2))
      = length (plate_area_totals_observed (db self2)) in
  (∃ fuel0 self2,
     (∀ fuel, (fuel0 ≤ fuel)%nat →
        set_plate_area_totals_expected items fuel self1 = Ok self2)
     ∧ consistent self2)
  ∧ (∀ number, 0 < number →
       ∃ fuel0 self2,
         (∀ fuel, (fuel0 ≤ fuel)%nat →
            repeat_test items cfg wilcox_test fuel number self1 = Ok self2)
         ∧ consistent self2).
Proof.
  intros Hp Hlen Hfair self1 consistent.
  pose proof (observed_rows_valid items Hp self Hlen) as Hrows.
  split.
  - destruct (set_plate_area_totals_expected_ends items Hp self1 Hrows Hfair)
      as (fuel0 & self2 & H & Hobs & _ & Hpar & _).
    exists fuel0, self2. split; [done|]. split; [done|]. split; [done|].
    split; [by apply parallel_pla_id|]. symmetry. by apply parallel_length.
  - intros number Hnumber.
    destruct (repeat_loop_ends items Hp cfg wilcox_test (range number) self1
                Hrows Hfair) as (fuel0 & self2 & H & Hobs & Hpar).
    exists fuel0, self2. split; [done|]. split; [done|].
    assert (range number ≠ []) as Hne.
    { unfold range. rewrite seqZ_cons by lia. done. }
    specialize (Hpar (or_intror Hne)).
    split; [done|]. split; [by apply parallel_pla_id|].
    symmetry. by apply parallel_length.
Qed.

End RepeatFacts.

Module AreasFacts.
Import Std SpotPreference.

(** Both [get_defined_areas_totals_observed] and [get_area_probabilities]
    accumulate into a dictionary that was filled beforehand:
    [d[name] += x] for every [x] of a sequence, for every item of the plate
    areas definition. *)
Section Accumulate.

Context {V X Y : Type}.
Variable op : V → X → V.
Variable values : Y → list X.

Definition add (name : string) (d : gmap string V) (x : X)
  : result (gmap string V) :=
  match d !! name with
  | Some v => Ok (<[name := op v x]> d)
  | None => Raise KeyError
  end.

Definition accumulate (d : gmap string V) (item : string * Y)
  : result (gmap string V) :=
  for_each (add item.1) (values item.2) d.

Lemma add_loop_Some name xs : ∀ d v,
  d !! name = Some v →
  for_each (add name) xs d = Ok (<[name := foldl op v xs]> d).
Proof.
  induction xs as [|x xs IH]; intros d v Hd; cbn [for_each foldl].
  - by rewrite insert_id.
  - replace (add name d x) with (Ok (<[name := op v x]> d))
      by (unfold add; by rewrite Hd).
    cbn [mbind result_bind rbind].
    rewrite (IH _ (op v x)) by apply lookup_insert_eq.
    by rewrite insert_insert_eq.
Qed.


Lemma add_loop_alter name xs d :
  is_Some (d !! name) ∨ xs = [] →
  for_each (add name) xs d = Ok (alter (λ v, foldl op v xs) name d).
Proof.
  intros [[v Hv]| ->].
  - rewrite (add_loop_Some _ _ _ v Hv). f_equal.
    apply map_eq. intros k. destruct (decide (k = name)) as [->|Hne].
    + by rewrite lookup_insert_eq, lookup_alter_eq, Hv.
    + by rewrite lookup_insert_ne, lookup_alter_ne.
  - simpl. f_equal. apply map_eq. intros k.
    destruct (decide (k = name)) as [->|Hne].
    + rewrite lookup_alter_eq. by destruct (d !! name).
    + by rewrite lookup_alter_ne.
Qed.

(** The dictionary after all items, when no item fails. *)
Definition accumulated (d : gmap string V) (l : list (string * Y))
  : gmap string V :=
  foldl (λ d item, alter (λ v, foldl op v (values item.2)) item.1 d) d l.

Lemma accumulated_dom l : ∀ d, dom (accumulated d l) = dom d.
Proof.
  induction l as [|item l IH]; intros d; [done|].
  simpl. rewrite IH. apply dom_alter_L.
Qed.

Lemma accumulate_Ok l : ∀ d,
  (∀ name y, (name, y) ∈ l → name ∈ dom d ∨ values y = []) →
  for_each accumulate l d = Ok (accumulated d l).
Proof.
  induction l as [|[name y] l IH]; intros d Hl; [done|].
  cbn [for_each].
  change (accumulate d (name, y)) with (for_each (add name) (values y) d).
  rewrite add_loop_alter.
  - cbn [mbind result_bind rbind]. apply IH. intros name' y' Hin.
    rewrite dom_alter_L. apply Hl. by apply list_elem_of_further.
  - destruct (Hl name y (list_elem_of_here _ _)) as [Hd| ->]; [|by right].
    left. by apply elem_of_dom.
Qed.


Lemma accumulated_lookup l : ∀ d name y,
  NoDup l.*1 → (name, y) ∈ l →
  accumulated d l !! name = (λ v, foldl op v (values y)) <$> d !! name.
Proof.
  induction l as [|[name0 y0] l IH]; intros d name y Hnd Hin.
  - by apply elem_of_nil in Hin.
  - rewrite fmap_cons in Hnd. apply NoDup_cons in Hnd as [Hfresh Hnd].
    cbn [accumulated foldl fst snd].
    apply elem_of_cons in Hin as [[= <- <-]|Hin].
    + fold (accumulated (alter (λ v, foldl op v (values y)) name d) l).
      enough (∀ l' d', name ∉ l'.*1 → accumulated d' l' !! name = d' !! name)
        as Hskip by (rewrite Hskip by done; apply lookup_alter_eq).
      clear. induction l' as [|[n y'] l' IH]; intros d' Hn; [done|].
      rewrite fmap_cons in Hn. apply not_elem_of_cons in Hn as [Hne Hn].
      cbn [accumulated foldl fst snd].
      fold (accumulated (alter (λ v, foldl op v (values y')) n d') l').
      rewrite IH by done. by apply lookup_alter_ne.
    + fold (accumulated (alter (λ v, foldl op v (values y0)) name0 d) l).
      rewrite (IH _ name y Hnd Hin). rewrite lookup_alter_ne; [done|].
      intros ->. apply Hfresh. by apply (list_elem_of_fmap_2 fst _ (name, y)).
Qed.

End Accumulate.

(** Removing the unused areas: what stays is what the definition names. *)
Lemma unused_removed {V W} (definition : gmap string W) (d : gmap string V) :
  foldl (λ m area, delete area m) d
    (foldl (λ delete_ area,
              if bool_decide (area ∈ dom definition) then delete_
              else delete_ ++ [area]) [] (map_to_list d).*1)
  = filter (λ kv, kv.1 ∈ dom definition) d.
Proof.
  assert (∀ keys acc,
    foldl (λ delete_ area,
             if bool_decide (area ∈ dom definition) then delete_
             else delete_ ++ [area]) acc keys
    = acc ++ filter (λ area, area ∉ dom definition) keys) as Hfilter.
  { induction keys as [|k keys IH]; intros acc; simpl.
    - by rewrite app_nil_r.
    - rewrite IH, filter_cons. case_bool_decide.
      + by rewrite decide_False by tauto.
      + rewrite decide_True by done. by rewrite <-app_assoc. }
  rewrite Hfilter. simpl.
  assert (∀ (l : list string) (m : gmap string V) k,
    foldl (λ m area, delete area m) m l !! k
    = if decide (k ∈ l) then None else m !! k) as Hdel.
  { induction l as [|a l IH]; intros m k; simpl; [done|].
    rewrite IH. destruct (decide (k = a)) as [->|Hne].
    - rewrite (decide_True (P := a ∈ a :: l)) by apply list_elem_of_here.
      rewrite lookup_delete_eq. by destruct (decide _).
    - rewrite lookup_delete_ne by done.
      destruct (decide (k ∈ l)) as [Hl|Hl].
      + by rewrite (decide_True (P := k ∈ a :: l))
          by by apply list_elem_of_further.
      + rewrite (decide_False (P := k ∈ a :: l)); [done|].
        by intros [?|?]%elem_of_cons. }
  apply map_eq. intros k. rewrite Hdel.
  destruct (decide (k ∈ dom definition)) as [Hin|Hout].
  - rewrite decide_False by (by intros [? _]%list_elem_of_filter).
    destruct (d !! k) as [v|] eqn:Hk; symmetry.
    + by apply map_lookup_filter_Some.
    + apply map_lookup_filter_None. left. done.
  - destruct (d !! k) as [v|] eqn:Hk.
    + rewrite decide_True.
      * symmetry. apply map_lookup_filter_None. right. intros v' _. done.
      * apply list_elem_of_filter. split; [done|].
        apply (list_elem_of_fmap_2 fst _ (k, v)). by apply elem_of_map_to_list.
    + transitivity (@None V); [by destruct (decide _)|].
      symmetry. apply map_lookup_filter_None. by left.
Qed.



Lemma foldl_add_sumZ (l : list Z) (v : Z) : foldl Z.add v l = v + sumZ l.
Proof.
  revert v. induction l as [|x l IH]; intros v; simpl; [lia|].
  rewrite IH. fold (sumZ l). lia.
Qed.

(** The names of the dictionaries filled beforehand. *)
Definition area_names : gset string :=
  {[ "area1"; "area2"; "area3"; "area4" ]}.

Definition totals_zero : gmap string Z :=
  {[ "area1" := 0; "area2" := 0; "area3" := 0; "area4" := 0 ]}.

Lemma totals_zero_dom : dom totals_zero = area_names.
Proof.
  unfold totals_zero, area_names.
  rewrite !dom_insert_L, dom_singleton_L.
  apply set_eq. intros x. rewrite !elem_of_union. tauto.
Qed.

Lemma totals_zero_lookup name :
  name ∈ area_names → totals_zero !! name = Some 0.
Proof.
  unfold area_names, totals_zero.
  rewrite !elem_of_union, !elem_of_singleton.
  intros [[[->| ->]| ->]| ->]; reflexivity.
Qed.

Section Totals.

Variable cfg : config.

Lemma get_defined_areas_totals_observed_eq (self : Start) :
  get_defined_areas_totals_observed cfg self
  = (d ← for_each
           (accumulate Z.add
              (get_area_totals (plate_area_totals_observed (db self))))
           (map_to_list (plate_areas_definition cfg)) totals_zero ;
     Ok (filter (λ kv, kv.1 ∈ dom (plate_areas_definition cfg)) d)).
Proof.
  unfold get_defined_areas_totals_observed. fold totals_zero.
  rewrite (for_each_ext _
             (accumulate Z.add
                (get_area_totals (plate_area_totals_observed (db self)))))
    by (intros s [name group]; reflexivity).
  destruct (for_each _ _ _) as [d|e]; [|done].
  cbn [mbind result_bind rbind]. f_equal. apply unused_removed.
Qed.

Lemma get_area_totals_length table area_group :
  length (get_area_totals table area_group) = length table.
Proof. apply length_fmap. Qed.

End Totals.

(** C7 (amended): when every bucket name of the plate areas definition is
    one of 'area1' .. 'area4', the aggregation of the observed totals returns
    a mapping whose keys are exactly the bucket names of the definition, and
    the value of each bucket is the sum over all rows of the observed table
    of the totals of the plate areas assigned to the bucket. *)
Theorem C7_defined_areas_totals (cfg : config) (self : Start) :
  dom (plate_areas_definition cfg) ⊆ area_names →
  ∃ totals,
    get_defined_areas_totals_observed cfg self = Ok totals
    ∧ dom totals = dom (plate_areas_definition cfg)
    ∧ ∀ name area_group,
        plate_areas_definition cfg !! name = Some area_group →
        totals !! name
        = Some (sumZ ((λ r, sumZ ((λ a, column a r)
                                    <$> filter (λ a, a ∈ area_group) [A; B; C; D]))
                        <$> plate_area_totals_observed (db self))).
Proof.
  intros Hnames. rewrite get_defined_areas_totals_observed_eq.
  set (definition := plate_areas_definition cfg) in *.
  set (table := plate_area_totals_observed (db self)).
  rewrite accumulate_Ok.
  2:{ intros name y Hin%elem_of_map_to_list. left.
      rewrite totals_zero_dom. apply Hnames. apply elem_of_dom. eauto. }
  cbn [mbind result_bind rbind]. eexists. split; [done|]. split.
  - apply set_eq. intros k. rewrite elem_of_dom.
    split.
    + intros [v [_ Hk]%map_lookup_filter_Some]. done.
    + intros Hk. assert (k ∈ dom (accumulated Z.add (get_area_totals table)
                                    totals_zero (map_to_list definition)))
        as [v Hv]%elem_of_dom.
      { rewrite accumulated_dom, totals_zero_dom. by apply Hnames. }
      exists v. by apply map_lookup_filter_Some.
  - intros name area_group Hdef.
    apply map_lookup_filter_Some. split; [|apply elem_of_dom; eauto].
    rewrite (accumulated_lookup _ _ _ _ name area_group).
    + rewrite totals_zero_lookup by (apply Hnames, elem_of_dom; eauto).
      simpl. by rewrite foldl_add_sumZ.
    + apply NoDup_fst_map_to_list.
    + by apply elem_of_map_to_list.
Qed.


Definition probabilities_zero : gmap string spec_float :=
  {[ "area1" := float_of_Z 0; "area2" := float_of_Z 0;
     "area3" := float_of_Z 0; "area4" := float_of_Z 0 ]}.

Lemma probabilities_zero_dom : dom probabilities_zero = area_names.
Proof.
  unfold probabilities_zero, area_names.
  rewrite !dom_insert_L, dom_singleton_L.
  apply set_eq. intros x. rewrite !elem_of_union. tauto.
Qed.

Lemma get_area_probabilities_eq (cfg : config) :
  get_area_probabilities cfg
  = (d ← for_each
           (accumulate (λ v spot_name, float_add v (probabilities spot_name)) id)
           (map_to_list (plate_areas_definition cfg)) probabilities_zero ;
     Ok (filter (λ kv, kv.1 ∈ dom (plate_areas_definition cfg)) d)).
Proof.
  unfold get_area_probabilities. fold probabilities_zero.
  rewrite (for_each_ext _
             (accumulate (λ v spot_name, float_add v (probabilities spot_name)) id))
    by (intros s [name group]; reflexivity).
  destruct (for_each _ _ _) as [d|e]; [|done].
  cbn [mbind result_bind rbind]. f_equal. apply unused_removed.
Qed.

(** A definition with a bucket of another name, and the two tables used
    below: no plate at all, and one plate with the spots 1, 2 and 5. *)
Definition corners_cfg : config :=
  {| alpha_level := float_div (float_of_Z 5) (float_of_Z 100);
     test_repeats := 1;
     plate_areas_definition := {[ "corners" := [A] ]};
     locations_selection := λ _, [];
     localities := [] |}.

Definition no_plates : Start :=
  Start_init {| species_spots_1 := [];
                plate_area_totals_observed := [];
                plate_area_totals_expected := [] |}
             {| tape := λ _, 0; pos := 0 |}.

Definition one_plate : Start :=
  Start_init {| species_spots_1 := [];
                plate_area_totals_observed :=
                  [ {| pla_id := 7; area_a := 2; area_b := 1;
                       area_c := 0; area_d := 0 |} ];
                plate_area_totals_expected := [] |}
             {| tape := λ _, 0; pos := 0 |}.

(** C7 as stated fails for a definition with a bucket that is not named
    'area1' .. 'area4': with no plate the result lacks the bucket, with a
    plate no mapping is returned. *)
Lemma C7_counterexample :
  plate_areas_definition corners_cfg !! "corners" = Some [A]
  ∧ get_defined_areas_totals_observed corners_cfg no_plates = Ok ∅
  ∧ get_defined_areas_totals_observed corners_cfg one_plate = Raise KeyError.
Proof. repeat split. Qed.

Definition three_areas_cfg : config :=
  {| alpha_level := float_div (float_of_Z 5) (float_of_Z 100);
     test_repeats := 1;
     plate_areas_definition :=
       {[ "area1" := [A]; "area2" := [B]; "area3" := [C; D] ]};
     locations_selection := λ _, [];
     localities := [] |}.

Lemma three_areas_names :
  dom (plate_areas_definition three_areas_cfg) ⊆ area_names.
Proof.
  unfold three_areas_cfg, area_names; simpl.
  rewrite !dom_insert_L, dom_singleton_L.
  intros x. rewrite !elem_of_union. tauto.
Qed.

Lemma C7_witness :
  ∃ totals,
    get_defined_areas_totals_observed three_areas_cfg one_plate = Ok totals
    ∧ dom totals = dom (plate_areas_definition three_areas_cfg)
    ∧ ∀ name area_group,
        plate_areas_definition three_areas_cfg !! name = Some area_group →
        totals !! name
        = Some (sumZ ((λ r, sumZ ((λ a, column a r)
                                    <$> filter (λ a, a ∈ area_group) [A; B; C; D]))
                        <$> plate_area_totals_observed (db one_plate))).
Proof.
  apply (C7_defined_areas_totals three_areas_cfg one_plate).
  apply three_areas_names.
Defined.





End AreasFacts.

Module RunFacts.
Import Std SpotPreference AreasFacts.

(** What [run] reports before it looks at the observed totals. *)
Definition first_steps (cfg : config) : list event :=
  [ set_total_steps (7 + test_repeats cfg);
    increase "Creating table with species spots...";
    increase "Making plate IDs in species spots table unique...";
    increase "Calculating the observed plate area totals for each plate..." ].

(** C3: when the observed totals of the user defined plate areas add up to
    zero, [run] returns normally (no exception is raised) right after the
    signal 'analysis-aborted' has been handed to the main loop: nothing is
    added to the trace but the progress steps and that signal, so neither
    the Wilcoxon test nor the Chi-squared test is invoked, no statistics are
    recorded and no report is made. *)
Theorem C3_abort_on_zero_totals (items : list (area * list Z)) (cfg : config)
    (wilcox_test : list Z → list Z → spec_float → wilcox_result)
    (chisq_test : list Z → list spec_float → chisq_result)
    (float_str : spec_float → string) (fuel : nat) (self : Start)
    (observed : gmap string Z) :
  get_defined_areas_totals_observed cfg
    (set_plate_area_totals_observed items self) = Ok observed →
  sumZ (map_to_list observed).*2 = 0 →
  ∃ self',
    run items cfg wilcox_test chisq_test float_str fuel self = Ok self'
    ∧ trace self'
      = trace self ++ first_steps cfg ++ [idle_add_emit "analysis-aborted"]
    ∧ filter (λ e, is_test e = true) (trace self')
      = filter (λ e, is_test e = true) (trace self)
    ∧ chisq_observed self' = Some observed
    ∧ statistics_wilcoxon self' = statistics_wilcoxon self
    ∧ statistics_chi_squared self' = statistics_chi_squared self
    ∧ statistics_repeats self' = statistics_repeats self
    ∧ analysis_report self' = analysis_report self.
Proof.
  intros Hobserved Hzero. unfold run.
  set (self0 := log _ (log _ (log _ (log _ self)))).
  assert (get_defined_areas_totals_observed cfg
            (set_plate_area_totals_observed items self0) = Ok observed) as ->.
  { rewrite <-Hobserved. rewrite !get_defined_areas_totals_observed_eq.
    reflexivity. }
  cbn [mbind result_bind rbind]. cbv zeta.
  rewrite foldl_add_sumZ, Hzero. cbn [Z.add Z.eqb].
  eexists. split; [reflexivity|].
  cbn [trace log with_chisq_observed set_plate_area_totals_observed with_db
       chisq_observed statistics_wilcoxon statistics_chi_squared
       statistics_repeats analysis_report self0].
  rewrite <-!app_assoc. split; [reflexivity|].
  split; [|done].
  rewrite !filter_app. cbn. by rewrite !app_nil_r.
Qed.

(** Tests that find nothing but NaN. *)
Definition wilcox_nan (x y : list Z) (conf_level : spec_float) : wilcox_result :=
  {| w_method := EmptyString; w_alternative := EmptyString;
     w_p_value := S754_nan |}.

Definition chisq_nan (x : list Z) (p : list spec_float) : chisq_result :=
  {| c_method := EmptyString; c_statistic := S754_nan; c_p_value := S754_nan;
     c_df := S754_nan; c_expected := p |}.

Lemma C3_witness :
  ∃ self',
    run area2spots three_areas_cfg wilcox_nan chisq_nan (λ _, EmptyString)
      0 no_plates = Ok self'
    ∧ trace self'
      = trace no_plates ++ first_steps three_areas_cfg
        ++ [idle_add_emit "analysis-aborted"]
    ∧ filter (λ e, is_test e = true) (trace self')
      = filter (λ e, is_test e = true) (trace no_plates)
    ∧ chisq_observed self'
      = Some {[ "area1" := 0; "area2" := 0; "area3" := 0 ]}
    ∧ statistics_wilcoxon self' = statistics_wilcoxon no_plates
    ∧ statistics_chi_squared self' = statistics_chi_squared no_plates
    ∧ statistics_repeats self' = statistics_repeats no_plates
    ∧ analysis_report self' = analysis_report no_plates.
Proof.
  apply (C3_abort_on_zero_totals area2spots three_areas_cfg _ _ _ 0%nat
           no_plates {[ "area1" := 0; "area2" := 0; "area3" := 0 ]}).
  - reflexivity.
  - reflexivity.
Defined.

End RunFacts.

Module ReportFacts.
Import Std.

Section Dom.

Variable float_str : spec_float → string.

(** A new element without attributes, children or text, appended to an
    element [p] of the document. *)
Lemma create_element_plain (p : nat) (name : string) (d : Document) pn pa pcs :
  after_colon name = None →
  nodes d !! p = Some (Element pn pa pcs) →
  let n := length (nodes d) in
  let r := create_element float_str p name [] [] None d in
  r.1 = n
  ∧ doc_childNodes r.2 = doc_childNodes d
  ∧ length (nodes r.2) = S n
  ∧ nodes r.2 !! p = Some (Element pn pa (pcs ++ [n]))
  ∧ nodes r.2 !! n = Some (Element name ∅ [])
  ∧ ∀ i, i ≠ p → (i < n)%nat → nodes r.2 !! i = nodes d !! i.
Proof.
  intros Hname Hp n r. destruct d as [L dc]. simpl in *.
  pose proof (lookup_lt_Some _ _ _ Hp) as Hlt.
  unfold r, create_element, createElementNS, appendChild, update_node.
  cbn [nodes doc_childNodes fst snd foldl]. rewrite Hname. cbn [default].
  fold n. split; [done|]. split; [done|].
  split; [rewrite length_alter, length_app; simpl; lia|].
  split; [|split].
  - rewrite list_lookup_alter_eq, lookup_app_l, Hp by done. done.
  - rewrite list_lookup_alter_ne by lia.
    by rewrite lookup_app_r, Nat.sub_diag by done.
  - intros i Hi Hin. rewrite list_lookup_alter_ne by done.
    by rewrite lookup_app_l.
Qed.

(** An element [area] with the attribute [id] and a text, appended to an
    element [p] of the document. *)
Lemma create_element_area (p : nat) (area : string) (total : pyval)
    (d : Document) pn pa pcs :
  nodes d !! p = Some (Element pn pa pcs) →
  let n := length (nodes d) in
  let d' := (create_element float_str p "area" [] [("id", PyStr area)]
               (Some total) d).2 in
  doc_childNodes d' = doc_childNodes d
  ∧ length (nodes d') = S (S n)
  ∧ nodes d' !! p = Some (Element pn pa (pcs ++ [n]))
  ∧ nodes d' !! n = Some (Element "area" {[ "id" := area ]} [S n])
  ∧ nodes d' !! S n = Some (Text (py_str float_str total))
  ∧ ∀ i, i ≠ p → (i < n)%nat → nodes d' !! i = nodes d !! i.
Proof.
  intros Hp n d'. destruct d as [L dc]. simpl in *.
  pose proof (lookup_lt_Some _ _ _ Hp) as Hlt.
  unfold d', create_element, createElementNS, createTextNode, appendChild,
    setAttribute, update_node.
  cbn [nodes doc_childNodes fst snd foldl after_colon Ascii.eqb Bool.eqb
       default py_str].
  fold n.
  assert (length (alter
            (λ nd, match nd with
                   | Element n0 a cs => Element n0 (<["id":=area]> a) cs
                   | Text v => Text v
                   end) n
            (alter
               (λ nd, match nd with
                      | Element n0 a cs => Element n0 a (cs ++ [n])
                      | Text v => Text v
                      end) p (L ++ [Element "area" ∅ []]))) = S n) as Hlen.
  { rewrite !length_alter, length_app. simpl. lia. }
  rewrite Hlen.
  split; [done|].
  split; [rewrite length_alter, length_app, Hlen; simpl; lia|].
  split; [|split; [|split]].
  - rewrite list_lookup_alter_ne by lia.
    rewrite lookup_app_l by lia.
    rewrite list_lookup_alter_ne by lia.
    rewrite list_lookup_alter_eq, lookup_app_l, Hp by done. done.
  - rewrite list_lookup_alter_eq.
    rewrite lookup_app_l by lia.
    rewrite list_lookup_alter_eq.
    rewrite list_lookup_alter_ne by lia.
    rewrite lookup_app_r, Nat.sub_diag by done. simpl.
    by rewrite insert_empty.
  - rewrite list_lookup_alter_ne by lia.
    rewrite lookup_app_r by lia. by rewrite Hlen, Nat.sub_diag.
  - intros i Hi Hin.
    rewrite list_lookup_alter_ne by lia.
    rewrite lookup_app_l by lia.
    rewrite list_lookup_alter_ne by lia.
    rewrite list_lookup_alter_ne by done.
    by rewrite lookup_app_l.
Qed.


(** The child [c] of the element [p] is an [area] element that carries an
    item of the totals: its name as the attribute [id], its value as text. *)
Definition area_child (d : Document) (p c : nat) (item : string * pyval)
  : Prop :=
  c ≠ p
  ∧ ∃ t, t ≠ p
         ∧ nodes d !! c = Some (Element "area" {[ "id" := item.1 ]} [t])
         ∧ nodes d !! t = Some (Text (py_str float_str item.2)).

Lemma area_child_stable (d d' : Document) p c item :
  (∀ i, i ≠ p → (i < length (nodes d))%nat → nodes d' !! i = nodes d !! i) →
  area_child d p c item → area_child d' p c item.
Proof.
  intros Hsame (Hc & t & Ht & Hnc & Hnt). split; [done|]. exists t.
  split; [done|].
  rewrite !Hsame by (done || by eapply lookup_lt_Some). done.
Qed.

Lemma area_loop (items : list (string * pyval)) :
  ∀ (d : Document) (p : nat) name cs done,
    nodes d !! p = Some (Element name ∅ cs) →
    Forall2 (area_child d p) cs done →
    let d' := foldl (λ d '(area, total),
                       (create_element float_str p "area" []
                          [("id", PyStr area)] (Some total) d).2) d items in
    doc_childNodes d' = doc_childNodes d
    ∧ (length (nodes d) ≤ length (nodes d'))%nat
    ∧ (∀ i, i ≠ p → (i < length (nodes d))%nat →
            nodes d' !! i = nodes d !! i)
    ∧ ∃ cs', nodes d' !! p = Some (Element name ∅ cs')
             ∧ Forall2 (area_child d' p) cs' (done ++ items).
Proof.
  induction items as [|[area total] items IH]; intros d p name cs done Hp Hcs d'.
  - subst d'. simpl. split; [done|]. split; [done|]. split; [done|].
    exists cs. by rewrite app_nil_r.
  - subst d'. cbn [foldl].
    destruct (create_element_area p area total d name ∅ cs Hp)
      as (Hdc & Hlen & Hp1 & Hn & Ht & Hold).
    set (d1 := (create_element float_str p "area" [] [("id", PyStr area)]
                  (Some total) d).2) in *.
    pose proof (lookup_lt_Some _ _ _ Hp) as Hlt.
    destruct (IH d1 p name (cs ++ [length (nodes d)]) (done ++ [(area, total)])
                Hp1) as (Hdc' & Hlen' & Hold' & cs' & Hp' & Hcs').
    { apply Forall2_app.
      - eapply Forall2_impl; [exact Hcs|]. intros c item.
        by apply area_child_stable.
      - constructor; [|constructor]. split; [lia|].
        exists (S (length (nodes d))). split; [lia|]. done. }
    split; [congruence|]. split; [lia|]. split.
    + intros i Hi Hin. rewrite Hold' by (done || lia). by apply Hold.
    + exists cs'. split; [done|]. by rewrite <-app_assoc in Hcs'.
Qed.

(** The loop of the reader over the children of the totals element. *)
Definition read_area (d : Document) (totals : gmap string pyval) (e : nat)
  : result (gmap string pyval) :=
  nd ← node_at d e ;
  if is_element nd "area" then
    let area_id := getAttribute nd "id" in
    v ← first_child_text d nd ;
    Ok (<[area_id := PyStr v]> totals)
  else Ok totals.

Lemma read_area_child (d : Document) (p c : nat) item totals :
  area_child d p c item →
  read_area d totals c
  = Ok (<[item.1 := PyStr (strip (py_str float_str item.2))]> totals).
Proof.
  intros (_ & t & _ & Hc & Ht).
  unfold read_area, node_at. rewrite Hc.
  cbn [mbind result_bind rbind is_element].
  rewrite bool_decide_eq_true_2 by done.
  unfold first_child_text, node_at. cbn [childNodes_of].
  change (getitem [t] 0) with (Ok t). cbn [mbind result_bind rbind].
  rewrite Ht. cbn [mbind result_bind rbind getAttribute].
  by rewrite lookup_singleton_eq.
Qed.

Lemma read_area_loop (d : Document) (p : nat) cs items :
  Forall2 (area_child d p) cs items →
  ∀ totals,
    for_each (read_area d) cs totals
    = Ok (foldl (λ m item, <[item.1 := PyStr (strip (py_str float_str item.2))]> m)
                totals items).
Proof.
  induction 1 as [|c item cs items Hc _ IH]; intros totals; [done|].
  cbn [for_each foldl]. rewrite (read_area_child _ _ _ _ _ Hc).
  cbn [mbind result_bind rbind]. apply IH.
Qed.


(** A generator whose report has no element [name] yet. *)
Definition ready (name : string) (r : ReportGenerator) : Prop :=
  doc_childNodes (doc r) = [report r]
  ∧ ∃ attrs cs,
      nodes (doc r) !! report r = Some (Element "report" attrs cs)
      ∧ Forall (λ c, c ≠ report r
                     ∧ ∃ nd, nodes (doc r) !! c = Some nd
                             ∧ is_element nd name = false) cs.

Lemma ReportGenerator_init_ready name : ready name ReportGenerator_init.
Proof.
  split; [reflexivity|]. eexists _, []. split; [reflexivity|constructor].
Qed.

Lemma node_at_Some (d : Document) i nd :
  nodes d !! i = Some nd → node_at d i = Ok nd.
Proof. unfold node_at. by intros ->. Qed.

Lemma get_element_finds (d : Document) (name : string) top attrs cs p nm cs' :
  doc_childNodes d = [top] →
  nodes d !! top = Some (Element "report" attrs (cs ++ [p])) →
  Forall (λ c, ∃ nd, nodes d !! c = Some nd ∧ is_element nd name = false) cs →
  nodes d !! p = Some (Element nm ∅ cs') → nm = name →
  get_element d name = Ok (Some p).
Proof.
  intros Hdc Htop Hcs Hp Hnm. unfold get_element. rewrite Hdc.
  change (getitem [top] 0) with (Ok top). cbn [mbind result_bind rbind].
  rewrite (node_at_Some _ _ _ Htop).
  cbn [mbind result_bind rbind childNodes_of]. clear Htop.
  induction Hcs as [|c cs (nd & Hc & Hnd) _ IH].
  - cbn [app for_each]. rewrite (node_at_Some _ _ _ Hp).
    cbn [mbind result_bind rbind is_element].
    by rewrite bool_decide_eq_true_2.
  - cbn [app for_each]. rewrite (node_at_Some _ _ _ Hc).
    cbn [mbind result_bind rbind]. rewrite Hnd.
    destruct cs; apply IH.
Qed.

(** Writing the items of the totals and reading them back. *)
Lemma area_totals_written_read (name : string) (items : list (string * pyval))
    (r : ReportGenerator) :
  after_colon name = None →
  ready name r →
  let d := get_report (set_area_totals float_str name items r) in
  ReportReader_init d = Ok d
  ∧ get_area_totals_from name d
    = Ok (Some (foldl (λ m item,
                         <[item.1 := PyStr (strip (py_str float_str item.2))]> m)
                      ∅ items)).
Proof.
  intros Hname (Hdc & attrs & rcs & Hreport & Hrcs) d.
  pose proof (lookup_lt_Some _ _ _ Hreport) as Hlt.
  destruct (create_element_plain (report r) name (doc r) "report" attrs rcs
              Hname Hreport) as (Hid & Hdc1 & Hlen1 & Hrep1 & Hn1 & Hold1).
  unfold d, get_report, set_area_totals.
  destruct (create_element float_str (report r) name [] [] None (doc r))
    as [p d1] eqn:Hcreate.
  cbn [fst snd] in *. cbn [doc].
  destruct (area_loop items d1 p name [] [] ltac:(by rewrite Hid) ltac:(constructor))
    as (Hdc2 & Hlen2 & Hold2 & cs' & Hp2 & Hcs').
  cbn [app] in Hcs'.
  set (d2 := foldl _ d1 items) in *.
  assert (nodes d2 !! report r = Some (Element "report" attrs (rcs ++ [p])))
    as Hrep2.
  { rewrite Hold2 by lia. by rewrite Hid. }
  assert (doc_childNodes d2 = [report r]) as Hdcf by congruence.
  split.
  - unfold ReportReader_init. rewrite Hdcf.
    change (getitem [report r] 0) with (Ok (report r)).
    cbn [mbind result_bind rbind]. rewrite (node_at_Some _ _ _ Hrep2).
    cbn [mbind result_bind rbind is_element].
    by rewrite bool_decide_eq_true_2.
  - unfold get_area_totals_from.
    assert (Forall (λ c, ∃ nd, nodes d2 !! c = Some nd
                               ∧ is_element nd name = false) rcs) as Hrcs2.
    { eapply Forall_impl; [exact Hrcs|].
      intros c (Hc & nd & Hnd & Hel). exists nd. split; [|done].
      pose proof (lookup_lt_Some _ _ _ Hnd).
      rewrite Hold2, Hold1 by lia. done. }
    rewrite (get_element_finds d2 name (report r) attrs rcs p name cs'
               Hdcf Hrep2 Hrcs2 Hp2 eq_refl).
    cbn [mbind result_bind rbind]. rewrite (node_at_Some _ _ _ Hp2).
    cbn [mbind result_bind rbind childNodes_of].
    change (for_each _ cs' ∅) with (for_each (read_area d2) cs' ∅).
    by rewrite (read_area_loop d2 p cs' items Hcs').
Qed.

End Dom.

(** *** The text of an integer *)

Fixpoint no_space (s : string) : Prop :=
  match s with
  | EmptyString => True
  | String c s' => is_space c = false ∧ no_space s'
  end.

Lemma rstrip_no_space s : no_space s → rstrip s = s.
Proof.
  induction s as [|c s IH]; [done|]. intros [Hc Hs]. cbn [rstrip].
  rewrite (IH Hs). destruct s; [by rewrite Hc|done].
Qed.

Lemma strip_no_space s : no_space s → strip s = s.
Proof.
  intros Hs. unfold strip.
  replace (lstrip s) with s; [by apply rstrip_no_space|].
  destruct s as [|c s]; [done|]. destruct Hs as [Hc _]. cbn [lstrip].
  by rewrite Hc.
Qed.

Lemma string_of_uint_no_space d : no_space (NilEmpty.string_of_uint d).
Proof. induction d; simpl; auto. Qed.

Lemma str_int_no_space z : no_space (str_int z).
Proof.
  unfold str_int, NilZero.string_of_int, NilZero.string_of_uint.
  destruct (Z.to_int z) as [d|d]; destruct d; simpl;
    auto using string_of_uint_no_space.
Qed.

Lemma strip_str_int z : strip (str_int z) = str_int z.
Proof. apply strip_no_space, str_int_no_space. Qed.

(** [int(str(z)) == z] *)
Lemma int_of_str_str_int z : int_of_str (str_int z) = Some z.
Proof.
  unfold int_of_str, str_int. rewrite NilZero.isi.
  - simpl. by rewrite DecimalZ.of_to.
  - destruct z; simpl; try discriminate.
    intros [= H]. by apply DecimalPos.Unsigned.to_uint_nonnil in H.
  - destruct z; simpl; try discriminate.
    intros [= H]. by apply DecimalPos.Unsigned.to_uint_nonnil in H.
Qed.

Lemma foldl_insert_items {A B} (f : A → B) (l : list (string * A)) :
  ∀ acc : gmap string B,
    NoDup l.*1 →
    foldl (λ m item, <[item.1 := f item.2]> m) acc l
    = (f <$> list_to_map l) ∪ acc.
Proof.
  induction l as [|[k v] l IH]; intros acc Hnd.
  - simpl. by rewrite fmap_empty, (left_id_L ∅ (∪)).
  - rewrite fmap_cons in Hnd. apply NoDup_cons in Hnd as [Hk Hnd].
    cbn [foldl fst snd]. rewrite IH by done.
    cbn [list_to_map foldr]. rewrite fmap_insert.
    apply map_eq. intros i. rewrite !lookup_union.
    destruct (decide (i = k)) as [->|Hne].
    + rewrite !lookup_insert_eq, lookup_fmap.
      rewrite (proj1 (not_elem_of_list_to_map l k) Hk).
      by destruct (acc !! k).
    + by rewrite !lookup_insert_ne.
Qed.

Lemma foldl_insert_map_to_list {A B} (f : A → B) (m : gmap string A) :
  foldl (λ acc item, <[item.1 := f item.2]> acc) ∅ (map_to_list m) = f <$> m.
Proof.
  rewrite foldl_insert_items by apply NoDup_fst_map_to_list.
  by rewrite list_to_map_to_list, (right_id_L ∅ (∪)).
Qed.

(** What the reader returns for the totals that were written: with a
    report that has no such element yet, a mapping with the same bucket
    keys in which the value of each bucket is the decimal text of the total
    (a string, where the docstring of [get_area_totals_observed] shows the
    number); [int] of that text is the total. *)
Lemma area_totals_observed_as_text (float_str : spec_float → string)
    (totals_observed : gmap string Z) (r : ReportGenerator) :
  ready "area_totals_observed" r →
  let report := get_report (set_area_totals_observed float_str totals_observed r) in
  ReportReader_init report = Ok report
  ∧ get_area_totals_observed report
    = Ok (Some ((λ total, PyStr (str_int total)) <$> totals_observed))
  ∧ ∀ total, int_of_str (str_int total) = Some total.
Proof.
  intros Hready report.
  destruct (area_totals_written_read float_str "area_totals_observed"
              (map_to_list (PyInt <$> totals_observed)) r eq_refl Hready)
    as [Hinit Hread].
  split; [exact Hinit|]. split; [|apply int_of_str_str_int].
  unfold report, get_area_totals_observed, set_area_totals_observed.
  rewrite Hread. do 2 f_equal.
  rewrite (foldl_insert_map_to_list (λ v, PyStr (strip (py_str float_str v)))).
  rewrite <-map_fmap_compose. apply map_fmap_ext. intros k z _. simpl.
  by rewrite strip_str_int.
Qed.

Definition totals_27 : gmap string Z := {[ "area1" := 27 ]}.

Example area_totals_observed_as_text_27 :
  let report :=
    get_report (set_area_totals_observed (λ _, EmptyString) totals_27
                  ReportGenerator_init) in
  ReportReader_init report = Ok report
  ∧ get_area_totals_observed report
    = Ok (Some ((λ total, PyStr (str_int total)) <$> totals_27))
  ∧ ∀ total, int_of_str (str_int total) = Some total.
Proof.
  apply (area_totals_observed_as_text (λ _, EmptyString) totals_27
           ReportGenerator_init).
  apply ReportGenerator_init_ready.
Qed.

(** A report is in that state after [set_analysis] and
    [set_plate_areas_definition], for instance: *)
Example ready_after_setters (float_str : spec_float → string) :
  ready "area_totals_observed"
    (set_plate_areas_definition float_str
       {[ "area1" := ["A"]; "area2" := ["B"; "C"; "D"] ]}%string
       (set_analysis float_str "spot_preference" ReportGenerator_init)).
Proof.
  split; [reflexivity|]. eexists _, _. split; [reflexivity|].
  repeat constructor; try discriminate; eexists; split; reflexivity.
Qed.

(** C9: the round trip of the area totals fails on the code.  The total 27
    written for 'area1' is read back as the string "27", which is not the
    integer 27 that was written: [get_area_totals_observed] returns the
    stripped text of the node as it is, where its docstring shows the
    totals as numbers. *)
Theorem C9_area_totals_read_as_text :
  get_area_totals_observed
    (get_report (set_area_totals_observed (λ _, EmptyString) totals_27
                   ReportGenerator_init))
  = Ok (Some {[ "area1" := PyStr "27" ]})
  ∧ (PyInt <$> totals_27) !! "area1" = Some (PyInt 27)
  ∧ PyStr "27" ≠ PyInt 27.
Proof. split; [reflexivity|]. split; [reflexivity|discriminate]. Qed.

End ReportFacts.

Module Examples.
Import Std SpotPreference SpotFacts RandomFacts ExpectedFacts WilcoxonFacts RepeatFacts AreasFacts.

(** Two plates, observed and expected totals, and a test that always finds
    the p-value 0.01. *)
Definition two_plates : Start :=
  Start_init
    {| species_spots_1 :=
         [ (1, [1;1;0;0;1;0;0;0;0;0;0;0;0;0;0;0;0;0;0;0;0;0;0;0;0]);
           (2, [0;0;0;0;0;0;1;0;0;0;0;0;1;0;0;0;0;0;0;0;0;0;0;0;1]) ];
       plate_area_totals_observed :=
         [ {| pla_id := 1; area_a := 2; area_b := 1; area_c := 0; area_d := 0 |};
           {| pla_id := 2; area_a := 1; area_b := 0; area_c := 1; area_d := 1 |} ];
       plate_area_totals_expected :=
         [ {| pla_id := 1; area_a := 0; area_b := 2; area_c := 1; area_d := 0 |};
           {| pla_id := 2; area_a := 0; area_b := 3; area_c := 0; area_d := 0 |} ] |}
    {| tape := cycle_tape; pos := 0 |}.

Definition wilcox_001 (x y : list Z) (conf_level : spec_float) : wilcox_result :=
  {| w_method := "Wilcoxon rank sum test";
     w_alternative := "two.sided";
     w_p_value := float_div (float_of_Z 1) (float_of_Z 100) |}.

Lemma C2_witness :
  ∃ self' t',
    calculate_significance_wilcoxon_repeats three_areas_cfg wilcox_001 two_plates
    = Ok self'
    ∧ statistics_repeats self' !! "A" = Some t'
    ∧ n_significant t' = 1 ∧ n_preference t' = 1 ∧ n_rejection t' = 0.
Proof.
  destruct (C2_wilcoxon_repeats_tallies three_areas_cfg wilcox_001 two_plates)
    as (self' & Hcalc & Hgroups).
  destruct (Hgroups [A]) as (mo & me & t' & Hmo & Hme & Ht' & Hs & Hp & Hr & _).
  - apply list_elem_of_here.
  - simpl. lia.
  - simpl. lia.
  - exists self', t'. split; [exact Hcalc|]. split; [exact Ht'|].
    injection Hmo as <-. injection Hme as <-.
    vm_compute in Hs, Hp, Hr. auto.
Defined.

Lemma C6_witness :
  let self1 := set_plate_area_totals_observed area2spots two_plates in
  let consistent (self2 : Start) :=
    plate_area_totals_observed (db self2) = plate_area_totals_observed (db self1)
    ∧ parallel (plate_area_totals_observed (db self2))
               (plate_area_totals_expected (db self2))
    ∧ pla_id <$> plate_area_totals_expected (db self2)
      = pla_id <$> plate_area_totals_observed (db self2)
    ∧ length (plate_area_totals_expected (db self2))
      = length (plate_area_totals_observed (db self2)) in
  (∃ fuel0 self2,
     (∀ fuel, (fuel0 ≤ fuel)%nat →
        set_plate_area_totals_expected area2spots fuel self1 = Ok self2)
     ∧ consistent self2)
  ∧ (∀ number, 0 < number →
       ∃ fuel0 self2,
         (∀ fuel, (fuel0 ≤ fuel)%nat →
            repeat_test area2spots three_areas_cfg wilcox_001 fuel number self1
            = Ok self2)
         ∧ consistent self2).
Proof.
  apply (C6_expected_totals area2spots three_areas_cfg wilcox_001 two_plates).
  - reflexivity.
  - repeat constructor.
  - apply cycle_tape_fair.
Defined.

End Examples.

(** * The spots of a record and their positions *)

Module SpatialFacts.
Import Std StdFacts SpotFacts.

(** X1: [get_spot_coordinate] raises a ValueError exactly for the numbers
    outside 1..25, and nothing else; [get_spot_position_difference] raises a
    ValueError exactly when one of its two spots is outside 1..25. *)
Theorem spot_functions_errors (s1 s2 : Z) :
  (get_spot_coordinate s1 = Raise ValueError ↔ ¬ 1 ≤ s1 ≤ 25)
  ∧ (get_spot_position_difference s1 s2 = Raise ValueError
     ↔ ¬ (1 ≤ s1 ≤ 25 ∧ 1 ≤ s2 ≤ 25))
  ∧ (∀ e, get_spot_coordinate s1 = Raise e → e = ValueError)
  ∧ (∀ e, get_spot_position_difference s1 s2 = Raise e → e = ValueError).
Proof.
  assert (∀ s, get_spot_coordinate s = Raise ValueError ↔ ¬ 1 ≤ s ≤ 25) as Hc.
  { intros s. destruct (get_spot_coordinate_total s) as [[Hs [rc Hrc]]|[Hs Hrc]];
      rewrite Hrc; split; (done || tauto). }
  assert (∀ s e, get_spot_coordinate s = Raise e → e = ValueError) as He.
  { intros s e. destruct (get_spot_coordinate_total s) as [[Hs [rc Hrc]]|[Hs Hrc]];
      rewrite Hrc; congruence. }
  split; [apply Hc|]. split; [|split; [apply He|]].
  - unfold get_spot_position_difference.
    destruct (get_spot_coordinate_total s1) as [[H1 [rc1 Hrc1]]|[H1 Hrc1]];
      rewrite Hrc1; cbn [mbind result_bind rbind]; [|split; [tauto|done]].
    destruct (get_spot_coordinate_total s2) as [[H2 [rc2 Hrc2]]|[H2 Hrc2]];
      rewrite Hrc2; cbn [mbind result_bind rbind]; split; (done || tauto).
  - intros e. unfold get_spot_position_difference.
    destruct (get_spot_coordinate s1) as [rc1|e1] eqn:Hrc1;
      cbn [mbind result_bind rbind]; [|intros [= <-]; by apply (He s1)].
    destruct (get_spot_coordinate s2) as [rc2|e2] eqn:Hrc2;
      cbn [mbind result_bind rbind]; [done|intros [= <-]; by apply (He s2)].
Qed.

(** X2: The coordinate of a spot of 1..25 has its row and its column in 1..5,
    and the spot is read back from it as [(row - 1) * 5 + col]; so two
    different spots never share a coordinate. *)
Theorem get_spot_coordinate_inverse (s : Z) :
  1 ≤ s ≤ 25 →
  ∃ row col,
    get_spot_coordinate s = Ok (row, col)
    ∧ 1 ≤ row ≤ 5 ∧ 1 ≤ col ≤ 5
    ∧ s = (row - 1) * 5 + col
    ∧ ∀ s', get_spot_coordinate s' = Ok (row, col) → s' = s.
Proof.
  intros Hs. rewrite (get_spot_coordinate_row_major s Hs).
  eexists _, _. split; [done|].
  pose proof (Z.div_mod (s - 1) 5 ltac:(lia)).
  pose proof (Z.mod_pos_bound (s - 1) 5 ltac:(lia)).
  split; [|split; [lia|split; [lia|]]].
  - assert (0 ≤ (s - 1) / 5 < 5); [|lia].
    split; [apply Z.div_pos; lia|apply Z.div_lt_upper_bound; lia].
  - intros s' Hs'.
    destruct (get_spot_coordinate_total s') as [[H' _]|[_ H']];
      [|congruence].
    rewrite (get_spot_coordinate_row_major s' H') in Hs'.
    injection Hs' as Hr Hc.
    pose proof (Z.div_mod (s' - 1) 5 ltac:(lia)). lia.
Qed.

Lemma get_spot_coordinate_inverse_witness :
  ∃ row col,
    get_spot_coordinate 14 = Ok (row, col)
    ∧ 1 ≤ row ≤ 5 ∧ 1 ≤ col ≤ 5
    ∧ 14 = (row - 1) * 5 + col
    ∧ ∀ s', get_spot_coordinate s' = Ok (row, col) → s' = 14.
Proof. apply (get_spot_coordinate_inverse 14). lia. Defined.

(** X3: The position difference does not depend on the order of the two spots,
    both of its components are in 0..4, and it is (0, 0) only for a spot and
    itself. *)
Theorem get_spot_position_difference_symmetric (s1 s2 : Z) :
  1 ≤ s1 ≤ 25 → 1 ≤ s2 ≤ 25 →
  ∃ h v,
    get_spot_position_difference s1 s2 = Ok (h, v)
    ∧ get_spot_position_difference s2 s1 = Ok (h, v)
    ∧ 0 ≤ h ≤ 4 ∧ 0 ≤ v ≤ 4
    ∧ (h = 0 ∧ v = 0 ↔ s1 = s2).
Proof.
  intros H1 H2. unfold get_spot_position_difference.
  rewrite !(get_spot_coordinate_row_major s1 H1),
    !(get_spot_coordinate_row_major s2 H2).
  cbn [mbind result_bind rbind fst snd].
  pose proof (Z.div_mod (s1 - 1) 5 ltac:(lia)).
  pose proof (Z.mod_pos_bound (s1 - 1) 5 ltac:(lia)).
  pose proof (Z.div_mod (s2 - 1) 5 ltac:(lia)).
  pose proof (Z.mod_pos_bound (s2 - 1) 5 ltac:(lia)).
  assert (0 ≤ (s1 - 1) / 5 < 5)
    by (split; [apply Z.div_pos; lia|apply Z.div_lt_upper_bound; lia]).
  assert (0 ≤ (s2 - 1) / 5 < 5)
    by (split; [apply Z.div_pos; lia|apply Z.div_lt_upper_bound; lia]).
  eexists _, _. split; [done|]. split; [f_equal; f_equal; lia|].
  split; [lia|]. split; [lia|]. lia.
Qed.

Lemma get_spot_position_difference_symmetric_witness :
  ∃ h v,
    get_spot_position_difference 9 25 = Ok (h, v)
    ∧ get_spot_position_difference 25 9 = Ok (h, v)
    ∧ 0 ≤ h ≤ 4 ∧ 0 ≤ v ≤ 4
    ∧ (h = 0 ∧ v = 0 ↔ 9 = 25).
Proof. apply (get_spot_position_difference_symmetric 9 25); lia. Defined.

Lemma positive_spots_spec (record : list Z) (k : Z) :
  (∀ i, i ∈ positive_spots k record
        ↔ k ≤ i ∧ ∃ x, record !! Z.to_nat (i - k) = Some x ∧ x ≠ 0)
  ∧ StronglySorted Z.lt (positive_spots k record).
Proof.
  revert k. induction record as [|x record IH]; intros k.
  - split; [|constructor]. intros i. split.
    + by intros ?%elem_of_nil.
    + by intros (_ & y & Hy & _).
  - destruct (IH (k + 1)) as [IHin IHsorted].
    rewrite positive_spots_cons.
    assert (∀ i, k + 1 ≤ i →
              (x :: record) !! Z.to_nat (i - k) = record !! Z.to_nat (i - (k + 1)))
      as Hshift.
    { intros i Hi. replace (Z.to_nat (i - k)) with (S (Z.to_nat (i - (k + 1))))
        by lia. done. }
    assert (truthy x = true ↔ x ≠ 0) as Htruthy.
    { unfold truthy. rewrite negb_true_iff. apply Z.eqb_neq. }
    destruct (truthy x) eqn:Hx.
    + split.
      * intros i. rewrite elem_of_cons, IHin. split.
        -- intros [->|[Hi Hrest]].
           ++ split; [lia|]. exists x. rewrite Z.sub_diag. split; [done|].
              by apply Htruthy.
           ++ split; [lia|]. by rewrite Hshift.
        -- intros [Hi (y & Hy & Hy0)].
           destruct (decide (i = k)) as [->|Hne]; [by left|right].
           split; [lia|]. exists y. by rewrite <-Hshift by lia.
      * constructor; [done|]. apply Forall_forall. intros i Hi%IHin. lia.
    + split; [|done]. intros i. rewrite IHin. split.
      * intros [Hi Hrest]. split; [lia|]. by rewrite Hshift.
      * intros [Hi (y & Hy & Hy0)].
        destruct (decide (i = k)) as [->|Hne].
        { rewrite Z.sub_diag in Hy. injection Hy as ->.
          apply Htruthy in Hy0. congruence. }
        split; [lia|]. exists y. by rewrite <-Hshift by lia.
Qed.

Lemma get_spots_from_record_sorted (record : list Z) :
  StronglySorted Z.lt (get_spots_from_record record).
Proof. rewrite get_spots_from_record_positive. apply positive_spots_spec. Qed.

(** X4: [get_spots_from_record] returns the positions (counted from 1) of the
    values of the record that are true, each once and in increasing order; for
    a record of 25 values these are spot numbers of 1..25. *)
Theorem get_spots_from_record_positions (record : list Z) :
  (∀ i, i ∈ get_spots_from_record record
        ↔ 1 ≤ i ∧ ∃ x, record !! Z.to_nat (i - 1) = Some x ∧ x ≠ 0)
  ∧ StronglySorted Z.lt (get_spots_from_record record)
  ∧ Forall (λ i, 1 ≤ i ≤ Z.of_nat (length record))
           (get_spots_from_record record).
Proof.
  rewrite get_spots_from_record_positive.
  destruct (positive_spots_spec record 1) as [Hin Hsorted].
  split; [done|]. split; [done|].
  eapply Forall_impl; [apply positive_spots_range|]. intros i. simpl. lia.
Qed.

End SpatialFacts.

(** * [uniqify], [median] and the spot combinations *)

Module StdMoreFacts.
Import Std SpotPreference StdMore.

Lemma fromkeys_lookup (seq : list Z) : ∀ (d : gmap Z unit) key,
  is_Some (foldl (λ d key, <[key := tt]> d) d seq !! key)
  ↔ key ∈ seq ∨ is_Some (d !! key).
Proof.
  induction seq as [|k seq IH]; intros d key; simpl.
  - rewrite elem_of_nil. tauto.
  - rewrite IH, elem_of_cons. destruct (decide (key = k)) as [->|Hne].
    + rewrite lookup_insert_eq. split; [auto|eauto].
    + rewrite lookup_insert_ne by done. tauto.
Qed.

(** X5: [uniqify] returns every item of the sequence, and each one once. *)
Theorem uniqify_no_duplicates (seq : list Z) :
  NoDup (uniqify seq) ∧ ∀ x, x ∈ uniqify seq ↔ x ∈ seq.
Proof.
  unfold uniqify. split; [apply NoDup_fst_map_to_list|].
  intros x. rewrite list_elem_of_fmap. split.
  - intros ([k []] & -> & Hk%elem_of_map_to_list). simpl.
    assert (is_Some (fromkeys seq !! k)) as Hs by eauto.
    apply fromkeys_lookup in Hs as [?|[? Hempty]]; [done|].
    by rewrite lookup_empty in Hempty.
  - intros Hx.
    assert (is_Some (fromkeys seq !! x)) as [[] Hs]
      by (apply fromkeys_lookup; by left).
    exists (x, tt). split; [done|]. by apply elem_of_map_to_list.
Qed.

Lemma filter_none {A} (P : A → Prop) `{∀ x, Decision (P x)} (l : list A) :
  Forall (λ x, ¬ P x) l → filter P l = [].
Proof.
  induction 1 as [|x l Hx _ IH]; [done|]. by rewrite filter_cons_False.
Qed.

(** In a sorted list the values before a place are not greater and the
    values behind it not smaller than the value at the place. *)
Lemma sorted_lookup_counts (l : list Z) (k : nat) (m : Z) :
  StronglySorted Z.le l → l !! k = Some m →
  (length (filter (λ x, (x < m)%Z) l) ≤ k)%nat
  ∧ (length (filter (λ x, (m < x)%Z) l) + S k ≤ length l)%nat.
Proof.
  intros Hs Hk. pose proof (lookup_lt_Some _ _ _ Hk) as Hlt.
  rewrite <-(take_drop_middle l k m Hk) in Hs |- *.
  assert (length (take k l) = k) as Hlen by (rewrite length_take; lia).
  assert (filter (λ x, x < m) (m :: drop (S k) l) = []) as Hnil1.
  { apply filter_none. apply Forall_forall.
    intros x [->|Hx]%elem_of_cons; [lia|].
    apply StronglySorted_app_1_r in Hs. apply StronglySorted_inv in Hs as [_ Hall].
    rewrite Forall_forall in Hall. specialize (Hall x Hx). lia. }
  assert (filter (λ x, m < x) (take k l) = []) as Hnil2.
  { apply filter_none. apply Forall_forall. intros x Hx.
    pose proof (StronglySorted_app_1_elem_of _ _ _ x m Hs Hx
                  (list_elem_of_here _ _)). lia. }
  rewrite !filter_app, Hnil1, Hnil2, app_nil_r, app_nil_l.
  rewrite (filter_cons (λ x, m < x)), decide_False by lia.
  rewrite length_app. cbn [length].
  pose proof (length_filter (λ x, x < m) (take k l)).
  pose proof (length_filter (λ x, m < x) (drop (S k) l)). lia.
Qed.


Lemma merge_sort_length (l : list Z) : length (merge_sort Z.le l) = length l.
Proof. apply Permutation_length, merge_sort_Permutation. Qed.

Lemma merge_sort_sorted (l : list Z) : StronglySorted Z.le (merge_sort Z.le l).
Proof. apply StronglySorted_merge_sort; apply _. Qed.

Lemma merge_sort_count (P : Z → Prop) `{∀ x, Decision (P x)} (l : list Z) :
  length (filter P (merge_sort Z.le l)) = length (filter P l).
Proof. apply Permutation_length. by rewrite merge_sort_Permutation. Qed.

Lemma getitem_nat {A} (l : list A) (i : Z) (k : nat) x :
  i = Z.of_nat k → l !! k = Some x → getitem l i = Ok x.
Proof. intros ->. apply RandomFacts.getitem_lookup. Qed.

(** The two shapes of [median] on a list that is not empty: the middle
    value of the sorted list, or the float of the sum of its two middle
    values, halved. *)
Lemma median_lookup (values : list Z) :
  values ≠ [] →
  let l := merge_sort Z.le values in
  let k := Z.to_nat (Z.of_nat (length values) / 2) in
  (Nat.Odd (length values)
   ∧ ∃ m, l !! k = Some m ∧ median values = Ok (PyInt m))
  ∨ (Nat.Even (length values)
     ∧ ∃ lower upper,
         l !! (k - 1)%nat = Some lower ∧ l !! k = Some upper
         ∧ median values
           = (sum ← float_of_int (lower + upper) ;
              Ok (PyFloat (float_div sum (float_of_Z 2))))).
Proof.
  intros Hne l k. set (n := length values) in *.
  assert (0 < n)%nat as Hn by (subst n; destruct values; simpl; [done|lia]).
  unfold median. fold l.
  pose proof (merge_sort_length values) as Hlen. fold l n in Hlen.
  rewrite Hlen.
  pose proof (Z.div_mod (Z.of_nat n) 2 ltac:(lia)) as Hdiv.
  pose proof (Z.mod_pos_bound (Z.of_nat n) 2 ltac:(lia)) as Hmod.
  destruct (Z.eqb_spec (Z.of_nat n `mod` 2) 1) as [Hodd|Heven].
  - left. split; [exists k; lia|].
    assert ((Z.of_nat n + 1) / 2 - 1 = Z.of_nat n / 2) as Hidx.
    { replace (Z.of_nat n + 1) with (1 * 2 + (Z.of_nat n - 1)) by lia.
      rewrite Z.div_add_l by lia.
      replace (Z.of_nat n - 1) with (Z.of_nat n / 2 * 2) by lia.
      rewrite Z.div_mul by lia. lia. }
    destruct (lookup_lt_is_Some_2 l k) as [m Hm]; [lia|].
    rewrite (getitem_nat l _ k m) by (done || lia).
    by exists m.
  - right. split; [exists k; lia|].
    destruct (lookup_lt_is_Some_2 l (k - 1)) as [lower Hlower]; [lia|].
    destruct (lookup_lt_is_Some_2 l k) as [upper Hupper]; [lia|].
    rewrite (getitem_nat l (Z.of_nat n / 2 - 1) (k - 1) lower) by (done || lia).
    cbn [mbind result_bind rbind].
    rewrite (getitem_nat l _ k upper) by (done || lia).
    by exists lower, upper.
Qed.

Lemma float_of_int_raises z e : float_of_int z = Raise e → e = OverflowError.
Proof. unfold float_of_int. destruct (float_of_Z z); congruence. Qed.

(** X6: [median] raises an IndexError for the empty list and for no other
    list.  The one other exception is the OverflowError of [float], for an
    even number of values of which two have a sum beyond the floats.  A list
    of integers of at most 52 digits that is not empty raises nothing. *)
Theorem median_errors (values : list Z) :
  (median values = Raise IndexError ↔ values = [])
  ∧ (∀ e, median values = Raise e →
          (values = [] ∧ e = IndexError)
          ∨ (e = OverflowError ∧ Nat.Even (length values)
             ∧ ∃ lower upper,
                 lower ∈ values ∧ upper ∈ values
                 ∧ float_of_int (lower + upper) = Raise OverflowError))
  ∧ (values ≠ [] → Forall (λ x, - 2 ^ 52 < x < 2 ^ 52) values →
     ∃ r, median values = Ok r).
Proof.
  destruct values as [|v values].
  { split; [done|]. split; [|done]. intros e [= <-]. by left. }
  assert (∀ x, x ∈ merge_sort Z.le (v :: values) → x ∈ v :: values) as Hin.
  { intros x. by rewrite merge_sort_Permutation. }
  destruct (median_lookup (v :: values) ltac:(done))
    as [(Hodd & m & Hm & ->)|(Heven & lower & upper & Hlower & Hupper & ->)].
  { split; [done|]. split; [done|]. intros _ _. by eexists. }
  apply list_elem_of_lookup_2, Hin in Hlower, Hupper.
  destruct (float_of_int (lower + upper)) as [sum|e0] eqn:Hsum;
    cbn [mbind result_bind rbind].
  { split; [done|]. split; [done|]. intros _ _. by eexists. }
  pose proof (float_of_int_raises _ _ Hsum) as ->.
  split; [done|]. split.
  - intros e [= <-]. right. split; [done|]. split; [done|].
    by exists lower, upper.
  - intros _ Hsmall. rewrite Forall_forall in Hsmall.
    pose proof (Hsmall _ Hlower). pose proof (Hsmall _ Hupper).
    destruct (FloatFacts.float_of_int_small (lower + upper)) as [x Hx];
      [change (2 ^ 53) with (2 * 2 ^ 52); lia|congruence].
Qed.

(** X7: The median does not depend on the order of the values. *)
Theorem median_order_independent (values values' : list Z) :
  values ≡ₚ values' → median values = median values'.
Proof.
  intros Hp. unfold median.
  replace (merge_sort Z.le values') with (merge_sort Z.le values); [done|].
  apply (Sorted_unique Z.le).
  - apply Sorted_merge_sort. apply _.
  - apply Sorted_merge_sort. apply _.
  - by rewrite !merge_sort_Permutation.
Qed.

Lemma median_order_independent_witness :
  median [3; 1; 2] = median [1; 2; 3].
Proof.
  apply (median_order_independent [3; 1; 2] [1; 2; 3]).
  apply (Permutation_cons_append [1; 2] 3).
Defined.

(** X8: The median of an odd number of values is one of the values, with fewer
    than half of the values smaller and fewer than half greater. The median of
    an even, positive number of values is the float of the sum of two of the
    values, halved, and the OverflowError of [float] where that sum is beyond
    the floats: the sum of a lower value, with fewer than half of the values
    smaller, and an upper one, with fewer than half of the values greater. *)
Theorem median_middle (values : list Z) :
  values ≠ [] →
  let n := length values in
  let smaller m := length (filter (λ x, x < m) values) in
  let greater m := length (filter (λ x, m < x) values) in
  (∃ m, median values = Ok (PyInt m)
        ∧ Nat.Odd n ∧ m ∈ values
        ∧ (2 * smaller m < n)%nat ∧ (2 * greater m < n)%nat)
  ∨ (∃ lower upper,
       median values
       = (sum ← float_of_int (lower + upper) ;
          Ok (PyFloat (float_div sum (float_of_Z 2))))
       ∧ Nat.Even n ∧ lower ∈ values ∧ upper ∈ values ∧ lower ≤ upper
       ∧ (2 * smaller lower < n)%nat ∧ (2 * greater upper < n)%nat).
Proof.
  intros Hne n smaller greater.
  assert (0 < n)%nat as Hn by (subst n; destruct values; simpl; [done|lia]).
  pose proof (merge_sort_length values) as Hlen. fold n in Hlen.
  pose proof (merge_sort_sorted values) as Hsorted.
  assert (∀ x, x ∈ merge_sort Z.le values → x ∈ values) as Hin.
  { intros x. by rewrite merge_sort_Permutation. }
  pose proof (Z.div_mod (Z.of_nat n) 2 ltac:(lia)) as Hdiv.
  pose proof (Z.mod_pos_bound (Z.of_nat n) 2 ltac:(lia)) as Hmod.
  destruct (median_lookup values Hne)
    as [(Hodd & m & Hm & Hmed)|(Heven & lower & upper & Hlower & Hupper & Hmed)];
    fold n in Hm || fold n in Hlower, Hupper;
    set (l := merge_sort Z.le values) in *;
    set (k := Z.to_nat (Z.of_nat n / 2)) in *.
  - left. exists m. split; [done|]. split; [done|].
    split; [apply Hin; by eapply list_elem_of_lookup_2|].
    destruct (sorted_lookup_counts l k m Hsorted Hm) as [Hs Hg].
    destruct Hodd as [j Hj].
    unfold smaller, greater, l in *.
    rewrite merge_sort_count in Hs, Hg. lia.
  - right. exists lower, upper. split; [done|]. split; [done|].
    split; [apply Hin; by eapply list_elem_of_lookup_2|].
    split; [apply Hin; by eapply list_elem_of_lookup_2|].
    destruct (sorted_lookup_counts l (k - 1) lower Hsorted Hlower) as [Hs _].
    destruct (sorted_lookup_counts l k upper Hsorted Hupper) as [_ Hg].
    destruct Heven as [j Hj].
    assert (0 < k)%nat as Hk by lia.
    split.
    { rewrite <-(take_drop_middle l (k - 1) lower Hlower) in Hsorted.
      apply StronglySorted_app_1_r, StronglySorted_inv in Hsorted as [_ Hall].
      rewrite Forall_forall in Hall. apply Hall.
      apply list_elem_of_lookup. exists 0%nat. rewrite lookup_drop.
      by replace (S (k - 1) + 0)%nat with k by lia. }
    unfold smaller, greater, l in *.
    rewrite merge_sort_count in Hs, Hg. lia.
Qed.

Lemma median_middle_witness :
  let values := [5; 1; 4; 2] in
  let n := length values in
  let smaller m := length (filter (λ x, x < m) values) in
  let greater m := length (filter (λ x, m < x) values) in
  (∃ m, median values = Ok (PyInt m)
        ∧ Nat.Odd n ∧ m ∈ values
        ∧ (2 * smaller m < n)%nat ∧ (2 * greater m < n)%nat)
  ∨ (∃ lower upper,
       median values
       = (sum ← float_of_int (lower + upper) ;
          Ok (PyFloat (float_div sum (float_of_Z 2))))
       ∧ Nat.Even n ∧ lower ∈ values ∧ upper ∈ values ∧ lower ≤ upper
       ∧ (2 * smaller lower < n)%nat ∧ (2 * greater upper < n)%nat).
Proof. apply (median_middle [5; 1; 4; 2]). discriminate. Defined.

Example median_examples :
  median [5; 1; 4] = Ok (PyInt 4)
  ∧ median [5; 1; 4; 2] = Ok (PyFloat (S754_finite false 6755399441055744 (-51)))
  ∧ median [10 ^ 400; 10 ^ 400] = Raise OverflowError.
Proof. repeat split; vm_compute; reflexivity. Qed.


Definition lex_lt (p q : Z * Z) : Prop := p.1 < q.1 ∨ (p.1 = q.1 ∧ p.2 < q.2).

Lemma combinations2_spec (l : list Z) :
  StronglySorted Z.lt l →
  (∀ a b, (a, b) ∈ combinations2 l ↔ a ∈ l ∧ b ∈ l ∧ a < b)
  ∧ StronglySorted lex_lt (combinations2 l)
  ∧ (2 * length (combinations2 l) = length l * (length l - 1))%nat.
Proof.
  induction 1 as [|x l Hsorted IH Hx].
  { split; [|split; [constructor|done]]. intros a b. cbn [combinations2].
    split; [by intros ?%elem_of_nil|by intros [?%elem_of_nil _]]. }
  destruct IH as (IHin & IHsorted & IHlen).
  rewrite Forall_forall in Hx. cbn [combinations2].
  split; [|split].
  - intros a b. rewrite elem_of_app, list_elem_of_fmap, IHin, !elem_of_cons.
    split.
    + intros [(y & [= -> ->] & Hy)|(Ha & Hb & Hab)].
      * split; [by left|]. split; [by right|]. by apply Hx.
      * auto.
    + intros ([->|Ha] & [->|Hb] & Hab); [lia| |specialize (Hx _ Ha); lia|].
      * left. by exists b.
      * right. done.
  - apply StronglySorted_app_2; [| |done].
    + intros p q (y & -> & Hy)%list_elem_of_fmap Hq. destruct q as [a b].
      apply IHin in Hq as (Ha & _ & _). left. by apply Hx.
    + apply (StronglySorted_fmap _ Z.lt); [|done].
      intros y z Hyz. by right.
  - rewrite length_app, length_fmap. cbn [length]. nia.
Qed.

Lemma StronglySorted_lt_NoDup {A} (R : A → A → Prop) (l : list A) :
  (∀ x, ¬ R x x) → StronglySorted R l → NoDup l.
Proof.
  intros Hirr. induction 1 as [|x l _ IH Hx]; constructor; [|done].
  rewrite Forall_forall in Hx. intros Hin. by apply (Hirr x), Hx.
Qed.

(** X9: With one record (also when the second one is absent or empty),
    [get_spot_combinations_from_record] yields the pairs [(a, b)] of two
    positive spots of the record with [a < b], each pair once, in
    lexicographic order; [n] positive spots give [n * (n - 1) / 2] pairs. *)
Theorem get_spot_combinations_within (record1 : list Z)
    (record2 : option (list Z)) :
  record2 = None ∨ record2 = Some [] →
  let combos := get_spot_combinations_from_record record1 record2 in
  let spots := get_spots_from_record record1 in
  (∀ a b, (a, b) ∈ combos ↔ a ∈ spots ∧ b ∈ spots ∧ a < b)
  ∧ NoDup combos
  ∧ StronglySorted lex_lt combos
  ∧ (2 * length combos = length spots * (length spots - 1))%nat.
Proof.
  intros Hrecord2 combos spots.
  assert (combos = combinations2 spots) as ->
    by (by destruct Hrecord2 as [-> | ->]).
  destruct (combinations2_spec spots
              (SpatialFacts.get_spots_from_record_sorted record1))
    as (Hin & Hsorted & Hlen).
  split; [done|]. split; [|done].
  apply (StronglySorted_lt_NoDup lex_lt); [|done].
  intros [a b] [?|[_ ?]]; simpl in *; lia.
Qed.

Lemma get_spot_combinations_within_witness :
  let record1 := [1; 1; 0; 0; 1] in
  let combos := get_spot_combinations_from_record record1 (Some []) in
  let spots := get_spots_from_record record1 in
  (∀ a b, (a, b) ∈ combos ↔ a ∈ spots ∧ b ∈ spots ∧ a < b)
  ∧ NoDup combos
  ∧ StronglySorted lex_lt combos
  ∧ (2 * length combos = length spots * (length spots - 1))%nat.
Proof.
  apply (get_spot_combinations_within [1; 1; 0; 0; 1] (Some [])).
  right; reflexivity.
Defined.

(** X10: With a second, non-empty record, [get_spot_combinations_from_record]
    yields the Cartesian product of the positive spots of the two records:
    every pair of a positive spot of the first with a positive spot of the
    second, each pair once, in lexicographic order. *)
Theorem get_spot_combinations_between (record1 record2 : list Z) :
  record2 ≠ [] →
  let combos := get_spot_combinations_from_record record1 (Some record2) in
  let spots1 := get_spots_from_record record1 in
  let spots2 := get_spots_from_record record2 in
  (∀ a b, (a, b) ∈ combos ↔ a ∈ spots1 ∧ b ∈ spots2)
  ∧ NoDup combos
  ∧ StronglySorted lex_lt combos
  ∧ (length combos = length spots1 * length spots2)%nat.
Proof.
  intros Hne combos spots1 spots2.
  assert (combos = product spots1 spots2) as ->
    by (subst combos; by destruct record2).
  pose proof (SpatialFacts.get_spots_from_record_sorted record1) as Hs1.
  pose proof (SpatialFacts.get_spots_from_record_sorted record2) as Hs2.
  fold spots1 in Hs1. fold spots2 in Hs2. clearbody spots1 spots2.
  assert (∀ a b, (a, b) ∈ product spots1 spots2 ↔ a ∈ spots1 ∧ b ∈ spots2)
    as Hin.
  { intros a b. unfold product. rewrite list_elem_of_bind. split.
    - intros (x & (y & [= -> ->] & Hy)%list_elem_of_fmap & Hx). done.
    - intros [Ha Hb]. exists a. split; [|done].
      apply list_elem_of_fmap. by exists b. }
  assert (StronglySorted lex_lt (product spots1 spots2)) as Hsorted.
  { clear Hin. unfold product.
    induction Hs1 as [|x l Hl IH Hx]; [constructor|].
    rewrite bind_cons. apply StronglySorted_app_2; [| |done].
    - intros p q (y & -> & Hy)%list_elem_of_fmap
        (x' & (y' & -> & Hy')%list_elem_of_fmap & Hx')%list_elem_of_bind.
      left. rewrite Forall_forall in Hx. by apply Hx.
    - apply (StronglySorted_fmap _ Z.lt); [|done].
      intros y z Hyz. by right. }
  split; [done|]. split; [|split; [done|]].
  - apply (StronglySorted_lt_NoDup lex_lt); [|done].
    intros [a b] [?|[_ ?]]; simpl in *; lia.
  - unfold product. clear. induction spots1 as [|x l IH]; [done|].
    rewrite bind_cons, length_app, length_fmap, IH. done.
Qed.

Lemma get_spot_combinations_between_witness :
  let record1 := [1; 1; 0; 0; 1] in
  let record2 := [0; 0; 1; 0; 1] in
  let combos := get_spot_combinations_from_record record1 (Some record2) in
  let spots1 := get_spots_from_record record1 in
  let spots2 := get_spots_from_record record2 in
  (∀ a b, (a, b) ∈ combos ↔ a ∈ spots1 ∧ b ∈ spots2)
  ∧ NoDup combos
  ∧ StronglySorted lex_lt combos
  ∧ (length combos = length spots1 * length spots2)%nat.
Proof.
  apply (get_spot_combinations_between [1; 1; 0; 0; 1] [0; 0; 1; 0; 1]).
  discriminate.
Defined.

End StdMoreFacts.

(** * [combine_records] *)

Module CombineFacts.
Import Std StdMore.

Definition flag_at (record : list Z) (j : nat) : bool :=
  match record !! j with
  | Some x => truthy x
  | None => false
  end.

Lemma flag_at_true record j :
  flag_at record j = true ↔ ∃ x, record !! j = Some x ∧ x ≠ 0.
Proof.
  unfold flag_at, truthy. destruct (record !! j) as [x|].
  - rewrite negb_true_iff, Z.eqb_neq. split; [by exists x|].
    by intros (y & [= ->] & Hy).
  - split; [done|]. by intros (y & Hy & _).
Qed.

Lemma mark_loop (flags : list Z) :
  ∀ (k : nat) (combined : list (option Z)),
    (k + length flags ≤ length combined)%nat →
    ∃ combined',
      for_each (λ combined '(i, spot),
                  if truthy spot then setitem combined i (Some 1)
                  else Ok combined)
               (enumerate (Z.of_nat k) flags) combined = Ok combined'
      ∧ length combined' = length combined
      ∧ ∀ j, combined' !! j
             = if bool_decide (k ≤ j)%nat && flag_at flags (j - k)
               then Some (Some 1) else combined !! j.
Proof.
  induction flags as [|x flags IH]; intros k combined Hlen.
  - exists combined. split; [done|]. split; [done|]. intros j.
    unfold flag_at. rewrite lookup_nil. by rewrite andb_false_r.
  - cbn [enumerate for_each length] in *.
    replace (Z.of_nat k + 1) with (Z.of_nat (S k)) by lia.
    assert (∀ j, (k < j)%nat →
              flag_at (x :: flags) (j - k) = flag_at flags (j - S k)) as Hshift.
    { intros j Hj. unfold flag_at.
      by replace (j - k)%nat with (S (j - S k)) by lia. }
    destruct (truthy x) eqn:Hx.
    + rewrite RandomFacts.setitem_insert by lia.
      cbn [mbind result_bind rbind].
      destruct (IH (S k) (<[k := Some 1]> combined)) as (c & -> & Hc & Hj).
      { rewrite length_insert. lia. }
      exists c. split; [done|]. rewrite length_insert in Hc.
      split; [done|]. intros j. rewrite Hj.
      destruct (decide (j = k)) as [->|Hne].
      * rewrite (bool_decide_eq_false_2 (S k ≤ k)%nat) by lia.
        rewrite (bool_decide_eq_true_2 (k ≤ k)%nat) by lia.
        rewrite Nat.sub_diag. unfold flag_at. cbn [lookup list_lookup andb].
        rewrite Hx. apply list_lookup_insert_eq. lia.
      * rewrite list_lookup_insert_ne by done.
        destruct (decide (k < j)%nat).
        -- rewrite Hshift by done.
           rewrite (bool_decide_eq_true_2 (S k ≤ j)%nat) by lia.
           by rewrite (bool_decide_eq_true_2 (k ≤ j)%nat) by lia.
        -- rewrite (bool_decide_eq_false_2 (S k ≤ j)%nat) by lia.
           by rewrite (bool_decide_eq_false_2 (k ≤ j)%nat) by lia.
    + cbn [mbind result_bind rbind].
      destruct (IH (S k) combined) as (c & -> & Hc & Hj); [lia|].
      exists c. split; [done|]. split; [done|]. intros j. rewrite Hj.
      destruct (decide (j = k)) as [->|Hne].
      * rewrite (bool_decide_eq_false_2 (S k ≤ k)%nat) by lia.
        rewrite Nat.sub_diag. unfold flag_at at 2. cbn [lookup list_lookup].
        rewrite Hx. by rewrite andb_false_r.
      * destruct (decide (k < j)%nat).
        -- rewrite Hshift by done.
           rewrite (bool_decide_eq_true_2 (S k ≤ j)%nat) by lia.
           by rewrite (bool_decide_eq_true_2 (k ≤ j)%nat) by lia.
        -- rewrite (bool_decide_eq_false_2 (S k ≤ j)%nat) by lia.
           by rewrite (bool_decide_eq_false_2 (k ≤ j)%nat) by lia.
Qed.

Definition combine_body (combined : list (option Z)) (record : list Z)
  : result (list (option Z)) :=
  c0 ← getitem combined 0 ;
  r0 ← getitem record 0 ;
  if bool_decide (c0 ≠ Some r0) then Raise ValueError
  else for_each (λ combined '(i, spot),
                   if truthy spot then setitem combined i (Some 1)
                   else Ok combined)
                (enumerate 1 (drop 1 record)) combined.

Lemma combine_body_cons (combined : list (option Z)) (p q : Z) flags :
  combined !! 0%nat = Some (Some p) →
  combine_body combined (q :: flags)
  = if bool_decide (Some p ≠ Some q) then Raise ValueError
    else for_each (λ combined '(i, spot),
                     if truthy spot then setitem combined i (Some 1)
                     else Ok combined)
                  (enumerate 1 flags) combined.
Proof.
  intros H0. unfold combine_body.
  rewrite (StdMoreFacts.getitem_nat combined 0 0 (Some p)) by done.
  cbn [mbind result_bind rbind].
  by rewrite (StdMoreFacts.getitem_nat (q :: flags) 0 0 q) by done.
Qed.

Lemma combine_loop (p : Z) (records : list (list Z)) :
  ∀ combined,
    length combined = 26%nat → combined !! 0%nat = Some (Some p) →
    Forall (λ r, (1 ≤ length r ≤ 26)%nat) records →
    (Forall (λ r, r !! 0%nat = Some p) records
     ∧ ∃ combined',
         for_each combine_body records combined = Ok combined'
         ∧ length combined' = 26%nat
         ∧ combined' !! 0%nat = Some (Some p)
         ∧ ∀ j, (1 ≤ j)%nat →
                combined' !! j
                = if existsb (λ r, flag_at r j) records
                  then Some (Some 1) else combined !! j)
    ∨ (Exists (λ r, ∃ q, r !! 0%nat = Some q ∧ q ≠ p) records
       ∧ for_each combine_body records combined = Raise ValueError).
Proof.
  induction records as [|r records IH]; intros combined Hlen H0 Hall.
  - left. split; [done|]. exists combined. done.
  - apply Forall_cons in Hall as [Hr Hall]. cbn [for_each].
    destruct r as [|q flags]; [simpl in Hr; lia|].
    rewrite (combine_body_cons combined p q flags H0).
    destruct (decide (q = p)) as [->|Hne].
    + rewrite bool_decide_eq_false_2 by (intros Hc; by apply Hc).
      destruct (mark_loop flags 1 combined) as (c & Hc & Hclen & Hcj).
      { simpl in Hr. lia. }
      change (Z.of_nat 1) with 1 in Hc. rewrite Hc.
      destruct (IH c) as [(Hsame & c' & Hc' & Hc'len & Hc'0 & Hc'j)
                         |(Hdiff & Hraise)]; [lia| |done| |].
      { rewrite Hcj. simpl. done. }
      * left. split; [by constructor|]. exists c'. split; [done|].
        split; [done|]. split; [done|]. intros j Hj.
        rewrite Hc'j by done. cbn [existsb].
        destruct (existsb (λ r, flag_at r j) records);
          [by rewrite orb_true_r|]. rewrite orb_false_r.
        rewrite Hcj. rewrite bool_decide_eq_true_2 by done.
        destruct j as [|j]; [lia|].
        replace (S j - 1)%nat with j by lia. done.
      * right. split; [by apply Exists_cons_tl|done].
    + rewrite bool_decide_eq_true_2 by congruence.
      right. split; [|done]. apply Exists_cons_hd. by exists q.
Qed.

Lemma combine_records_loop (r : list Z) (records : list (list Z)) (p : Z) :
  r !! 0%nat = Some p →
  combine_records (r :: records)
  = for_each combine_body (r :: records) (Some p :: replicate 25 (Some 0)).
Proof.
  intros Hr. unfold combine_records.
  rewrite (StdMoreFacts.getitem_nat (r :: records) 0 0 r) by done.
  cbn [mbind result_bind rbind].
  rewrite (StdMoreFacts.getitem_nat r 0 0 p) by done.
  cbn [mbind result_bind rbind]. done.
Qed.

(** X11: [combine_records] on records that all start with the same plate ID,
    each followed by at most 25 flags, returns that plate ID followed by 25
    values: 1 at the positions where at least one record has a true flag, 0
    elsewhere. *)
Theorem combine_records_union (records : list (list Z)) (p : Z) :
  records ≠ [] →
  Forall (λ r, r !! 0%nat = Some p ∧ (length r ≤ 26)%nat) records →
  ∃ combined,
    combine_records records = Ok combined
    ∧ length combined = 26%nat
    ∧ combined !! 0%nat = Some (Some p)
    ∧ ∀ j, (1 ≤ j ≤ 25)%nat →
           (combined !! j = Some (Some 1)
            ∧ ∃ r x, r ∈ records ∧ r !! j = Some x ∧ x ≠ 0)
           ∨ (combined !! j = Some (Some 0)
              ∧ ∀ r x, r ∈ records → r !! j = Some x → x = 0).
Proof.
  intros Hne Hall. destruct records as [|r records]; [done|].
  assert (r !! 0%nat = Some p) as Hr by (by apply Forall_cons in Hall as [[? _] _]).
  rewrite (combine_records_loop r records p Hr).
  destruct (combine_loop p (r :: records) (Some p :: replicate 25 (Some 0)))
    as [(_ & c & Hc & Hlen & H0 & Hj)|(Hdiff & _)]; [done|done| | |].
  - eapply Forall_impl; [exact Hall|]. intros r' [Hr' Hlen']. simpl.
    split; [|done]. apply lookup_lt_Some in Hr'. lia.
  - exists c. split; [done|]. split; [done|]. split; [done|].
    intros j Hjr. rewrite Hj by lia.
    destruct (existsb (λ r0, flag_at r0 j) (r :: records)) eqn:Hex.
    + left. split; [done|]. apply existsb_exists in Hex as (r' & Hin & Hf).
      apply flag_at_true in Hf as (x & Hx & Hx0).
      exists r', x. split; [by apply list_elem_of_In|done].
    + right. split.
      * destruct j as [|j]; [lia|]. cbn [lookup list_lookup].
        apply lookup_replicate_2. lia.
      * intros r' x Hin Hx. destruct (decide (x = 0)) as [|Hx0]; [done|].
        assert (existsb (λ r0, flag_at r0 j) (r :: records) = true); [|congruence].
        apply existsb_exists. exists r'. split; [by apply list_elem_of_In|].
        apply flag_at_true. by exists x.
  - apply Exists_exists in Hdiff as (r' & Hin & q & Hq & Hqp).
    rewrite Forall_forall in Hall. destruct (Hall r' Hin) as [Hr' _]. congruence.
Qed.

Lemma combine_records_union_witness :
  ∃ combined,
    combine_records [[4567; 1; 0; 0]; [4567; 0; 0; 1]] = Ok combined
    ∧ length combined = 26%nat
    ∧ combined !! 0%nat = Some (Some 4567)
    ∧ ∀ j, (1 ≤ j ≤ 25)%nat →
           (combined !! j = Some (Some 1)
            ∧ ∃ r x, r ∈ [[4567; 1; 0; 0]; [4567; 0; 0; 1]]
                     ∧ r !! j = Some x ∧ x ≠ 0)
           ∨ (combined !! j = Some (Some 0)
              ∧ ∀ r x, r ∈ [[4567; 1; 0; 0]; [4567; 0; 0; 1]] →
                       r !! j = Some x → x = 0).
Proof.
  apply (combine_records_union [[4567; 1; 0; 0]; [4567; 0; 0; 1]] 4567).
  - discriminate.
  - repeat constructor; simpl; lia.
Defined.

(** X12: On records of a plate ID followed by at most 25 flags,
    [combine_records] raises a ValueError exactly when two of the records
    differ in their plate ID; it raises nothing else, and the empty list of
    records gives the record of no plate ID and 25 zeros. *)
Theorem combine_records_errors (records : list (list Z)) :
  Forall (λ r, (1 ≤ length r ≤ 26)%nat) records →
  (combine_records records = Raise ValueError
   ↔ ∃ r1 r2 p1 p2, r1 ∈ records ∧ r2 ∈ records
                    ∧ r1 !! 0%nat = Some p1 ∧ r2 !! 0%nat = Some p2 ∧ p1 ≠ p2)
  ∧ (∀ e, combine_records records = Raise e → e = ValueError)
  ∧ (records = [] →
     combine_records records = Ok (None :: replicate 25 (Some 0))).
Proof.
  intros Hall. destruct records as [|r records].
  { split; [|done]. split; [done|]. by intros (r1 & _ & _ & _ & ?%elem_of_nil & _). }
  split; [|split; [|done]].
  - pose proof Hall as Hr. apply Forall_cons in Hr as [Hr _].
    destruct r as [|p flags]; [simpl in Hr; lia|].
    rewrite (combine_records_loop (p :: flags) records p) by done.
    destruct (combine_loop p ((p :: flags) :: records)
                (Some p :: replicate 25 (Some 0)))
      as [(Hsame & c & Hc & _)|(Hdiff & Hraise)]; [done|done|done| |].
    + rewrite Hc. split; [done|].
      intros (r1 & r2 & p1 & p2 & H1 & H2 & Hp1 & Hp2 & Hne).
      rewrite Forall_forall in Hsame.
      pose proof (Hsame r1 H1). pose proof (Hsame r2 H2). congruence.
    + split; [intros _|done].
      apply Exists_exists in Hdiff as (r' & Hin & q & Hq & Hqp).
      exists (p :: flags), r', p, q. split; [apply list_elem_of_here|].
      split; [done|]. split; [done|]. split; [done|]. congruence.
  - intros e. pose proof Hall as Hr. apply Forall_cons in Hr as [Hr _].
    destruct r as [|p flags]; [simpl in Hr; lia|].
    rewrite (combine_records_loop (p :: flags) records p) by done.
    destruct (combine_loop p ((p :: flags) :: records)
                (Some p :: replicate 25 (Some 0)))
      as [(Hsame & c & Hc & _)|(Hdiff & Hraise)]; [done|done|done| |].
    + by rewrite Hc.
    + rewrite Hraise. congruence.
Qed.

Lemma combine_records_errors_witness :
  let records := [[4567; 1; 0; 0]; [4538; 0; 0; 1]] in
  (combine_records records = Raise ValueError
   ↔ ∃ r1 r2 p1 p2, r1 ∈ records ∧ r2 ∈ records
                    ∧ r1 !! 0%nat = Some p1 ∧ r2 !! 0%nat = Some p2 ∧ p1 ≠ p2)
  ∧ (∀ e, combine_records records = Raise e → e = ValueError)
  ∧ (records = [] →
     combine_records records = Ok (None :: replicate 25 (Some 0))).
Proof.
  apply (combine_records_errors [[4567; 1; 0; 0]; [4538; 0; 0; 1]]).
  repeat constructor; simpl; lia.
Defined.

End CombineFacts.

(** * The exceptions of [get_random_for_plate] *)

Module SampleFacts.
Import Std RandomFacts.

Lemma draw_unselected_cases (fuel : nat) :
  ∀ n selected g,
    0 < n < 2 ^ 53 →
    match draw_unselected fuel n selected g with
    | Ok (j, _) => 0 ≤ j < n
    | Raise e => e = NoReturn
    end.
Proof.
  induction fuel as [|fuel IH]; intros n selected g Hn; [done|].
  cbn [draw_unselected].
  rewrite (result_bind_Ok _ _ _ (int_random_times_eq n g Hn)).
  case_bool_decide; [by apply IH|by apply index_at_range].
Qed.

Lemma sample_set_raises (fuel : nat) (range_k : list Z) :
  ∀ selected g e,
    sample_set fuel 25 range_k (xrange 1 26) selected g = Raise e →
    e = NoReturn.
Proof.
  induction range_k as [|i range_k IH]; intros selected g e; [done|].
  cbn [sample_set].
  pose proof (draw_unselected_cases fuel 25 selected g ltac:(lia)) as Hdraw.
  destruct (draw_unselected fuel 25 selected g) as [[j g1]|e1];
    cbn [mbind result_bind rbind]; [|by intros [= <-]].
  assert (getitem (xrange 1 26) j = Ok (1 + j)) as ->.
  { rewrite <-(Z2Nat.id j) by lia. apply getitem_lookup.
    unfold xrange. rewrite lookup_seqZ_lt by lia. done. }
  cbn [mbind result_bind rbind].
  destruct (sample_set fuel 25 range_k (xrange 1 26) ({[j]} ∪ selected) g1)
    as [[res g2]|e2] eqn:Hrec; cbn [mbind result_bind rbind]; [done|].
  intros [= <-]. by apply (IH _ _ _ Hrec).
Qed.

(** X13: [get_random_for_plate] raises a ValueError exactly when [n] is not
    one of 0 .. 25, before any random number is drawn, and it raises no other
    exception: no index of [random.sample] ever leaves the population. (For [n
    <= 5] the rejection loop may not have ended within the fuel.) *)
Theorem get_random_for_plate_errors (fuel : nat) (n : Z) (g : rng) :
  (get_random_for_plate fuel n g = Raise ValueError ↔ ¬ 0 ≤ n ≤ 25)
  ∧ ∀ e, get_random_for_plate fuel n g = Raise e →
         (e = ValueError ∧ ¬ 0 ≤ n ≤ 25)
         ∨ (e = NoReturn ∧ 0 < n ≤ 5).
Proof.
  destruct (decide (0 ≤ n ≤ 25)) as [Hn|Hn].
  - assert (∀ e, get_random_for_plate fuel n g = Raise e →
                 e = NoReturn ∧ 0 < n ≤ 5) as Hraise.
    { intros e. destruct (decide (5 < n)) as [Hbig|Hsmall].
      - destruct (get_random_for_plate_pool n g ltac:(lia))
          as (spots & g' & Hr & _). by rewrite Hr.
      - unfold get_random_for_plate. rewrite sample_xrange.
        replace (negb _) with false
          by (symmetry; apply negb_false_iff, andb_true_iff;
              split; apply Z.leb_le; lia).
        replace (5 <? n) with false by (symmetry; apply Z.ltb_ge; lia).
        destruct (decide (n = 0)) as [->|Hn0]; [done|].
        intros He%sample_set_raises. split; [done|lia]. }
    split.
    + split; [|done]. intros He. by destruct (Hraise _ He).
    + intros e He. right. by apply Hraise.
  - assert (get_random_for_plate fuel n g = Raise ValueError) as ->.
    { unfold get_random_for_plate. rewrite sample_xrange.
      replace (negb _) with true; [done|].
      symmetry. apply negb_true_iff, andb_false_iff.
      destruct (decide (0 ≤ n)); [right; apply Z.leb_gt|left; apply Z.leb_gt];
        lia. }
    split; [done|]. intros e [= <-]. by left.
Qed.

End SampleFacts.

(** * Reports: what the setters write and the reader finds *)

Module DomFacts.
Import Std Reader.

#[local] Set Warnings "-register-all".

(** The tree that a node of the document stands for. *)
Inductive tree :=
| TElement (name : string) (attrs : gmap string string) (children : list tree)
| TText (v : string).

(** Node [i] of the document is the root of a copy of the tree, all of whose
    nodes have their identifiers in [lo, hi). *)
Inductive repr (d : Document) (lo hi : nat) : tree → nat → Prop :=
| repr_Text v i :
    (lo ≤ i < hi)%nat → nodes d !! i = Some (Text v) →
    repr d lo hi (TText v) i
| repr_Element name attrs ts cs i :
    (lo ≤ i < hi)%nat → nodes d !! i = Some (Element name attrs cs) →
    Forall2 (repr d lo hi) ts cs →
    repr d lo hi (TElement name attrs ts) i.

Lemma repr_mono (d d' : Document) (lo hi lo' hi' : nat) :
  (lo' ≤ lo)%nat → (hi ≤ hi')%nat →
  (∀ i, (lo ≤ i < hi)%nat → nodes d' !! i = nodes d !! i) →
  ∀ t i, repr d lo hi t i → repr d' lo' hi' t i.
Proof.
  intros Hlo Hhi Hsame. fix IH 3. intros t i H.
  destruct H as [v i Hi Hn|name attrs ts cs i Hi Hn Hcs].
  - apply repr_Text; [lia|]. by rewrite Hsame.
  - apply (repr_Element _ _ _ _ _ _ cs); [lia|by rewrite Hsame|].
    clear Hn. induction Hcs as [|t c ts cs Ht _ IHcs]; [constructor|].
    constructor; [apply IH, Ht|exact IHcs].
Qed.

Lemma repr_all_mono (d d' : Document) (lo hi lo' hi' : nat) ts cs :
  (lo' ≤ lo)%nat → (hi ≤ hi')%nat →
  (∀ i, (lo ≤ i < hi)%nat → nodes d' !! i = nodes d !! i) →
  Forall2 (repr d lo hi) ts cs → Forall2 (repr d' lo' hi') ts cs.
Proof.
  intros Hlo Hhi Hsame H. eapply Forall2_impl; [exact H|].
  by apply repr_mono.
Qed.

Definition text_element (name : string) (attrs : gmap string string)
    (v : string) : tree :=
  TElement name attrs [TText v].

(** A step of a writer appends a copy of the tree [t] to the children of the
    element [p]: the copy is made of new nodes, and no other node that was
    there before is touched. *)
Definition appends (step : Document → Document) (t : tree) (p : nat) : Prop :=
  ∀ d pn pa pcs,
    nodes d !! p = Some (Element pn pa pcs) →
    let n := length (nodes d) in
    let d' := step d in
    doc_childNodes d' = doc_childNodes d
    ∧ (n < length (nodes d'))%nat
    ∧ nodes d' !! p = Some (Element pn pa (pcs ++ [n]))
    ∧ repr d' n (length (nodes d')) t n
    ∧ ∀ i, i ≠ p → (i < n)%nat → nodes d' !! i = nodes d !! i.

Lemma append_loop {A} (step : Document → A → Document) (tr : A → tree)
    (p : nat) :
  (∀ x, appends (λ d, step d x) (tr x) p) →
  ∀ (items done : list A) (d : Document) pn pa cs,
    nodes d !! p = Some (Element pn pa cs) →
    Forall2 (repr d (S p) (length (nodes d))) (tr <$> done) cs →
    let d' := foldl step d items in
    doc_childNodes d' = doc_childNodes d
    ∧ (length (nodes d) ≤ length (nodes d'))%nat
    ∧ (∀ i, i ≠ p → (i < length (nodes d))%nat →
            nodes d' !! i = nodes d !! i)
    ∧ ∃ cs', nodes d' !! p = Some (Element pn pa cs')
             ∧ Forall2 (repr d' (S p) (length (nodes d')))
                       (tr <$> (done ++ items)) cs'.
Proof.
  intros Hstep items.
  induction items as [|x items IH]; intros done d pn pa cs Hp Hcs d'.
  - subst d'. simpl. split; [done|]. split; [done|]. split; [done|].
    exists cs. by rewrite app_nil_r.
  - subst d'. cbn [foldl].
    destruct (Hstep x d pn pa cs Hp) as (Hdc & Hlen & Hp1 & Hnew & Hold).
    pose proof (lookup_lt_Some _ _ _ Hp) as Hlt.
    destruct (IH (done ++ [x]) (step d x) pn pa (cs ++ [length (nodes d)]) Hp1)
      as (Hdc' & Hlen' & Hold' & cs' & Hp' & Hcs').
    { rewrite fmap_app. apply Forall2_app.
      - eapply repr_all_mono; [| |intros i Hi; apply Hold|exact Hcs]; lia.
      - constructor; [|constructor].
        eapply repr_mono; [| | |exact Hnew]; (lia || done). }
    split; [congruence|]. split; [lia|]. split.
    + intros i Hi Hin. rewrite Hold' by (done || lia). by apply Hold.
    + exists cs'. split; [done|]. by rewrite <-app_assoc in Hcs'.
Qed.

(** Creating an element under [p] and filling it by a loop that appends to
    it appends the whole tree to [p]. *)
Lemma appends_element {A} (create : Document → nat * Document)
    (step : nat → Document → A → Document) (tr : A → tree)
    (name : string) (attrs : gmap string string) (items : list A) (p : nat) :
  (∀ d pn pa pcs,
     nodes d !! p = Some (Element pn pa pcs) →
     let n := length (nodes d) in
     (create d).1 = n
     ∧ doc_childNodes (create d).2 = doc_childNodes d
     ∧ length (nodes (create d).2) = S n
     ∧ nodes (create d).2 !! p = Some (Element pn pa (pcs ++ [n]))
     ∧ nodes (create d).2 !! n = Some (Element name attrs [])
     ∧ ∀ i, i ≠ p → (i < n)%nat → nodes (create d).2 !! i = nodes d !! i) →
  (∀ e x, appends (λ d, step e d x) (tr x) e) →
  appends (λ d, foldl (step (create d).1) (create d).2 items)
          (TElement name attrs (tr <$> items)) p.
Proof.
  intros Hcreate Hstep d pn pa pcs Hp n d'.
  pose proof (lookup_lt_Some _ _ _ Hp) as Hlt.
  destruct (Hcreate d pn pa pcs Hp) as (Hid & Hdc1 & Hlen1 & Hp1 & Hn1 & Hold1).
  fold n in Hid, Hlen1, Hp1, Hn1, Hold1.
  destruct (append_loop (step n) tr n (Hstep n) items [] (create d).2
              name attrs [] Hn1 ltac:(constructor))
    as (Hdc2 & Hlen2 & Hold2 & cs' & Hn2 & Hcs').
  cbn [app] in Hcs'. subst d'. rewrite Hid.
  set (d2 := foldl (step n) (create d).2 items) in *.
  split; [congruence|]. split; [lia|]. split; [|split].
  - rewrite Hold2 by lia. done.
  - apply (repr_Element _ _ _ _ _ _ cs'); [lia|done|].
    eapply repr_all_mono; [| | |exact Hcs']; (lia || done).
  - intros i Hi Hin. rewrite Hold2 by lia. by apply Hold1.
Qed.

Section Writers.

Variable float_str : spec_float → string.

(** A new element with a text and without attributes or child elements,
    appended to an element [p] of the document. *)
Lemma create_element_text (p : nat) (name : string) (text : pyval)
    (d : Document) pn pa pcs :
  after_colon name = None →
  nodes d !! p = Some (Element pn pa pcs) →
  let n := length (nodes d) in
  let r := create_element float_str p name [] [] (Some text) d in
  r.1 = n
  ∧ doc_childNodes r.2 = doc_childNodes d
  ∧ length (nodes r.2) = S (S n)
  ∧ nodes r.2 !! p = Some (Element pn pa (pcs ++ [n]))
  ∧ nodes r.2 !! n = Some (Element name ∅ [S n])
  ∧ nodes r.2 !! S n = Some (Text (py_str float_str text))
  ∧ ∀ i, i ≠ p → (i < n)%nat → nodes r.2 !! i = nodes d !! i.
Proof.
  intros Hname Hp n r. destruct d as [L dc]. simpl in *.
  pose proof (lookup_lt_Some _ _ _ Hp) as Hlt.
  unfold r, create_element, createElementNS, createTextNode, appendChild,
    update_node.
  cbn [nodes doc_childNodes fst snd foldl]. rewrite Hname. cbn [default].
  fold n.
  assert (length (alter
            (λ nd, match nd with
                   | Element n0 a cs => Element n0 a (cs ++ [n])
                   | Text v => Text v
                   end) p (L ++ [Element name ∅ []])) = S n) as Hlen.
  { rewrite length_alter, length_app. simpl. lia. }
  rewrite Hlen.
  split; [done|]. split; [done|].
  split; [rewrite length_alter, length_app, Hlen; simpl; lia|].
  split; [|split; [|split]].
  - rewrite list_lookup_alter_ne by lia.
    rewrite lookup_app_l by lia.
    rewrite list_lookup_alter_eq, lookup_app_l, Hp by done. done.
  - rewrite list_lookup_alter_eq.
    rewrite lookup_app_l by lia.
    rewrite list_lookup_alter_ne by lia.
    by rewrite lookup_app_r, Nat.sub_diag by done.
  - rewrite list_lookup_alter_ne by lia.
    rewrite lookup_app_r by lia. by rewrite Hlen, Nat.sub_diag.
  - intros i Hi Hin.
    rewrite list_lookup_alter_ne by lia.
    rewrite lookup_app_l by lia.
    rewrite list_lookup_alter_ne by done.
    by rewrite lookup_app_l.
Qed.

(** A new element [area] with the attribute [id] and nothing else, appended
    to an element [p] of the document. *)
Lemma create_element_id (p : nat) (area : string) (d : Document) pn pa pcs :
  nodes d !! p = Some (Element pn pa pcs) →
  let n := length (nodes d) in
  let r := create_element float_str p "area" [] [("id", PyStr area)] None d in
  r.1 = n
  ∧ doc_childNodes r.2 = doc_childNodes d
  ∧ length (nodes r.2) = S n
  ∧ nodes r.2 !! p = Some (Element pn pa (pcs ++ [n]))
  ∧ nodes r.2 !! n = Some (Element "area" {[ "id" := area ]} [])
  ∧ ∀ i, i ≠ p → (i < n)%nat → nodes r.2 !! i = nodes d !! i.
Proof.
  intros Hp n r. destruct d as [L dc]. simpl in *.
  pose proof (lookup_lt_Some _ _ _ Hp) as Hlt.
  unfold r, create_element, createElementNS, appendChild, setAttribute,
    update_node.
  cbn [nodes doc_childNodes fst snd foldl after_colon Ascii.eqb Bool.eqb
       default py_str].
  fold n.
  split; [done|]. split; [done|].
  split; [rewrite !length_alter, length_app; simpl; lia|].
  split; [|split].
  - rewrite list_lookup_alter_ne by lia.
    rewrite list_lookup_alter_eq, lookup_app_l, Hp by done. done.
  - rewrite list_lookup_alter_eq.
    rewrite list_lookup_alter_ne by lia.
    rewrite lookup_app_r, Nat.sub_diag by done. simpl.
    by rewrite insert_empty.
  - intros i Hi Hin.
    rewrite list_lookup_alter_ne by lia.
    rewrite list_lookup_alter_ne by done.
    by rewrite lookup_app_l.
Qed.

Definition area_tree (item : string * pyval) : tree :=
  text_element "area" {[ "id" := item.1 ]} (py_str float_str item.2).

Definition spot_tree (spot : string) : tree := text_element "spot" ∅ spot.

Definition area_definition_tree (item : string * list string) : tree :=
  TElement "area" {[ "id" := item.1 ]} (spot_tree <$> item.2).

Lemma appends_text (p : nat) (name : string) (text : pyval) :
  after_colon name = None →
  appends (λ d, (create_element float_str p name [] [] (Some text) d).2)
          (text_element name ∅ (py_str float_str text)) p.
Proof.
  intros Hname d pn pa pcs Hp n d'.
  pose proof (lookup_lt_Some _ _ _ Hp) as Hlt.
  destruct (create_element_text p name text d pn pa pcs Hname Hp)
    as (_ & Hdc & Hlen & Hp1 & Hn & Ht & Hold).
  fold n d' in Hdc, Hlen, Hp1, Hn, Ht, Hold.
  split; [done|]. split; [lia|]. split; [done|]. split; [|done].
  rewrite Hlen. apply (repr_Element _ _ _ _ _ _ [S n]); [lia|done|].
  constructor; [|constructor]. apply repr_Text; [lia|done].
Qed.

Lemma appends_area (p : nat) (item : string * pyval) :
  appends (λ d, (create_element float_str p "area" []
                   [("id", PyStr item.1)] (Some item.2) d).2)
          (area_tree item) p.
Proof.
  intros d pn pa pcs Hp n d'.
  pose proof (lookup_lt_Some _ _ _ Hp) as Hlt.
  destruct (ReportFacts.create_element_area float_str p item.1 item.2 d
              pn pa pcs Hp) as (Hdc & Hlen & Hp1 & Hn & Ht & Hold).
  fold n d' in Hdc, Hlen, Hp1, Hn, Ht, Hold.
  split; [done|]. split; [lia|]. split; [done|]. split; [|done].
  rewrite Hlen. apply (repr_Element _ _ _ _ _ _ [S n]); [lia|done|].
  constructor; [|constructor]. apply repr_Text; [lia|done].
Qed.

Lemma appends_spot (e : nat) (spot : string) :
  appends (λ d, (create_element float_str e "spot" [] []
                   (Some (PyStr spot)) d).2)
          (spot_tree spot) e.
Proof. by apply (appends_text e "spot" (PyStr spot)). Qed.

Lemma appends_area_definition (p : nat) (item : string * list string) :
  appends (λ d, let '(area_element, d) :=
                  create_element float_str p "area" []
                    [("id", PyStr item.1)] None d in
                foldl (λ d spot,
                         (create_element float_str area_element "spot" [] []
                            (Some (PyStr spot)) d).2)
                      d item.2)
          (area_definition_tree item) p.
Proof.
  pose proof (appends_element
    (λ d, create_element float_str p "area" [] [("id", PyStr item.1)] None d)
    (λ e d spot,
       (create_element float_str e "spot" [] [] (Some (PyStr spot)) d).2)
    spot_tree "area" {[ "id" := item.1 ]} item.2 p) as H.
  intros d pn pa pcs Hp.
  specialize (H (λ d pn pa pcs Hp, create_element_id p item.1 d pn pa pcs Hp)
                appends_spot d pn pa pcs Hp).
  cbv beta zeta in H |- *.
  by destruct (create_element float_str p "area" [] [("id", PyStr item.1)]
                 None d).
Qed.

(** What a setter of the generator does to the report element. *)
Definition writes (set : ReportGenerator → ReportGenerator) (t : tree) : Prop :=
  ∀ top, appends (λ d, doc (set {| doc := d; report := top |})) t top
         ∧ ∀ d, report (set {| doc := d; report := top |}) = top.

Definition analysis_tree (name : string) : tree :=
  text_element "analysis" ∅ (default name (analysis_names !! name)).

Definition totals_tree (name : string) (items : list (string * pyval)) : tree :=
  TElement name ∅ (area_tree <$> items).

Definition definition_tree (definition : gmap string (list string)) : tree :=
  TElement "plate_areas_definition" ∅
           (area_definition_tree <$> map_to_list definition).

Lemma set_analysis_writes (name : string) :
  writes (set_analysis float_str name) (analysis_tree name).
Proof.
  intros top. split.
  - pose proof (appends_text top "analysis"
                  (PyStr (default name (analysis_names !! name))) eq_refl) as H.
    intros d pn pa pcs Hp. specialize (H d pn pa pcs Hp).
    unfold set_analysis. cbn [doc report]. cbv beta zeta in H |- *.
    by destruct (create_element float_str top "analysis" [] [] _ d).
  - intros d. unfold set_analysis. cbn [doc report].
    by destruct (create_element float_str top "analysis" [] [] _ d).
Qed.

Lemma set_area_totals_writes (name : string) (items : list (string * pyval)) :
  after_colon name = None →
  writes (set_area_totals float_str name items) (totals_tree name items).
Proof.
  intros Hname top. split.
  - pose proof (appends_element
      (λ d, create_element float_str top name [] [] None d)
      (λ e d '(area, total),
         (create_element float_str e "area" [] [("id", PyStr area)]
            (Some total) d).2)
      area_tree name ∅ items top) as H.
    intros d pn pa pcs Hp.
    specialize (H (λ d pn pa pcs Hp,
                     ReportFacts.create_element_plain float_str top name d
                       pn pa pcs Hname Hp)).
    specialize (H (λ e x, match x with (area, total) =>
                            appends_area e (area, total) end) d pn pa pcs Hp).
    unfold set_area_totals. cbn [doc report]. cbv beta zeta in H |- *.
    by destruct (create_element float_str top name [] [] None d).
  - intros d. unfold set_area_totals. cbn [doc report].
    by destruct (create_element float_str top name [] [] None d).
Qed.

Lemma set_plate_areas_definition_writes (definition : gmap string (list string)) :
  writes (set_plate_areas_definition float_str definition)
         (definition_tree definition).
Proof.
  intros top. split.
  - pose proof (appends_element
      (λ d, create_element float_str top "plate_areas_definition" [] [] None d)
      (λ e d '(area, spots),
         let '(area_element, d) :=
           create_element float_str e "area" [] [("id", PyStr area)] None d in
         foldl (λ d spot,
                  (create_element float_str area_element "spot" [] []
                     (Some (PyStr spot)) d).2)
               d spots)
      area_definition_tree "plate_areas_definition" ∅
      (map_to_list definition) top) as H.
    intros d pn pa pcs Hp.
    specialize (H (λ d pn pa pcs Hp,
                     ReportFacts.create_element_plain float_str top
                       "plate_areas_definition" d pn pa pcs eq_refl Hp)).
    specialize (H (λ e x, match x with (area, spots) =>
                            appends_area_definition e (area, spots) end)
                  d pn pa pcs Hp).
    unfold set_plate_areas_definition. cbn [doc report].
    cbv beta zeta in H |- *.
    by destruct (create_element float_str top "plate_areas_definition"
                   [] [] None d).
  - intros d. unfold set_plate_areas_definition. cbn [doc report].
    by destruct (create_element float_str top "plate_areas_definition"
                   [] [] None d).
Qed.

End Writers.

(** The report element of the generator has the children [ts], in that
    order. *)
Definition report_repr (r : ReportGenerator) (ts : list tree) : Prop :=
  doc_childNodes (doc r) = [report r]
  ∧ ∃ attrs cs,
      nodes (doc r) !! report r = Some (Element "report" attrs cs)
      ∧ Forall2 (repr (doc r) (S (report r)) (length (nodes (doc r)))) ts cs.

Lemma report_repr_init : report_repr ReportGenerator_init [].
Proof.
  split; [reflexivity|]. eexists _, []. split; [reflexivity|constructor].
Qed.

Lemma writes_repr (set : ReportGenerator → ReportGenerator) (t : tree)
    (r : ReportGenerator) (ts : list tree) :
  writes set t → report_repr r ts → report_repr (set r) (ts ++ [t]).
Proof.
  intros Hset (Hdc & attrs & cs & Htop & Hcs). destruct r as [d top].
  cbn [doc report] in *.
  destruct (Hset top) as [Happ Hreport].
  destruct (Happ d "report"%string attrs cs Htop)
    as (Hdc' & Hlen & Htop' & Hnew & Hold).
  pose proof (lookup_lt_Some _ _ _ Htop) as Hlt.
  split; [rewrite Hreport; congruence|]. rewrite Hreport.
  exists attrs, (cs ++ [length (nodes d)]). split; [done|].
  apply Forall2_app.
  - eapply repr_all_mono; [| |intros i Hi; apply Hold|exact Hcs]; lia.
  - constructor; [|constructor].
    eapply repr_mono; [| | |exact Hnew]; (lia || done).
Qed.

(** ** Reading a report *)

Definition tree_name (t : tree) : option string :=
  match t with
  | TElement name _ _ => Some name
  | TText _ => None
  end.

Definition tree_is (name : string) (t : tree) : bool :=
  match t with
  | TElement n _ _ => bool_decide (n = name)
  | TText _ => false
  end.

Fixpoint first_tree (name : string) (ts : list tree) : option tree :=
  match ts with
  | [] => None
  | t :: ts => if tree_is name t then Some t else first_tree name ts
  end.

Lemma repr_node (d : Document) lo hi t c :
  repr d lo hi t c →
  ∃ nd, nodes d !! c = Some nd
        ∧ (∀ name, is_element nd name = tree_is name t)
        ∧ match t, nd with
          | TElement n a ts, Element n' a' cs =>
              n' = n ∧ a' = a ∧ Forall2 (repr d lo hi) ts cs
          | TText v, Text v' => v' = v
          | _, _ => False
          end.
Proof.
  intros [v i Hi Hn|name attrs ts cs i Hi Hn Hcs]; eexists; (split; [done|]);
    done.
Qed.

Lemma report_elements_loop (d : Document) lo hi ts cs :
  Forall2 (repr d lo hi) ts cs →
  ∀ acc,
    for_each (λ report_elements e,
                nd ← node_at d e ;
                match nd with
                | Element localName _ _ => Ok (report_elements ++ [localName])
                | Text _ => Ok report_elements
                end) cs acc
    = Ok (acc ++ omap tree_name ts).
Proof.
  induction 1 as [|t c ts cs Ht _ IH]; intros acc.
  - by rewrite app_nil_r.
  - cbn [for_each].
    destruct (repr_node _ _ _ _ _ Ht) as (nd & Hnd & _ & Hshape).
    rewrite (ReportFacts.node_at_Some _ _ _ Hnd).
    destruct t as [n a tts|v], nd as [n' a' ccs|v']; try done;
      cbn [mbind result_bind rbind omap tree_name].
    + destruct Hshape as (-> & _ & _).
      etrans; [apply IH|]. simpl. by rewrite <-app_assoc.
    + apply IH.
Qed.

Lemma found_loop (d : Document) (name : string) (p : nat) (cs : list nat) :
  for_each (λ element e,
              match element with
              | Some _ => Ok element
              | None =>
                  nd ← node_at d e ;
                  Ok (if is_element nd name then Some e else None)
              end) cs (Some p)
  = Ok (Some p).
Proof. induction cs as [|c cs IH]; [done|]. cbn [for_each]. exact IH. Qed.

Lemma get_element_loop (d : Document) lo hi (name : string) ts cs :
  Forall2 (repr d lo hi) ts cs →
  match first_tree name ts with
  | Some t =>
      ∃ p, for_each (λ element e,
                       match element with
                       | Some _ => Ok element
                       | None =>
                           nd ← node_at d e ;
                           Ok (if is_element nd name then Some e else None)
                       end) cs None = Ok (Some p)
           ∧ repr d lo hi t p
  | None =>
      for_each (λ element e,
                  match element with
                  | Some _ => Ok element
                  | None =>
                      nd ← node_at d e ;
                      Ok (if is_element nd name then Some e else None)
                  end) cs None = Ok None
  end.
Proof.
  induction 1 as [|t c ts cs Ht _ IH]; [done|].
  cbn [for_each first_tree].
  destruct (repr_node _ _ _ _ _ Ht) as (nd & Hnd & His & _).
  rewrite (ReportFacts.node_at_Some _ _ _ Hnd).
  cbn [mbind result_bind rbind]. rewrite His.
  destruct (tree_is name t); [|exact IH].
  exists c. split; [|done]. apply found_loop.
Qed.

Lemma first_child_text_repr (d : Document) lo hi n a v tts nd c :
  repr d lo hi (TElement n a (TText v :: tts)) c →
  nodes d !! c = Some nd →
  first_child_text d nd = Ok (strip v).
Proof.
  intros Ht Hnd.
  destruct (repr_node _ _ _ _ _ Ht) as (nd' & Hnd' & _ & Hshape).
  assert (nd' = nd) as -> by congruence.
  destruct nd as [n' a' ccs|]; [|done]. destruct Hshape as (_ & _ & Hch).
  apply Forall2_cons_inv_l in Hch as (tc & ccs' & Htc & _ & ->).
  destruct (repr_node _ _ _ _ _ Htc) as ([|v'] & Hv & _ & Hshape); [done|].
  subst v'. unfold first_child_text. cbn [childNodes_of].
  change (getitem (tc :: ccs') 0) with (Ok tc).
  cbn [mbind result_bind rbind].
  by rewrite (ReportFacts.node_at_Some _ _ _ Hv).
Qed.

Lemma named_loop (d : Document) (v : string) (cs : list nat) :
  for_each (λ analysis_name e,
              match analysis_name with
              | Some _ => Ok analysis_name
              | None =>
                  nd ← node_at d e ;
                  if is_element nd "analysis" then
                    v ← first_child_text d nd ;
                    Ok (Some v)
                  else Ok None
              end) cs (Some v)
  = Ok (Some v).
Proof. induction cs as [|c cs IH]; [done|]. cbn [for_each]. exact IH. Qed.

Lemma analysis_loop (d : Document) lo hi ts cs :
  Forall2 (repr d lo hi) ts cs →
  match first_tree "analysis" ts with
  | Some (TElement _ _ (TText v :: _)) =>
      for_each (λ analysis_name e,
                  match analysis_name with
                  | Some _ => Ok analysis_name
                  | None =>
                      nd ← node_at d e ;
                      if is_element nd "analysis" then
                        v ← first_child_text d nd ;
                        Ok (Some v)
                      else Ok None
                  end) cs None = Ok (Some (strip v))
  | Some _ => True
  | None =>
      for_each (λ analysis_name e,
                  match analysis_name with
                  | Some _ => Ok analysis_name
                  | None =>
                      nd ← node_at d e ;
                      if is_element nd "analysis" then
                        v ← first_child_text d nd ;
                        Ok (Some v)
                      else Ok None
                  end) cs None = Ok None
  end.
Proof.
  induction 1 as [|t c ts cs Ht _ IH]; [done|].
  cbn [for_each first_tree].
  destruct (repr_node _ _ _ _ _ Ht) as (nd & Hnd & His & Hshape).
  rewrite (ReportFacts.node_at_Some _ _ _ Hnd).
  cbn [mbind result_bind rbind]. rewrite His.
  destruct (tree_is "analysis" t); [|exact IH].
  destruct t as [n a [|[|v] tts]|]; try done.
  rewrite (first_child_text_repr d lo hi n a v tts nd c Ht Hnd).
  cbn [mbind result_bind rbind]. apply named_loop.
Qed.

Section Readers.

Context (d : Document) (top : nat) (attrs : gmap string string)
        (cs : list nat) (ts : list tree) (lo hi : nat).
Hypothesis Hdc : doc_childNodes d = [top].
Hypothesis Htop : nodes d !! top = Some (Element "report" attrs cs).
Hypothesis Hcs : Forall2 (repr d lo hi) ts cs.

Lemma ReportReader_init_repr : ReportReader_init d = Ok d.
Proof.
  unfold ReportReader_init. rewrite Hdc.
  change (getitem [top] 0) with (Ok top). cbn [mbind result_bind rbind].
  rewrite (ReportFacts.node_at_Some _ _ _ Htop).
  cbn [mbind result_bind rbind is_element].
  by rewrite bool_decide_eq_true_2.
Qed.

Lemma get_report_elements_repr :
  get_report_elements d = Ok (omap tree_name ts).
Proof.
  unfold get_report_elements. rewrite Hdc.
  change (getitem [top] 0) with (Ok top). cbn [mbind result_bind rbind].
  rewrite (ReportFacts.node_at_Some _ _ _ Htop).
  cbn [mbind result_bind rbind childNodes_of].
  apply (report_elements_loop d lo hi ts cs Hcs []).
Qed.

Lemma get_element_repr (name : string) :
  match first_tree name ts with
  | Some t => ∃ p, get_element d name = Ok (Some p) ∧ repr d lo hi t p
  | None => get_element d name = Ok None
  end.
Proof.
  unfold get_element. rewrite Hdc.
  change (getitem [top] 0) with (Ok top). cbn [mbind result_bind rbind].
  rewrite (ReportFacts.node_at_Some _ _ _ Htop).
  cbn [mbind result_bind rbind childNodes_of].
  apply (get_element_loop d lo hi name ts cs Hcs).
Qed.

Lemma get_analysis_name_repr :
  match first_tree "analysis" ts with
  | Some (TElement _ _ (TText v :: _)) =>
      get_analysis_name d = Ok (Some (strip v))
  | Some _ => True
  | None => get_analysis_name d = Ok None
  end.
Proof.
  unfold get_analysis_name. rewrite Hdc.
  change (getitem [top] 0) with (Ok top). cbn [mbind result_bind rbind].
  rewrite (ReportFacts.node_at_Some _ _ _ Htop).
  cbn [mbind result_bind rbind childNodes_of].
  apply (analysis_loop d lo hi ts cs Hcs).
Qed.

End Readers.

(** The loop of [get_plate_areas_definition] over the [spot] elements of
    an area, and its loop over the areas. *)
Definition read_spot (d : Document) (area_id : string)
    (definition : gmap string (list string)) (e2 : nat)
  : result (gmap string (list string)) :=
  nd2 ← node_at d e2 ;
  v ← first_child_text d nd2 ;
  match definition !! area_id with
  | Some spots => Ok (<[area_id := spots ++ [v]]> definition)
  | None => Raise KeyError
  end.

Definition read_area_definition (d : Document)
    (definition : gmap string (list string)) (e : nat)
  : result (gmap string (list string)) :=
  nd ← node_at d e ;
  if is_element nd "area" then
    let area_id := getAttribute nd "id" in
    let definition :=
      match definition !! area_id with
      | None => <[area_id := []]> definition
      | Some _ => definition
      end in
    for_each (read_spot d area_id) (childNodes_of nd) definition
  else Ok definition.

Lemma read_spot_repr (d : Document) lo hi (area spot : string) c
    definition l0 :
  repr d lo hi (spot_tree spot) c →
  definition !! area = Some l0 →
  read_spot d area definition c = Ok (<[area := l0 ++ [strip spot]]> definition).
Proof.
  intros Hc Hl0.
  destruct (repr_node _ _ _ _ _ Hc) as (nd & Hnd & _ & _).
  unfold read_spot. rewrite (ReportFacts.node_at_Some _ _ _ Hnd).
  cbn [mbind result_bind rbind].
  rewrite (first_child_text_repr d lo hi _ _ _ _ nd c Hc Hnd).
  cbn [mbind result_bind rbind]. by rewrite Hl0.
Qed.

Lemma read_spots_loop (d : Document) lo hi (area : string) spots scs :
  Forall2 (repr d lo hi) (spot_tree <$> spots) scs →
  ∀ definition l0,
    definition !! area = Some l0 →
    for_each (read_spot d area) scs definition
    = Ok (<[area := l0 ++ (strip <$> spots)]> definition).
Proof.
  revert scs. induction spots as [|spot spots IH];
    intros scs H definition l0 Hl0.
  - apply Forall2_nil_inv_l in H as ->.
    cbn [for_each]. by rewrite fmap_nil, app_nil_r, insert_id.
  - rewrite fmap_cons in H.
    apply Forall2_cons_inv_l in H as (c & scs' & Hc & H & ->).
    cbn [for_each].
    rewrite (read_spot_repr d lo hi area spot c definition l0 Hc Hl0).
    cbn [mbind result_bind rbind].
    rewrite (IH scs' H _ (l0 ++ [strip spot])) by apply lookup_insert_eq.
    rewrite insert_insert_eq, fmap_cons. by rewrite <-app_assoc.
Qed.

Lemma read_area_definition_repr (d : Document) lo hi item c definition :
  repr d lo hi (area_definition_tree item) c →
  read_area_definition d definition c
  = Ok (<[item.1 := default [] (definition !! item.1) ++ (strip <$> item.2)]>
          definition).
Proof.
  intros Hc.
  destruct (repr_node _ _ _ _ _ Hc) as (nd & Hnd & His & Hshape).
  unfold read_area_definition. rewrite (ReportFacts.node_at_Some _ _ _ Hnd).
  cbn [mbind result_bind rbind]. rewrite His.
  unfold area_definition_tree in Hshape |- *. cbn [tree_is].
  rewrite bool_decide_eq_true_2 by done.
  destruct nd as [n a scs|]; [|done]. destruct Hshape as (-> & -> & Hscs).
  cbn [getAttribute childNodes_of]. rewrite lookup_singleton_eq.
  cbn [default from_option id].
  destruct (definition !! item.1) as [l0|] eqn:Hl0; cbn [default from_option id].
  - by apply (read_spots_loop d lo hi).
  - rewrite (read_spots_loop d lo hi item.1 item.2 scs Hscs _ [])
      by apply lookup_insert_eq.
    by rewrite insert_insert_eq.
Qed.

Lemma read_definition_loop (d : Document) lo hi items cs :
  Forall2 (repr d lo hi) (area_definition_tree <$> items) cs →
  ∀ definition,
    for_each (read_area_definition d) cs definition
    = Ok (foldl (λ m item,
                   <[item.1 := default [] (m !! item.1) ++ (strip <$> item.2)]> m)
                definition items).
Proof.
  revert cs. induction items as [|item items IH]; intros cs H definition.
  - by apply Forall2_nil_inv_l in H as ->.
  - rewrite fmap_cons in H.
    apply Forall2_cons_inv_l in H as (c & cs' & Hc & H & ->).
    cbn [for_each foldl].
    rewrite (read_area_definition_repr d lo hi item c definition Hc).
    cbn [mbind result_bind rbind]. by apply IH.
Qed.

Lemma foldl_definition (l : list (string * list string)) :
  ∀ acc : gmap string (list string),
    NoDup l.*1 → (∀ k, k ∈ l.*1 → acc !! k = None) →
    foldl (λ m item,
             <[item.1 := default [] (m !! item.1) ++ (strip <$> item.2)]> m)
          acc l
    = foldl (λ m item, <[item.1 := strip <$> item.2]> m) acc l.
Proof.
  induction l as [|[k spots] l IH]; intros acc Hnd Hacc; [done|].
  rewrite fmap_cons in Hnd, Hacc. apply NoDup_cons in Hnd as [Hk Hnd].
  cbn [foldl fst snd]. rewrite (Hacc k) by apply list_elem_of_here.
  cbn [default app]. apply IH; [done|]. intros k' Hk'.
  rewrite lookup_insert_ne by (intros ->; done).
  by apply Hacc, list_elem_of_further.
Qed.

Lemma foldl_definition_map_to_list (definition : gmap string (list string)) :
  foldl (λ m item,
           <[item.1 := default [] (m !! item.1) ++ (strip <$> item.2)]> m)
        (∅ : gmap string (list string)) (map_to_list definition)
  = (λ spots : list string, strip <$> spots) <$> definition.
Proof.
  rewrite foldl_definition.
  - apply (ReportFacts.foldl_insert_map_to_list
             (λ spots : list string, strip <$> spots)).
  - apply NoDup_fst_map_to_list.
  - intros k _. apply lookup_empty.
Qed.

Section ReadTotals.

Variable float_str : spec_float → string.

Lemma read_area_repr (d : Document) lo hi item c totals :
  repr d lo hi (area_tree float_str item) c →
  ReportFacts.read_area d totals c
  = Ok (<[item.1 := PyStr (strip (py_str float_str item.2))]> totals).
Proof.
  intros Hc.
  destruct (repr_node _ _ _ _ _ Hc) as (nd & Hnd & His & Hshape).
  unfold ReportFacts.read_area. rewrite (ReportFacts.node_at_Some _ _ _ Hnd).
  cbn [mbind result_bind rbind]. rewrite His.
  unfold area_tree, text_element in Hc, Hshape |- *. cbn [tree_is].
  rewrite bool_decide_eq_true_2 by done.
  rewrite (first_child_text_repr d lo hi _ _ _ _ nd c Hc Hnd).
  cbn [mbind result_bind rbind].
  destruct nd as [n a scs|]; [|done]. destruct Hshape as (-> & -> & _).
  cbn [getAttribute]. by rewrite lookup_singleton_eq.
Qed.

Lemma read_totals_loop (d : Document) lo hi items cs :
  Forall2 (repr d lo hi) (area_tree float_str <$> items) cs →
  ∀ totals,
    for_each (ReportFacts.read_area d) cs totals
    = Ok (foldl (λ m item,
                   <[item.1 := PyStr (strip (py_str float_str item.2))]> m)
                totals items).
Proof.
  revert cs. induction items as [|item items IH]; intros cs H totals.
  - by apply Forall2_nil_inv_l in H as ->.
  - rewrite fmap_cons in H.
    apply Forall2_cons_inv_l in H as (c & cs' & Hc & H & ->).
    cbn [for_each foldl].
    rewrite (read_area_repr d lo hi item c totals Hc).
    cbn [mbind result_bind rbind]. by apply IH.
Qed.

End ReadTotals.

Section Contents.

Context (d : Document) (top : nat) (attrs : gmap string string)
        (cs : list nat) (ts : list tree) (lo hi : nat).
Hypothesis Hdc : doc_childNodes d = [top].
Hypothesis Htop : nodes d !! top = Some (Element "report" attrs cs).
Hypothesis Hcs : Forall2 (repr d lo hi) ts cs.

Lemma get_area_totals_from_repr (float_str : spec_float → string)
    (name : string) :
  match first_tree name ts with
  | Some (TElement _ _ children) =>
      ∀ items, children = area_tree float_str <$> items →
               get_area_totals_from name d
               = Ok (Some (foldl (λ m item,
                             <[item.1 := PyStr (strip (py_str float_str item.2))]> m)
                           ∅ items))
  | Some (TText _) => True
  | None => get_area_totals_from name d = Ok None
  end.
Proof.
  pose proof (get_element_repr d top attrs cs ts lo hi Hdc Htop Hcs name) as H.
  unfold get_area_totals_from.
  destruct (first_tree name ts) as [[n a children|]|]; [|done|by rewrite H].
  destruct H as (p & -> & Hp). intros items ->.
  cbn [mbind result_bind rbind].
  destruct (repr_node _ _ _ _ _ Hp) as ([n' a' pcs|] & Hnd & _ & Hshape);
    [|done].
  destruct Hshape as (_ & _ & Hch).
  rewrite (ReportFacts.node_at_Some _ _ _ Hnd).
  cbn [mbind result_bind rbind childNodes_of].
  change (for_each _ pcs ∅) with (for_each (ReportFacts.read_area d) pcs ∅).
  by rewrite (read_totals_loop float_str d lo hi items pcs Hch).
Qed.

Lemma get_plate_areas_definition_repr :
  match first_tree "plate_areas_definition" ts with
  | Some (TElement _ _ children) =>
      ∀ items, children = area_definition_tree <$> items →
               get_plate_areas_definition d
               = Ok (Some (foldl (λ m item,
                             <[item.1 := default [] (m !! item.1)
                                         ++ (strip <$> item.2)]> m)
                           ∅ items))
  | Some (TText _) => True
  | None => get_plate_areas_definition d = Ok None
  end.
Proof.
  pose proof (get_element_repr d top attrs cs ts lo hi Hdc Htop Hcs
                "plate_areas_definition") as H.
  unfold get_plate_areas_definition.
  destruct (first_tree "plate_areas_definition" ts) as [[n a children|]|];
    [|done|by rewrite H].
  destruct H as (p & -> & Hp). intros items ->.
  cbn [mbind result_bind rbind].
  destruct (repr_node _ _ _ _ _ Hp) as ([n' a' pcs|] & Hnd & _ & Hshape);
    [|done].
  destruct Hshape as (_ & _ & Hch).
  rewrite (ReportFacts.node_at_Some _ _ _ Hnd).
  cbn [mbind result_bind rbind childNodes_of].
  change (for_each _ pcs ∅) with (for_each (read_area_definition d) pcs ∅).
  by rewrite (read_definition_loop d lo hi items pcs Hch).
Qed.

End Contents.

(** ** Reports made by a sequence of calls of the setters *)

Inductive setter :=
| SetAnalysis (name : string)
| SetPlateAreasDefinition (definition : gmap string (list string))
| SetAreaTotalsObserved (totals_observed : gmap string Z)
| SetAreaTotalsExpected (totals_expected : gmap string spec_float).

Definition element_name (s : setter) : string :=
  match s with
  | SetAnalysis _ => "analysis"
  | SetPlateAreasDefinition _ => "plate_areas_definition"
  | SetAreaTotalsObserved _ => "area_totals_observed"
  | SetAreaTotalsExpected _ => "area_totals_expected"
  end.

Definition first_analysis (l : list setter) : option string :=
  head (omap (λ s, match s with SetAnalysis name => Some name | _ => None end) l).

Definition first_definition (l : list setter)
  : option (gmap string (list string)) :=
  head (omap (λ s, match s with
                   | SetPlateAreasDefinition definition => Some definition
                   | _ => None
                   end) l).

Definition first_observed (l : list setter) : option (gmap string Z) :=
  head (omap (λ s, match s with
                   | SetAreaTotalsObserved totals => Some totals
                   | _ => None
                   end) l).

Definition first_expected (l : list setter) : option (gmap string spec_float) :=
  head (omap (λ s, match s with
                   | SetAreaTotalsExpected totals => Some totals
                   | _ => None
                   end) l).

Section Calls.

Variable float_str : spec_float → string.

Definition call (s : setter) (r : ReportGenerator) : ReportGenerator :=
  match s with
  | SetAnalysis name => set_analysis float_str name r
  | SetPlateAreasDefinition definition =>
      set_plate_areas_definition float_str definition r
  | SetAreaTotalsObserved totals => set_area_totals_observed float_str totals r
  | SetAreaTotalsExpected totals => set_area_totals_expected float_str totals r
  end.

(** The generator after the calls [l] on a new [ReportGenerator()]. *)
Definition calls (l : list setter) : ReportGenerator :=
  foldl (λ r s, call s r) ReportGenerator_init l.

Definition setter_tree (s : setter) : tree :=
  match s with
  | SetAnalysis name => analysis_tree name
  | SetPlateAreasDefinition definition => definition_tree definition
  | SetAreaTotalsObserved totals =>
      totals_tree float_str "area_totals_observed"
                  (map_to_list (PyInt <$> totals))
  | SetAreaTotalsExpected totals =>
      totals_tree float_str "area_totals_expected"
                  (map_to_list (PyFloat <$> totals))
  end.

Lemma call_writes (s : setter) : writes (call s) (setter_tree s).
Proof.
  destruct s as [name|definition|totals|totals]; cbn [call setter_tree].
  - apply set_analysis_writes.
  - apply set_plate_areas_definition_writes.
  - exact (set_area_totals_writes float_str "area_totals_observed"
             (map_to_list (PyInt <$> totals)) eq_refl).
  - exact (set_area_totals_writes float_str "area_totals_expected"
             (map_to_list (PyFloat <$> totals)) eq_refl).
Qed.

Lemma calls_repr (l : list setter) : report_repr (calls l) (setter_tree <$> l).
Proof.
  induction l as [|s l IH] using rev_ind; [apply report_repr_init|].
  unfold calls. rewrite foldl_app, fmap_app. cbn [foldl fmap list_fmap].
  apply writes_repr; [apply call_writes|exact IH].
Qed.

Lemma setter_tree_names (l : list setter) :
  omap tree_name (setter_tree <$> l) = element_name <$> l.
Proof. induction l as [|[] l IH]; [done|..]; simpl in *; by f_equal. Qed.

Lemma first_tree_setter (name : string) (l : list setter) :
  first_tree name (setter_tree <$> l)
  = setter_tree <$> head (filter (λ s, element_name s = name) l).
Proof.
  induction l as [|s l IH]; [done|]. rewrite fmap_cons. cbn [first_tree].
  rewrite filter_cons.
  assert (tree_is name (setter_tree s) = bool_decide (element_name s = name))
    as -> by (by destruct s).
  destruct (decide (element_name s = name)) as [Hs|Hs].
  - by rewrite bool_decide_eq_true_2.
  - by rewrite bool_decide_eq_false_2.
Qed.

Lemma first_analysis_filter (l : list setter) :
  head (filter (λ s, element_name s = "analysis"%string) l)
  = SetAnalysis <$> first_analysis l.
Proof.
  unfold first_analysis.
  induction l as [|[] l IH]; [done|..]; rewrite filter_cons; cbn [omap];
    destruct (decide _) as [H|H]; try done; cbn in H; try done.
Qed.

Lemma first_definition_filter (l : list setter) :
  head (filter (λ s, element_name s = "plate_areas_definition"%string) l)
  = SetPlateAreasDefinition <$> first_definition l.
Proof.
  unfold first_definition.
  induction l as [|[] l IH]; [done|..]; rewrite filter_cons; cbn [omap];
    destruct (decide _) as [H|H]; try done; cbn in H; try done.
Qed.

Lemma first_observed_filter (l : list setter) :
  head (filter (λ s, element_name s = "area_totals_observed"%string) l)
  = SetAreaTotalsObserved <$> first_observed l.
Proof.
  unfold first_observed.
  induction l as [|[] l IH]; [done|..]; rewrite filter_cons; cbn [omap];
    destruct (decide _) as [H|H]; try done; cbn in H; try done.
Qed.

Lemma first_expected_filter (l : list setter) :
  head (filter (λ s, element_name s = "area_totals_expected"%string) l)
  = SetAreaTotalsExpected <$> first_expected l.
Proof.
  unfold first_expected.
  induction l as [|[] l IH]; [done|..]; rewrite filter_cons; cbn [omap];
    destruct (decide _) as [H|H]; try done; cbn in H; try done.
Qed.

(** X14: Whatever setters were called on a new generator, and in whatever
    order, the reader accepts the report, and [get_report_elements] lists one
    element for each call, in the order of the calls. *)
Theorem report_elements_in_call_order (l : list setter) :
  let d := get_report (calls l) in
  ReportReader_init d = Ok d
  ∧ get_report_elements d = Ok (element_name <$> l).
Proof.
  destruct (calls_repr l) as (Hdc & attrs & cs & Htop & Hcs).
  intros d. split.
  - by apply (ReportReader_init_repr d (report (calls l)) attrs cs).
  - rewrite <-setter_tree_names.
    by eapply (get_report_elements_repr d (report (calls l)) attrs cs).
Qed.

(** X15: [get_analysis_name] returns the name written by the first call of
    [set_analysis] (the title of the analysis for one of the four known keys,
    else the name as given), without the white space around it, and [None]
    when [set_analysis] was not called; calls of other setters, before or
    after, and later calls of [set_analysis] change nothing. *)
Theorem analysis_name_first_written (l : list setter) :
  get_analysis_name (get_report (calls l))
  = Ok ((λ name, strip (default name (analysis_names !! name)))
          <$> first_analysis l).
Proof.
  destruct (calls_repr l) as (Hdc & attrs & cs & Htop & Hcs).
  pose proof (get_analysis_name_repr _ _ _ _ _ _ _ Hdc Htop Hcs) as H.
  rewrite first_tree_setter, first_analysis_filter in H.
  by destruct (first_analysis l).
Qed.

(** X16: [get_area_totals_observed] and [get_area_totals_expected] return the
    table written by the first call of their setter, under the same keys and
    with each total as the text of [str] of it (for an integer its decimal
    numeral), and [None] when the setter was not called; the other elements of
    the report do not matter, and the two tables do not mix. *)
Theorem area_totals_first_written (l : list setter) :
  let d := get_report (calls l) in
  get_area_totals_observed d
  = Ok ((λ totals : gmap string Z,
           (λ total, PyStr (str_int total)) <$> totals) <$> first_observed l)
  ∧ get_area_totals_expected d
    = Ok ((λ totals : gmap string spec_float,
             (λ total, PyStr (strip (float_str total))) <$> totals)
            <$> first_expected l).
Proof.
  destruct (calls_repr l) as (Hdc & attrs & cs & Htop & Hcs).
  intros d. split.
  - pose proof (get_area_totals_from_repr _ _ _ _ _ _ _ Hdc Htop Hcs
                  float_str "area_totals_observed") as H.
    rewrite first_tree_setter, first_observed_filter in H.
    subst d. unfold get_area_totals_observed, get_report.
    destruct (first_observed l) as [totals|]; [|exact H].
    cbn in H. rewrite (H _ eq_refl). cbn. do 2 f_equal.
    rewrite (ReportFacts.foldl_insert_map_to_list
               (λ v, PyStr (strip (py_str float_str v)))).
    rewrite <-map_fmap_compose. apply map_fmap_ext. intros k z _. simpl.
    by rewrite ReportFacts.strip_str_int.
  - pose proof (get_area_totals_from_repr _ _ _ _ _ _ _ Hdc Htop Hcs
                  float_str "area_totals_expected") as H.
    rewrite first_tree_setter, first_expected_filter in H.
    subst d. unfold get_area_totals_expected, get_report.
    destruct (first_expected l) as [totals|]; [|exact H].
    cbn in H. rewrite (H _ eq_refl). cbn. do 2 f_equal.
    rewrite (ReportFacts.foldl_insert_map_to_list
               (λ v, PyStr (strip (py_str float_str v)))).
    by rewrite <-map_fmap_compose.
Qed.

(** X17: [get_plate_areas_definition] returns the definition written by the
    first call of [set_plate_areas_definition]: the same areas, each with its
    spots in their order (without white space around them); it returns [None]
    when that setter was not called. *)
Theorem plate_areas_definition_first_written (l : list setter) :
  get_plate_areas_definition (get_report (calls l))
  = Ok ((λ definition : gmap string (list string),
           (λ spots : list string, strip <$> spots) <$> definition)
          <$> first_definition l).
Proof.
  destruct (calls_repr l) as (Hdc & attrs & cs & Htop & Hcs).
  pose proof (get_plate_areas_definition_repr _ _ _ _ _ _ _ Hdc Htop Hcs) as H.
  rewrite first_tree_setter, first_definition_filter in H.
  unfold get_report.
  destruct (first_definition l) as [definition|]; [|exact H].
  cbn in H. rewrite (H _ eq_refl). cbn. do 2 f_equal.
  apply foldl_definition_map_to_list.
Qed.

End Calls.

End DomFacts.

(** * The methods of the analysis *)

Module AnalysisFacts.
Import Std SpotPreference SpotFacts RandomFacts ExpectedFacts WilcoxonFacts
       RepeatFacts AreasFacts Reader DomFacts.

(** ** The probabilities of the user defined plate areas *)

Lemma probabilities_zero_lookup name :
  name ∈ area_names → probabilities_zero !! name = Some (float_of_Z 0).
Proof.
  unfold area_names, probabilities_zero.
  rewrite !elem_of_union, !elem_of_singleton.
  intros [[[->| ->]| ->]| ->]; reflexivity.
Qed.

Lemma defined_dom {V W} (definition : gmap string W) (d : gmap string V) :
  dom definition ⊆ dom d →
  dom (filter (λ kv : string * V, kv.1 ∈ dom definition) d) = dom definition.
Proof.
  intros Hsub. apply set_eq. intros k. rewrite elem_of_dom. split.
  - by intros [v [_ Hk]%map_lookup_filter_Some].
  - intros Hk. destruct (proj1 (elem_of_dom d k) (Hsub k Hk)) as [v Hv].
    exists v. by apply map_lookup_filter_Some.
Qed.

(** X18: When every name of the plate areas definition is one of 'area1' ..
    'area4', [get_area_probabilities] returns a probability for exactly the
    names of the definition: the float sum, from 0, of the probabilities 4/25,
    12/25, 8/25 and 1/25 of the plate areas (A, B, C, D) that the definition
    gives the name, in their order. The observed totals of the defined areas
    then have the same keys. *)
Theorem get_area_probabilities_defined (cfg : config) :
  dom (plate_areas_definition cfg) ⊆ area_names →
  ∃ area_probabilities,
    get_area_probabilities cfg = Ok area_probabilities
    ∧ dom area_probabilities = dom (plate_areas_definition cfg)
    ∧ (∀ name spot_names,
         plate_areas_definition cfg !! name = Some spot_names →
         area_probabilities !! name
         = Some (foldl (λ v a, float_add v (probabilities a))
                       (float_of_Z 0) spot_names))
    ∧ ∀ self totals,
        get_defined_areas_totals_observed cfg self = Ok totals →
        dom totals = dom area_probabilities.
Proof.
  intros Hnames. rewrite get_area_probabilities_eq.
  set (definition := plate_areas_definition cfg) in *.
  rewrite accumulate_Ok.
  2:{ intros name y Hin%elem_of_map_to_list. left.
      rewrite probabilities_zero_dom. apply Hnames. apply elem_of_dom. eauto. }
  cbn [mbind result_bind rbind]. eexists. split; [done|].
  assert (dom (filter (λ kv : string * spec_float, kv.1 ∈ dom definition)
                 (accumulated (λ v a, float_add v (probabilities a)) id
                    probabilities_zero (map_to_list definition)))
          = dom definition) as Hdom.
  { apply defined_dom. by rewrite accumulated_dom, probabilities_zero_dom. }
  split; [done|]. split.
  - intros name spot_names Hdef.
    apply map_lookup_filter_Some. split; [|apply elem_of_dom; eauto].
    rewrite (accumulated_lookup _ _ _ _ name spot_names).
    + by rewrite probabilities_zero_lookup by (apply Hnames, elem_of_dom; eauto).
    + apply NoDup_fst_map_to_list.
    + by apply elem_of_map_to_list.
  - intros self totals. rewrite get_defined_areas_totals_observed_eq.
    fold definition. rewrite accumulate_Ok.
    2:{ intros name y Hin%elem_of_map_to_list. left.
        rewrite totals_zero_dom. apply Hnames. apply elem_of_dom. eauto. }
    cbn [mbind result_bind rbind]. intros [= <-]. rewrite Hdom.
    apply defined_dom. by rewrite accumulated_dom, totals_zero_dom.
Qed.

Lemma get_area_probabilities_defined_witness :
  ∃ area_probabilities,
    get_area_probabilities three_areas_cfg = Ok area_probabilities
    ∧ dom area_probabilities = dom (plate_areas_definition three_areas_cfg)
    ∧ (∀ name spot_names,
         plate_areas_definition three_areas_cfg !! name = Some spot_names →
         area_probabilities !! name
         = Some (foldl (λ v a, float_add v (probabilities a))
                       (float_of_Z 0) spot_names))
    ∧ ∀ self totals,
        get_defined_areas_totals_observed three_areas_cfg self = Ok totals →
        dom totals = dom area_probabilities.
Proof.
  apply (get_area_probabilities_defined three_areas_cfg).
  apply three_areas_names.
Defined.

(** ** Bounds of the area totals *)

Lemma count_in_NoDup (a : area) (spots : list Z) :
  NoDup spots → 0 ≤ count_in a spots ≤ Z.of_nat (length (spots_in a)).
Proof.
  intros Hnd. unfold count_in. split; [lia|]. apply inj_le.
  apply submseteq_length, NoDup_submseteq.
  - by apply NoDup_filter.
  - by intros s [Hs _]%list_elem_of_filter.
Qed.

(** A row of area totals within the sizes of the plate areas. *)
Definition within_areas (r : row) : Prop :=
  0 ≤ area_a r ≤ 4 ∧ 0 ≤ area_b r ≤ 12 ∧ 0 ≤ area_c r ≤ 8 ∧ 0 ≤ area_d r ≤ 1.

Lemma totals_within_areas (items : list (area * list Z)) (spots : list Z)
    (id : Z) :
  items ≡ₚ area2spots → NoDup spots →
  let area_totals :=
    foldl (λ totals spot, add_spot items spot totals) area_totals_zero spots in
  within_areas {| pla_id := id;
                  area_a := total A area_totals; area_b := total B area_totals;
                  area_c := total C area_totals; area_d := total D area_totals |}.
Proof.
  intros Hp Hnd area_totals. unfold within_areas, area_totals.
  cbn [area_a area_b area_c area_d].
  rewrite !(add_spots_total items spots area_totals_zero _ Hp).
  pose proof (count_in_NoDup A spots Hnd).
  pose proof (count_in_NoDup B spots Hnd).
  pose proof (count_in_NoDup C spots Hnd).
  pose proof (count_in_NoDup D spots Hnd).
  simpl in *. lia.
Qed.

(** X19: [set_plate_area_totals_observed] rebuilds the observed table from the
    records: one row for each record, every area total between 0 and the
    number of spots of the area (4, 12, 8 and 1), whatever the records hold;
    the other tables are left as they are, and a second call changes nothing.
    *)
Theorem set_plate_area_totals_observed_rebuilds
    (items : list (area * list Z)) (self : Start) :
  items ≡ₚ area2spots →
  let self' := set_plate_area_totals_observed items self in
  Forall within_areas (plate_area_totals_observed (db self'))
  ∧ length (plate_area_totals_observed (db self'))
    = length (species_spots_1 (db self))
  ∧ species_spots_1 (db self') = species_spots_1 (db self)
  ∧ plate_area_totals_expected (db self')
    = plate_area_totals_expected (db self)
  ∧ set_plate_area_totals_observed items self' = self'.
Proof.
  intros Hp self'. subst self'. rewrite observed_table.
  split; [|split; [by rewrite length_fmap|done]].
  apply Forall_fmap, Forall_forall. intros rec _. simpl.
  unfold observed_row. rewrite observed_fold.
  apply (totals_within_areas items (positive_spots 1 rec.2) rec.1 Hp).
  apply (StdMoreFacts.StronglySorted_lt_NoDup Z.lt); [intros x; lia|].
  apply SpatialFacts.positive_spots_spec.
Qed.

Lemma set_plate_area_totals_observed_rebuilds_witness :
  let self' := set_plate_area_totals_observed area2spots Examples.two_plates in
  Forall within_areas (plate_area_totals_observed (db self'))
  ∧ length (plate_area_totals_observed (db self'))
    = length (species_spots_1 (db Examples.two_plates))
  ∧ species_spots_1 (db self') = species_spots_1 (db Examples.two_plates)
  ∧ plate_area_totals_expected (db self')
    = plate_area_totals_expected (db Examples.two_plates)
  ∧ set_plate_area_totals_observed area2spots self' = self'.
Proof.
  apply (set_plate_area_totals_observed_rebuilds area2spots Examples.two_plates).
  reflexivity.
Defined.

Section ExpectedBounds.

Variable items : list (area * list Z).
Hypothesis items_perm : items ≡ₚ area2spots.

Lemma expected_row_within r g :
  0 ≤ n_spots r ≤ 25 → fair (tape g) →
  ∃ fuel0 r' g',
    (∀ fuel, (fuel0 ≤ fuel)%nat → expected_row items fuel r g = Ok (r', g'))
    ∧ within_areas r' ∧ tape g' = tape g.
Proof.
  intros Hn Hfair.
  destruct (get_random_for_plate_ends (n_spots r) g Hn Hfair)
    as (fuel0 & spots & g' & Hr & _ & Hnd & _ & Htape).
  eexists fuel0, _, g'. split; [|split; [|done]].
  - intros fuel Hfuel. unfold expected_row. fold (n_spots r).
    rewrite (Hr fuel Hfuel). reflexivity.
  - by apply totals_within_areas.
Qed.

Lemma expected_loop_within (rows : list row) :
  ∀ table g,
    Forall (λ r, 0 ≤ n_spots r ≤ 25) rows → fair (tape g) →
    ∃ fuel0 table' g',
      (∀ fuel, (fuel0 ≤ fuel)%nat →
         for_each (λ '(table, g) r,
                     '(r', g) ← expected_row items fuel r g ;
                     Ok (table ++ [r'], g)) rows (table, g)
         = Ok (table ++ table', g'))
      ∧ Forall within_areas table' ∧ tape g' = tape g.
Proof.
  induction rows as [|r rows IH]; intros table g Hrows Hfair.
  - exists 0%nat, [], g. rewrite app_nil_r.
    split; [done|]. split; [constructor|done].
  - apply Forall_cons in Hrows as [Hr Hrows].
    destruct (expected_row_within r g Hr Hfair)
      as (fuel1 & r1 & g1 & H1 & Hin & Htape1).
    destruct (IH (table ++ [r1]) g1 Hrows ltac:(by rewrite Htape1))
      as (fuel2 & table' & g' & H2 & Hall & Htape).
    exists (fuel1 `max` fuel2)%nat, (r1 :: table'), g'.
    split; [|split; [by constructor|congruence]].
    intros fuel Hfuel. cbn [for_each].
    rewrite (result_bind_Ok _ _ _ (H1 fuel ltac:(lia))).
    cbn [mbind result_bind rbind].
    rewrite (H2 fuel ltac:(lia)). by rewrite <-app_assoc.
Qed.

End ExpectedBounds.

(** X20: Every run of [set_plate_area_totals_expected] on observed totals that
    stand for at most 25 positive spots each ends, and every area total of the
    expected table that it leaves is between 0 and the number of spots of the
    area (4, 12, 8 and 1): the random spots of a plate are distinct. The
    records and the observed table are left as they are. *)
Theorem set_plate_area_totals_expected_within
    (items : list (area * list Z)) (self : Start) :
  items ≡ₚ area2spots →
  Forall (λ r, 0 ≤ n_spots r ≤ 25) (plate_area_totals_observed (db self)) →
  fair (tape (random_state self)) →
  ∃ fuel0 self',
    (∀ fuel, (fuel0 ≤ fuel)%nat →
       set_plate_area_totals_expected items fuel self = Ok self')
    ∧ Forall within_areas (plate_area_totals_expected (db self'))
    ∧ plate_area_totals_observed (db self')
      = plate_area_totals_observed (db self)
    ∧ species_spots_1 (db self') = species_spots_1 (db self).
Proof.
  intros Hp Hrows Hfair.
  destruct (expected_loop_within items Hp _ [] (random_state self) Hrows Hfair)
    as (fuel0 & table' & g' & Hloop & Hall & Htape).
  eexists fuel0, _. split.
  - intros fuel Hfuel. unfold set_plate_area_totals_expected.
    rewrite (result_bind_Ok _ _ _ (Hloop fuel Hfuel)). reflexivity.
  - simpl. done.
Qed.

Lemma set_plate_area_totals_expected_within_witness :
  ∃ fuel0 self',
    (∀ fuel, (fuel0 ≤ fuel)%nat →
       set_plate_area_totals_expected area2spots fuel Examples.two_plates
       = Ok self')
    ∧ Forall within_areas (plate_area_totals_expected (db self'))
    ∧ plate_area_totals_observed (db self')
      = plate_area_totals_observed (db Examples.two_plates)
    ∧ species_spots_1 (db self') = species_spots_1 (db Examples.two_plates).
Proof.
  apply (set_plate_area_totals_expected_within area2spots Examples.two_plates).
  - reflexivity.
  - repeat constructor; unfold n_spots; simpl; lia.
  - apply cycle_tape_fair.
Defined.

(** ** The Wilcoxon tests of the area groups *)

Section WilcoxonGroups.

Variable cfg : config.
Variable wilcox_test : list Z → list Z → spec_float → wilcox_result.

(** Both tables have the rows that the test needs. *)
Definition testable (d : database) : bool :=
  (2 <=? Z.of_nat (length (plate_area_totals_observed d)))
  && (2 <=? Z.of_nat (length (plate_area_totals_expected d))).

(** The result saved for an area group. *)
Definition wilcoxon_entry (d : database) (area_group : list area)
  : wilcoxon_data :=
  let observed := get_area_totals (plate_area_totals_observed d) area_group in
  let expected := get_area_totals (plate_area_totals_expected d) area_group in
  let sig_result := wilcox_test observed expected (conf_level cfg) in
  {| wd_plate_area := area_group_str area_group;
     wd_n := Z.of_nat (length observed);
     wd_n_sp_observed := sumZ observed;
     wd_n_sp_expected := sumZ expected;
     wd_method := w_method sig_result;
     wd_alternative := w_alternative sig_result;
     wd_conf_level := conf_level cfg;
     wd_paired := false;
     wd_p_value := w_p_value sig_result;
     wd_mean_observed :=
       Qmake (sumZ observed) (Z.to_pos (Z.of_nat (length observed)));
     wd_mean_expected :=
       Qmake (sumZ expected) (Z.to_pos (Z.of_nat (length expected))) |}.

Definition wilcoxon_call (d : database) (area_group : list area) : event :=
  call_wilcox_test
    (get_area_totals (plate_area_totals_observed d) area_group)
    (get_area_totals (plate_area_totals_expected d) area_group).

Lemma wilcoxon_group_spec (self : Start) (area_group : list area) :
  wilcoxon_group cfg wilcox_test self area_group
  = Ok (if testable (db self)
        then with_wilcoxon (wilcoxon_entry (db self) area_group)
               (log (wilcoxon_call (db self) area_group) self)
        else self).
Proof.
  unfold wilcoxon_group, testable, wilcoxon_entry, wilcoxon_call.
  rewrite !get_area_totals_length.
  set (n_o := length (plate_area_totals_observed (db self))).
  set (n_e := length (plate_area_totals_expected (db self))).
  destruct (Z.ltb_spec (Z.of_nat n_o) 2) as [Ho|Ho].
  { replace (2 <=? Z.of_nat n_o) with false
      by (symmetry; apply Z.leb_gt; lia). done. }
  destruct (Z.ltb_spec (Z.of_nat n_e) 2) as [He|He].
  { replace (2 <=? Z.of_nat n_e) with false
      by (symmetry; apply Z.leb_gt; lia). by rewrite andb_false_r. }
  replace (2 <=? Z.of_nat n_o) with true by (symmetry; apply Z.leb_le; lia).
  replace (2 <=? Z.of_nat n_e) with true by (symmetry; apply Z.leb_le; lia).
  cbn [orb andb].
  rewrite !mean_Ok by (rewrite get_area_totals_length; fold n_o n_e; lia).
  cbn [mbind result_bind rbind]. by rewrite !get_area_totals_length.
Qed.

Lemma wilcoxon_loop (groups : list (list area)) :
  ∀ self,
    ∃ self',
      for_each (wilcoxon_group cfg wilcox_test) groups self = Ok self'
      ∧ db self' = db self
      ∧ random_state self' = random_state self
      ∧ chisq_observed self' = chisq_observed self
      ∧ chisq_expected self' = chisq_expected self
      ∧ statistics_chi_squared self' = statistics_chi_squared self
      ∧ statistics_repeats self' = statistics_repeats self
      ∧ analysis_report self' = analysis_report self
      ∧ statistics_wilcoxon self'
        = statistics_wilcoxon self
          ++ (if testable (db self)
              then wilcoxon_entry (db self) <$> groups else [])
      ∧ trace self'
        = trace self
          ++ (if testable (db self)
              then wilcoxon_call (db self) <$> groups else []).
Proof.
  induction groups as [|g groups IH]; intros self.
  - exists self. repeat (split; [done|]).
    destruct (testable (db self)); by rewrite !app_nil_r.
  - cbn [for_each]. rewrite wilcoxon_group_spec.
    cbn [mbind result_bind rbind].
    destruct (testable (db self)) eqn:Ht.
    + destruct (IH (with_wilcoxon (wilcoxon_entry (db self) g)
                      (log (wilcoxon_call (db self) g) self)))
        as (self' & -> & Hdb & Hrng & Hco & Hce & Hchi & Hrep & Hrp & Hw & Htr).
      cbn [db with_wilcoxon log random_state chisq_observed chisq_expected
           statistics_chi_squared statistics_repeats analysis_report
           statistics_wilcoxon trace] in *.
      rewrite Ht in Hw, Htr.
      exists self'. repeat (split; [done|]).
      rewrite Hw, Htr, !fmap_cons, <-!app_assoc. done.
    + destruct (IH self)
        as (self' & -> & Hdb & Hrng & Hco & Hce & Hchi & Hrep & Hrp & Hw & Htr).
      rewrite Ht in Hw, Htr. exists self'. by repeat (split; [done|]).
Qed.

End WilcoxonGroups.

(** X21: [calculate_significance_wilcoxon] never fails, and it tests either
    all eight area groups or none: when the observed and the expected table
    both have at least two rows, it calls the Wilcoxon test once for each of
    A, B, C, D, A+B, C+D, A+B+C and B+C+D, in this order, on the totals of the
    group in the two tables, and appends one result for each (with the number
    of rows as n, the sums of the totals as the numbers of encounters, the
    p-value of the test and the exact means); otherwise it calls no test and
    saves nothing. Nothing else of the state changes. *)
Theorem calculate_significance_wilcoxon_all_or_none (cfg : config)
    (wilcox_test : list Z → list Z → spec_float → wilcox_result)
    (self : Start) :
  ∃ self' results calls,
    calculate_significance_wilcoxon cfg wilcox_test self = Ok self'
    ∧ statistics_wilcoxon self' = statistics_wilcoxon self ++ results
    ∧ trace self' = trace self ++ calls
    ∧ db self' = db self
    ∧ statistics_repeats self' = statistics_repeats self
    ∧ statistics_chi_squared self' = statistics_chi_squared self
    ∧ (if testable (db self) then
         wd_plate_area <$> results
         = ["A"; "B"; "C"; "D"; "A+B"; "C+D"; "A+B+C"; "B+C+D"]%string
         ∧ Forall2
             (λ area_group data,
                let observed :=
                  get_area_totals (plate_area_totals_observed (db self))
                                  area_group in
                let expected :=
                  get_area_totals (plate_area_totals_expected (db self))
                                  area_group in
                wd_n data = Z.of_nat (length (plate_area_totals_observed (db self)))
                ∧ wd_n_sp_observed data = sumZ observed
                ∧ wd_n_sp_expected data = sumZ expected
                ∧ wd_p_value data
                  = w_p_value (wilcox_test observed expected (conf_level cfg))
                ∧ mean observed = Ok (wd_mean_observed data)
                ∧ mean expected = Ok (wd_mean_expected data))
             area_groups results
         ∧ calls
           = (λ area_group,
                call_wilcox_test
                  (get_area_totals (plate_area_totals_observed (db self))
                                   area_group)
                  (get_area_totals (plate_area_totals_expected (db self))
                                   area_group)) <$> area_groups
       else results = [] ∧ calls = []).
Proof.
  destruct (wilcoxon_loop cfg wilcox_test area_groups self)
    as (self' & H & Hdb & _ & _ & _ & Hchi & Hrep & _ & Hw & Htr).
  eexists self', _, _. split; [exact H|]. split; [exact Hw|].
  split; [exact Htr|]. split; [done|]. split; [done|]. split; [done|].
  destruct (testable (db self)) eqn:Ht; [|done].
  split; [reflexivity|]. split; [|done].
  apply Forall2_fmap_r, Forall_Forall2_diag, Forall_forall.
  intros g _. unfold wilcoxon_entry, compose. cbv beta zeta.
  cbn [wd_n wd_n_sp_observed wd_n_sp_expected wd_p_value wd_mean_observed
       wd_mean_expected].
  unfold testable in Ht. apply andb_true_iff in Ht as [Ho He].
  apply Z.leb_le in Ho, He.
  split; [by rewrite get_area_totals_length|].
  repeat (split; [done|]).
  split; apply mean_Ok; rewrite get_area_totals_length; lia.
Qed.

(** ** The Chi-squared test *)

Lemma chisq_expected_loop (ce : list spec_float) (keys : list string) :
  ∀ (k : nat) (acc : gmap string spec_float),
    (k + length keys ≤ length ce)%nat → NoDup keys →
    ∃ expected,
      for_each (λ expected '(i, area),
                  v ← getitem ce i ;
                  Ok (<[area := v]> expected))
               (enumerate (Z.of_nat k) keys) acc = Ok expected
      ∧ (∀ i area, keys !! i = Some area →
                   expected !! area = ce !! (k + i)%nat)
      ∧ (∀ area, area ∉ keys → expected !! area = acc !! area).
Proof.
  induction keys as [|key keys IH]; intros k acc Hlen Hnd.
  - exists acc. split; [done|]. split; [by intros ? ? ?|done].
  - apply NoDup_cons in Hnd as [Hkey Hnd]. cbn [length] in Hlen.
    cbn [enumerate for_each].
    destruct (lookup_lt_is_Some_2 ce k ltac:(lia)) as [v Hv].
    rewrite (getitem_lookup ce k v Hv). cbn [mbind result_bind rbind].
    replace (Z.of_nat k + 1) with (Z.of_nat (S k)) by lia.
    destruct (IH (S k) (<[key := v]> acc) ltac:(lia) Hnd)
      as (expected & Hloop & Hin & Hout).
    exists expected. split; [exact Hloop|]. split.
    + intros [|i] area Hi.
      * injection Hi as <-. rewrite (Hout key Hkey), lookup_insert_eq.
        by rewrite Nat.add_0_r.
      * rewrite (Hin i area Hi). f_equal. lia.
    + intros area Harea. apply not_elem_of_cons in Harea as [Hne Harea].
      rewrite (Hout area Harea). by apply lookup_insert_ne.
Qed.

Lemma chisq_expected_short (ce : list spec_float) (keys : list string) :
  ∀ (k : nat) (acc : gmap string spec_float),
    (k ≤ length ce < k + length keys)%nat →
    for_each (λ expected '(i, area),
                v ← getitem ce i ;
                Ok (<[area := v]> expected))
             (enumerate (Z.of_nat k) keys) acc = Raise IndexError.
Proof.
  induction keys as [|key keys IH]; intros k acc Hlen.
  - simpl in Hlen. lia.
  - cbn [length] in Hlen. cbn [enumerate for_each].
    destruct (decide (k < length ce)%nat) as [Hk|Hk].
    + destruct (lookup_lt_is_Some_2 ce k Hk) as [v Hv].
      rewrite (getitem_lookup ce k v Hv). cbn [mbind result_bind rbind].
      replace (Z.of_nat k + 1) with (Z.of_nat (S k)) by lia.
      apply IH. lia.
    + assert (getitem ce (Z.of_nat k) = Raise IndexError) as ->; [|done].
      unfold getitem, py_index.
      replace (Z.of_nat k <? Z.of_nat (length ce)) with false
        by (symmetry; apply Z.ltb_ge; lia).
      rewrite andb_false_r.
      replace (Z.of_nat k <? 0) with false by (symmetry; apply Z.ltb_ge; lia).
      by rewrite andb_false_r.
Qed.

Lemma get_area_probabilities_Ok (cfg : config) :
  dom (plate_areas_definition cfg) ⊆ area_names →
  ∃ probabilities, get_area_probabilities cfg = Ok probabilities.
Proof.
  intros Hnames.
  rewrite get_area_probabilities_eq, accumulate_Ok; [by eexists|].
  intros name y Hin%elem_of_map_to_list. left.
  rewrite probabilities_zero_dom. apply Hnames. apply elem_of_dom. eauto.
Qed.

Lemma calculate_significance_chisq_Ok (cfg : config)
    (chisq_test : list Z → list spec_float → chisq_result)
    (self : Start) (observed : gmap string Z)
    (probabilities : gmap string spec_float) :
  chisq_observed self = Some observed →
  get_area_probabilities cfg = Ok probabilities →
  let x := (map_to_list observed).*2 in
  let p := (map_to_list probabilities).*2 in
  let sig_result := chisq_test x p in
  (length x ≤ length (c_expected sig_result))%nat →
  ∃ self' expected,
    calculate_significance_chisq cfg chisq_test self = Ok self'
    ∧ chisq_expected self' = Some expected
    ∧ dom expected = dom observed
    ∧ (∀ i area, (map_to_list observed).*1 !! i = Some area →
                 expected !! area = c_expected sig_result !! i)
    ∧ trace self' = trace self ++ [call_chisq_test x p]
    ∧ statistics_chi_squared self'
      = statistics_chi_squared self
        ++ [ {| cd_method := c_method sig_result;
                cd_chi_squared := c_statistic sig_result;
                cd_p_value := c_p_value sig_result;
                cd_df := c_df sig_result |} ]
    ∧ chisq_observed self' = Some observed
    ∧ db self' = db self
    ∧ statistics_wilcoxon self' = statistics_wilcoxon self
    ∧ statistics_repeats self' = statistics_repeats self.
Proof.
  intros Hobserved Hprob x p sig_result Hlen.
  unfold calculate_significance_chisq. rewrite Hprob, Hobserved.
  cbn [mbind result_bind rbind]. fold x p sig_result.
  assert (length (map_to_list observed).*1 = length x) as Hkeys
    by (unfold x; by rewrite !length_fmap).
  destruct (chisq_expected_loop (c_expected sig_result)
              (map_to_list observed).*1 0 ∅ ltac:(lia)
              (NoDup_fst_map_to_list observed))
    as (expected & Hloop & Hin & Hout).
  change (Z.of_nat 0) with 0 in Hloop. rewrite Hloop.
  cbn [mbind result_bind rbind].
  eexists _, expected. split; [reflexivity|].
  cbn [chisq_expected with_chisq log trace statistics_chi_squared
       chisq_observed db statistics_wilcoxon statistics_repeats].
  split; [done|]. split; [|split; [exact Hin|done]].
  apply set_eq. intros area. rewrite !elem_of_dom. split.
  - intros [v Hv]. destruct (observed !! area) as [z|] eqn:Hz; [by eexists|].
    rewrite Hout in Hv; [by rewrite lookup_empty in Hv|].
    intros ((a & z) & -> & Haz%elem_of_map_to_list)%list_elem_of_fmap.
    simpl in Hz. congruence.
  - intros [z Hz].
    assert (area ∈ (map_to_list observed).*1) as Harea.
    { apply (list_elem_of_fmap_2 fst _ (area, z)). by apply elem_of_map_to_list. }
    apply list_elem_of_lookup in Harea as [i Hi].
    rewrite (Hin i area Hi). apply lookup_lt_is_Some_2.
    apply lookup_lt_Some in Hi. lia.
Qed.

(** X22: With observed totals at hand and area names among 'area1' .. 'area4',
    [calculate_significance_chisq] calls the Chi-squared test once, on the
    values of the observed totals and the values of the probabilities. When
    the test returns at least as many expected values as there are observed
    totals, the method saves one result and the expected totals: the i-th key
    of the observed totals with the i-th expected value, so the observed and
    the expected totals have the same keys. When the test returns fewer
    expected values, the method fails with an IndexError. *)
Theorem calculate_significance_chisq_spec (cfg : config)
    (chisq_test : list Z → list spec_float → chisq_result)
    (self : Start) (observed : gmap string Z) :
  chisq_observed self = Some observed →
  dom (plate_areas_definition cfg) ⊆ area_names →
  ∃ probabilities,
    get_area_probabilities cfg = Ok probabilities
    ∧ let x := (map_to_list observed).*2 in
      let p := (map_to_list probabilities).*2 in
      let sig_result := chisq_test x p in
      ((length x ≤ length (c_expected sig_result))%nat →
       ∃ self' expected,
         calculate_significance_chisq cfg chisq_test self = Ok self'
         ∧ chisq_expected self' = Some expected
         ∧ dom expected = dom observed
         ∧ (∀ i area, (map_to_list observed).*1 !! i = Some area →
                      expected !! area = c_expected sig_result !! i)
         ∧ trace self' = trace self ++ [call_chisq_test x p]
         ∧ statistics_chi_squared self'
           = statistics_chi_squared self
             ++ [ {| cd_method := c_method sig_result;
                     cd_chi_squared := c_statistic sig_result;
                     cd_p_value := c_p_value sig_result;
                     cd_df := c_df sig_result |} ]
         ∧ chisq_observed self' = Some observed
         ∧ db self' = db self
         ∧ statistics_wilcoxon self' = statistics_wilcoxon self
         ∧ statistics_repeats self' = statistics_repeats self)
      ∧ ((length (c_expected sig_result) < length x)%nat →
         calculate_significance_chisq cfg chisq_test self = Raise IndexError).
Proof.
  intros Hobserved Hnames.
  destruct (get_area_probabilities_Ok cfg Hnames) as [probabilities Hprob].
  exists probabilities. split; [exact Hprob|]. intros x p sig_result.
  split.
  - by apply calculate_significance_chisq_Ok.
  - intros Hlen.
    unfold calculate_significance_chisq. rewrite Hprob, Hobserved.
    cbn [mbind result_bind rbind]. fold x p sig_result.
    assert (length (map_to_list observed).*1 = length x) as Hkeys
      by (unfold x; by rewrite !length_fmap).
    rewrite (chisq_expected_short (c_expected sig_result)
               (map_to_list observed).*1 0 ∅); [done|lia].
Qed.

Definition observed_321 : gmap string Z :=
  {[ "area1" := 3; "area2" := 2; "area3" := 1 ]}.

Lemma calculate_significance_chisq_spec_witness :
  let self := with_chisq_observed observed_321 one_plate in
  ∃ probabilities,
    get_area_probabilities three_areas_cfg = Ok probabilities
    ∧ let x := (map_to_list observed_321).*2 in
      let p := (map_to_list probabilities).*2 in
      let sig_result := RunFacts.chisq_nan x p in
      ((length x ≤ length (c_expected sig_result))%nat →
       ∃ self' expected,
         calculate_significance_chisq three_areas_cfg RunFacts.chisq_nan self
         = Ok self'
         ∧ chisq_expected self' = Some expected
         ∧ dom expected = dom observed_321
         ∧ (∀ i area, (map_to_list observed_321).*1 !! i = Some area →
                      expected !! area = c_expected sig_result !! i)
         ∧ trace self' = trace self ++ [call_chisq_test x p]
         ∧ statistics_chi_squared self'
           = statistics_chi_squared self
             ++ [ {| cd_method := c_method sig_result;
                     cd_chi_squared := c_statistic sig_result;
                     cd_p_value := c_p_value sig_result;
                     cd_df := c_df sig_result |} ]
         ∧ chisq_observed self' = Some observed_321
         ∧ db self' = db self
         ∧ statistics_wilcoxon self' = statistics_wilcoxon self
         ∧ statistics_repeats self' = statistics_repeats self)
      ∧ ((length (c_expected sig_result) < length x)%nat →
         calculate_significance_chisq three_areas_cfg RunFacts.chisq_nan self
         = Raise IndexError).
Proof.
  intros self.
  apply (calculate_significance_chisq_spec three_areas_cfg RunFacts.chisq_nan
           self observed_321).
  - reflexivity.
  - apply three_areas_names.
Defined.

(** ** The repeats *)

(** The events of a trace that are no calls of a test: the progress steps
    and the signals. *)
Definition others (tr : list event) : list event :=
  filter (λ e, is_test e = false) tr.

Lemma others_app tr tr' : others (tr ++ tr') = others tr ++ others tr'.
Proof. apply filter_app. Qed.

(** From the tally [t] to the tally [t'] in at most [k] tests. *)
Definition grows (k : Z) (t t' : tally) : Prop :=
  0 ≤ n_significant t' - n_significant t ≤ k
  ∧ (n_preference t' - n_preference t) + (n_rejection t' - n_rejection t)
    = n_significant t' - n_significant t
  ∧ n_preference t ≤ n_preference t'
  ∧ n_rejection t ≤ n_rejection t'.

Definition tally_of (self : Start) (area_group : list area) : tally :=
  default tally_zero (statistics_repeats self !! area_group_str area_group).

Section RepeatTallies.

Variable items : list (area * list Z).
Hypothesis items_perm : items ≡ₚ area2spots.
Variable cfg : config.
Variable wilcox_test : list Z → list Z → spec_float → wilcox_result.

Lemma next_tally_grows observed expected t :
  grows 1 t (next_tally cfg wilcox_test observed expected t).
Proof.
  unfold next_tally, grows.
  destruct (_ || _); [lia|]. cbv zeta.
  set (p := float_lt _ _). clearbody p.
  destruct p; [|lia]. destruct (Qgtb _ _); simpl; lia.
Qed.

Lemma wilcoxon_repeats_group_quiet (self : Start) (area_group : list area) :
  ∃ self',
    wilcoxon_repeats_group cfg wilcox_test self area_group = Ok self'
    ∧ others (trace self') = others (trace self)
    ∧ chisq_observed self' = chisq_observed self
    ∧ chisq_expected self' = chisq_expected self
    ∧ statistics_wilcoxon self' = statistics_wilcoxon self
    ∧ statistics_chi_squared self' = statistics_chi_squared self
    ∧ analysis_report self' = analysis_report self.
Proof.
  unfold wilcoxon_repeats_group.
  set (key := area_group_str area_group).
  destruct (statistics_repeats self !! key) as [t|] eqn:Hkey;
    cbn [db with_repeats default id];
    set (observed := get_area_totals (plate_area_totals_observed (db self)) area_group);
    set (expected := get_area_totals (plate_area_totals_expected (db self)) area_group);
    set (p := float_lt _ _); clearbody p;
    destruct (Z.ltb_spec (Z.of_nat (length observed)) 2);
    destruct (Z.ltb_spec (Z.of_nat (length expected)) 2);
    cbn [orb];
    rewrite ?mean_Ok by lia; cbn [mbind result_bind rbind];
    unfold float_ne_str; rewrite ?andb_true_r;
    try destruct p; try destruct (Qgtb _ _);
    (eexists; split; [reflexivity|]);
    cbn [trace with_repeats log chisq_observed chisq_expected
         statistics_wilcoxon statistics_chi_squared analysis_report];
    rewrite ?others_app; cbn [others filter]; rewrite ?app_nil_r; done.
Qed.

Lemma wilcoxon_repeats_quiet (groups : list (list area)) :
  ∀ self self',
    for_each (wilcoxon_repeats_group cfg wilcox_test) groups self = Ok self' →
    others (trace self') = others (trace self)
    ∧ chisq_observed self' = chisq_observed self
    ∧ chisq_expected self' = chisq_expected self
    ∧ statistics_wilcoxon self' = statistics_wilcoxon self
    ∧ statistics_chi_squared self' = statistics_chi_squared self
    ∧ analysis_report self' = analysis_report self.
Proof.
  induction groups as [|g groups IH]; intros self self'.
  - by intros [= <-].
  - cbn [for_each].
    destruct (wilcoxon_repeats_group_quiet self g)
      as (self1 & -> & Htr & Hco & Hce & Hw & Hchi & Hrp).
    cbn [mbind result_bind rbind]. intros Hloop.
    destruct (IH self1 self' Hloop) as (Htr' & Hco' & Hce' & Hw' & Hchi' & Hrp').
    repeat split; congruence.
Qed.

Lemma set_plate_area_totals_expected_quiet fuel (self self' : Start) :
  set_plate_area_totals_expected items fuel self = Ok self' →
  chisq_observed self' = chisq_observed self
  ∧ chisq_expected self' = chisq_expected self
  ∧ statistics_wilcoxon self' = statistics_wilcoxon self
  ∧ statistics_chi_squared self' = statistics_chi_squared self
  ∧ analysis_report self' = analysis_report self.
Proof.
  unfold set_plate_area_totals_expected.
  destruct (for_each _ _ _) as [[table g]|e]; [|done].
  cbn [mbind result_bind rbind]. by intros [= <-].
Qed.

Lemma repeat_loop_tallies (iterations : list Z) :
  ∀ self,
    Forall (λ r, 0 ≤ n_spots r ≤ 25) (plate_area_totals_observed (db self)) →
    fair (tape (random_state self)) →
    ∃ fuel0 self',
      (∀ fuel, (fuel0 ≤ fuel)%nat →
         for_each (λ self _,
                     let self := log (increase EmptyString) self in
                     self ← set_plate_area_totals_expected items fuel self ;
                     calculate_significance_wilcoxon_repeats cfg wilcox_test self)
                  iterations self = Ok self')
      ∧ plate_area_totals_observed (db self')
        = plate_area_totals_observed (db self)
      ∧ species_spots_1 (db self') = species_spots_1 (db self)
      ∧ chisq_observed self' = chisq_observed self
      ∧ statistics_wilcoxon self' = statistics_wilcoxon self
      ∧ statistics_chi_squared self' = statistics_chi_squared self
      ∧ others (trace self')
        = others (trace self)
          ++ replicate (length iterations) (increase EmptyString)
      ∧ ∀ area_group, area_group ∈ area_groups →
          grows (Z.of_nat (length iterations))
                (tally_of self area_group) (tally_of self' area_group).
Proof.
  induction iterations as [|i iterations IH]; intros self Hrows Hfair.
  - exists 0%nat, self. split; [done|]. repeat (split; [done|]).
    split; [by rewrite app_nil_r|]. intros g _. unfold grows. simpl. lia.
  - destruct (set_plate_area_totals_expected_ends items items_perm
                (log (increase EmptyString) self) Hrows Hfair)
      as (fuel1 & self1 & H1 & Hobs1 & Hsp1 & _ & Htape1 & Hrep1 & Htr1).
    destruct (set_plate_area_totals_expected_quiet fuel1 _ self1
                (H1 fuel1 ltac:(lia))) as (Hco1 & _ & Hw1 & Hchi1 & _).
    destruct (calculate_significance_wilcoxon_repeats_spec cfg wilcox_test self1)
      as (self2 & H2 & Hdb2 & Hrng2 & Hin2).
    destruct (wilcoxon_repeats_quiet area_groups self1 self2 H2)
      as (Htr2 & Hco2 & _ & Hw2 & Hchi2 & _).
    destruct (IH self2) as (fuel3 & self' & H3 & Hobs3 & Hsp3 & Hco3 & Hw3
                            & Hchi3 & Htr3 & Htally3).
    { by rewrite Hdb2, Hobs1. }
    { by rewrite Hrng2, Htape1. }
    exists (fuel1 `max` fuel3)%nat, self'.
    split; [|split; [|split; [|split; [|split; [|split; [|split]]]]]].
    + intros fuel Hfuel. cbn [for_each]. cbv zeta.
      rewrite (result_bind_Ok _ _ _ (H1 fuel ltac:(lia))).
      rewrite H2. cbn [mbind result_bind rbind]. apply H3. lia.
    + by rewrite Hobs3, Hdb2, Hobs1.
    + by rewrite Hsp3, Hdb2, Hsp1.
    + by rewrite Hco3, Hco2, Hco1.
    + by rewrite Hw3, Hw2, Hw1.
    + by rewrite Hchi3, Hchi2, Hchi1.
    + rewrite Htr3, Htr2, Htr1. cbn [log trace length replicate].
      rewrite others_app. cbn [others filter].
      by rewrite <-app_assoc.
    + intros g Hg. specialize (Htally3 g Hg).
      assert (tally_of self2 g
              = next_tally cfg wilcox_test
                  (get_area_totals (plate_area_totals_observed (db self1)) g)
                  (get_area_totals (plate_area_totals_expected (db self1)) g)
                  (tally_of self g)) as Hstep.
      { unfold tally_of. rewrite (Hin2 g Hg). unfold group_tally.
        by rewrite Hrep1. }
      pose proof (next_tally_grows
                    (get_area_totals (plate_area_totals_observed (db self1)) g)
                    (get_area_totals (plate_area_totals_expected (db self1)) g)
                    (tally_of self g)) as Hgrow.
      rewrite <-Hstep in Hgrow. unfold grows in *. cbn [length]. lia.
Qed.

End RepeatTallies.

(** X23: [repeat_test] on observed totals that stand for at most 25 positive
    spots each ends, for every number of repeats. For each of the eight area
    groups the tallies only go up: "significant" by at most the number of
    repeats, and "preference" and "rejection" together by exactly as much as
    "significant". It makes one progress step for each repeat and sends no
    signal; with a number of repeats of 0 or less it leaves the state as it
    is. *)
Theorem repeat_test_tallies (items : list (area * list Z)) (cfg : config)
    (wilcox_test : list Z → list Z → spec_float → wilcox_result)
    (number : Z) (self : Start) :
  items ≡ₚ area2spots →
  Forall (λ r, 0 ≤ n_spots r ≤ 25) (plate_area_totals_observed (db self)) →
  fair (tape (random_state self)) →
  ∃ fuel0 self',
    (∀ fuel, (fuel0 ≤ fuel)%nat →
       repeat_test items cfg wilcox_test fuel number self = Ok self')
    ∧ (number ≤ 0 → self' = self)
    ∧ others (trace self')
      = others (trace self)
        ++ replicate (Z.to_nat number) (increase EmptyString)
    ∧ ∀ area_group, area_group ∈ area_groups →
        let t := tally_of self area_group in
        let t' := tally_of self' area_group in
        0 ≤ n_significant t' - n_significant t ≤ Z.max 0 number
        ∧ (n_preference t' - n_preference t)
          + (n_rejection t' - n_rejection t)
          = n_significant t' - n_significant t
        ∧ n_preference t ≤ n_preference t'
        ∧ n_rejection t ≤ n_rejection t'.
Proof.
  intros Hp Hrows Hfair.
  destruct (decide (number ≤ 0)) as [Hle|Hgt].
  - exists 0%nat, self. unfold repeat_test, range.
    rewrite seqZ_nil by lia.
    split; [done|]. split; [done|].
    replace (Z.to_nat number) with 0%nat by lia.
    split; [by rewrite app_nil_r|]. intros g _. simpl. lia.
  - destruct (repeat_loop_tallies items Hp cfg wilcox_test (range number) self
                Hrows Hfair)
      as (fuel0 & self' & H & _ & _ & _ & _ & _ & Htr & Htally).
    unfold range in Htr, Htally. rewrite length_seqZ in Htr, Htally.
    exists fuel0, self'. split; [exact H|]. split; [lia|].
    split; [exact Htr|]. intros g Hg t t'.
    specialize (Htally g Hg). unfold grows in Htally. fold t t' in Htally. lia.
Qed.

Lemma repeat_test_tallies_witness :
  ∃ fuel0 self',
    (∀ fuel, (fuel0 ≤ fuel)%nat →
       repeat_test area2spots three_areas_cfg Examples.wilcox_001 fuel 3
         Examples.two_plates = Ok self')
    ∧ (3 ≤ 0 → self' = Examples.two_plates)
    ∧ others (trace self')
      = others (trace Examples.two_plates)
        ++ replicate (Z.to_nat 3) (increase EmptyString)
    ∧ ∀ area_group, area_group ∈ area_groups →
        let t := tally_of Examples.two_plates area_group in
        let t' := tally_of self' area_group in
        0 ≤ n_significant t' - n_significant t ≤ Z.max 0 3
        ∧ (n_preference t' - n_preference t)
          + (n_rejection t' - n_rejection t)
          = n_significant t' - n_significant t
        ∧ n_preference t ≤ n_preference t'
        ∧ n_rejection t ≤ n_rejection t'.
Proof.
  apply (repeat_test_tallies area2spots three_areas_cfg Examples.wilcox_001 3
           Examples.two_plates).
  - reflexivity.
  - repeat constructor; unfold n_spots; simpl; lia.
  - apply cycle_tape_fair.
Defined.

Section Untestable.

Variable cfg : config.
Variable wilcox_test : list Z → list Z → spec_float → wilcox_result.

Lemma wilcoxon_repeats_group_idle (self : Start) (area_group : list area) :
  testable (db self) = false →
  wilcoxon_repeats_group cfg wilcox_test self area_group
  = Ok (match statistics_repeats self !! area_group_str area_group with
        | None => with_repeats (insert (area_group_str area_group) tally_zero)
                               self
        | Some _ => self
        end).
Proof.
  intros Ht. unfold wilcoxon_repeats_group.
  assert (∀ self0 : Start, db self0 = db self →
            (Z.of_nat (length (get_area_totals
                                 (plate_area_totals_observed (db self0))
                                 area_group)) <? 2)
            || (Z.of_nat (length (get_area_totals
                                    (plate_area_totals_expected (db self0))
                                    area_group)) <? 2) = true) as Hfew.
  { intros self0 ->. rewrite !get_area_totals_length.
    unfold testable in Ht. apply andb_false_iff in Ht as [Ht|Ht];
      apply Z.leb_gt in Ht; apply orb_true_iff; [left|right];
      apply Z.ltb_lt; lia. }
  destruct (statistics_repeats self !! area_group_str area_group);
    by rewrite Hfew.
Qed.

Lemma wilcoxon_repeats_idle (groups : list (list area)) :
  ∀ self,
    testable (db self) = false →
    ∃ self',
      for_each (wilcoxon_repeats_group cfg wilcox_test) groups self = Ok self'
      ∧ trace self' = trace self
      ∧ statistics_wilcoxon self' = statistics_wilcoxon self.
Proof.
  induction groups as [|g groups IH]; intros self Ht; [by exists self|].
  cbn [for_each]. rewrite (wilcoxon_repeats_group_idle self g Ht).
  cbn [mbind result_bind rbind].
  destruct (statistics_repeats self !! area_group_str g).
  - by apply IH.
  - destruct (IH (with_repeats (insert (area_group_str g) tally_zero) self) Ht)
      as (self' & H & Htr & Hw).
    by exists self'.
Qed.

End Untestable.

(** X24: After [calculate_significance_wilcoxon_repeats] the repeats
    dictionary has an entry for each of the eight area groups, and no other
    entry is added or changed. When the observed or the expected table has
    fewer than two rows, no test is called and every tally stays as it was:
    the groups that had no entry get one with three zeros. *)
Theorem calculate_significance_wilcoxon_repeats_entries (cfg : config)
    (wilcox_test : list Z → list Z → spec_float → wilcox_result)
    (self : Start) :
  ∃ self',
    calculate_significance_wilcoxon_repeats cfg wilcox_test self = Ok self'
    ∧ dom (statistics_repeats self')
      = dom (statistics_repeats self)
        ∪ list_to_set (area_group_str <$> area_groups)
    ∧ (∀ key, key ∉ area_group_str <$> area_groups →
              statistics_repeats self' !! key = statistics_repeats self !! key)
    ∧ (testable (db self) = false →
       trace self' = trace self
       ∧ ∀ area_group, area_group ∈ area_groups →
           statistics_repeats self' !! area_group_str area_group
           = Some (tally_of self area_group)).
Proof.
  destruct (wilcoxon_repeats_loop cfg wilcox_test area_groups self
              area_groups_NoDup) as (self' & H & Hdb & _ & Hin & Hout).
  exists self'. split; [exact H|]. split; [|split; [exact Hout|]].
  - apply set_eq. intros key.
    rewrite elem_of_union, elem_of_list_to_set, !elem_of_dom.
    destruct (decide (key ∈ area_group_str <$> area_groups)) as [Hkey|Hkey].
    + split; [by right|]. intros _.
      apply list_elem_of_fmap in Hkey as (g & -> & Hg).
      rewrite (Hin g Hg). by eexists.
    + rewrite (Hout key Hkey). tauto.
  - intros Ht.
    destruct (wilcoxon_repeats_idle cfg wilcox_test area_groups self Ht)
      as (self'' & H' & Htr & _).
    unfold calculate_significance_wilcoxon_repeats in H.
    assert (self'' = self') as -> by congruence.
    split; [exact Htr|]. intros g Hg. rewrite (Hin g Hg). f_equal.
    unfold group_tally, next_tally, tally_of.
    rewrite !get_area_totals_length.
    unfold testable in Ht. apply andb_false_iff in Ht as [Ht|Ht];
      apply Z.leb_gt in Ht.
    + replace (Z.of_nat (length (plate_area_totals_observed (db self))) <? 2)
        with true by (symmetry; apply Z.ltb_lt; lia). done.
    + replace (Z.of_nat (length (plate_area_totals_expected (db self))) <? 2)
        with true by (symmetry; apply Z.ltb_lt; lia).
      by rewrite orb_true_r.
Qed.

(** ** The report of the analysis *)


(** ** A run of the analysis *)





End AnalysisFacts.
